(** * Character n-gram model of the predictive-text engine

    A shallow embedding of [Code/ngram.py] (class [NgramCharacterModel]) and
    of the editing logic of [Code/user_interface.py] (class [TerminalUI]),
    with the properties of the tables, the queries and the sessions.

    Conventions of the embedding.
    - Python [int] is [Z]; counts stored in the tables are [nat].
    - Python [str] is [string]; a character is an [ascii], read as a code
      point below 256.
    - A [dict]/[defaultdict]/[Counter] is a [gmap]; a [defaultdict] read with
      [d[k]] inserts its default when [k] is missing, and that write is part
      of the model.
    - A Python [list] indexed by an [int] raises [IndexError] out of range.
    - [float] arithmetic is idealised: the character estimate is an exact
      rational ([Q]), the word score a real ([R]).  Where a property depends
      on rounding, the estimator is embedded a second time with every
      operation on floats rounded ([get_char_probability_fl]).
    - Methods of the object are computations in a state and exception monad
      over the record of its attributes. *)

From Stdlib Require Import ZArith QArith Qreals Reals Lra Lia String Ascii List Sorted.
From stdpp Require Import base option list list_numbers gmap strings fin_maps.

Close Scope Q_scope.
Close Scope R_scope.
Open Scope string_scope.
Open Scope Z_scope.

(** ** Python strings *)

Module PyStr.

Fixpoint drop (k : nat) (s : string) : string :=
  match k, s with
  | O, _ => s
  | S k', String _ s' => drop k' s'
  | S _, EmptyString => EmptyString
  end.

Fixpoint take (k : nat) (s : string) : string :=
  match k, s with
  | O, _ => EmptyString
  | S k', String c s' => String c (take k' s')
  | S _, EmptyString => EmptyString
  end.

Definition len (s : string) : Z := Z.of_nat (String.length s).

(** A slice bound [b] clamped as CPython does: a negative bound counts from
    the end, and the result is forced into [0 .. len s]. *)
Definition clamp (s : string) (b : Z) : Z :=
  if b <? 0 then Z.max (len s + b) 0 else Z.min b (len s).

(** [s[start:]] *)
Definition slice_from (s : string) (start : Z) : string :=
  drop (Z.to_nat (clamp s start)) s.

(** [s[start:stop]] *)
Definition slice (s : string) (start stop : Z) : string :=
  let lo := clamp s start in
  let hi := clamp s stop in
  take (Z.to_nat (hi - lo)) (drop (Z.to_nat lo) s).

(** [s[i]]: [None] stands for [IndexError]. *)
Definition index (s : string) (i : Z) : option ascii :=
  let i' := if i <? 0 then len s + i else i in
  if i' <? 0 then None else String.get (Z.to_nat i') s.

(** [word.startswith(p)] *)
Definition startswith (word p : string) : bool := String.prefix p word.

(** [sep.join(ws)] *)
Definition join (sep : string) (ws : list string) : string := String.concat sep ws.

Definition code (c : ascii) : N := N_of_ascii c.

(** [[a-zA-Z]] *)
Definition is_letter (c : ascii) : bool :=
  ((97 <=? code c) && (code c <=? 122) || (65 <=? code c) && (code c <=? 90))%N.

(** [\s] of a [str] pattern, on code points below 256. *)
Definition is_space (c : ascii) : bool :=
  ((9 <=? code c) && (code c <=? 13) || (28 <=? code c) && (code c <=? 32)
   || (code c =? 133) || (code c =? 160))%N.

(** [str.lower()] on one code point below 256. *)
Definition lower_char (c : ascii) : ascii :=
  if ((65 <=? code c) && (code c <=? 90)
      || (192 <=? code c) && (code c <=? 222) && negb (code c =? 215))%N
  then ascii_of_N (code c + 32) else c.

Fixpoint lower (s : string) : string :=
  match s with
  | EmptyString => EmptyString
  | String c s' => String (lower_char c) (lower s')
  end.

(** [re.sub(r'[^a-zA-Z\s]', '', s)] *)
Fixpoint sub_non_letters (s : string) : string :=
  match s with
  | EmptyString => EmptyString
  | String c s' =>
      if is_letter c || is_space c then String c (sub_non_letters s')
      else sub_non_letters s'
  end.

(** [re.sub(r'\s+', ' ', s)]; [in_run] tells that the previous character
    belonged to the run of white space already replaced. *)
Fixpoint sub_spaces_from (in_run : bool) (s : string) : string :=
  match s with
  | EmptyString => EmptyString
  | String c s' =>
      if is_space c then
        if in_run then sub_spaces_from true s'
        else String " "%char (sub_spaces_from true s')
      else String c (sub_spaces_from false s')
  end.

Definition sub_spaces (s : string) : string := sub_spaces_from false s.

Fixpoint lstrip (s : string) : string :=
  match s with
  | String c s' => if is_space c then lstrip s' else s
  | EmptyString => EmptyString
  end.

(** [rstrip] keeps a character when it is not white space or when something
    is kept after it. *)
Fixpoint rstrip (s : string) : string :=
  match s with
  | EmptyString => EmptyString
  | String c s' =>
      match rstrip s' with
      | EmptyString => if is_space c then EmptyString else String c EmptyString
      | r => String c r
      end
  end.

(** [s.strip()] *)
Definition strip (s : string) : string := rstrip (lstrip s).

End PyStr.

(** ** Exceptions and the state monad of the object *)

Inductive PyExc : Type :=
| IndexError
| ZeroDivisionError
| ValueError.

Inductive result (A : Type) : Type :=
| Ok (a : A)
| Raise (e : PyExc).
Arguments Ok {A} a.
Arguments Raise {A} e.

(** [l[j]] on a Python list: a negative index counts from the end. *)
Definition list_index {A} (l : list A) (j : Z) : option A :=
  let j' := if j <? 0 then Z.of_nat (length l) + j else j in
  if j' <? 0 then None else l !! Z.to_nat j'.

(** Position written by [l[j] = x] (same index rule). *)
Definition list_pos {A} (l : list A) (j : Z) : nat :=
  Z.to_nat (if j <? 0 then Z.of_nat (length l) + j else j).

(** ** The model object *)

(** The attributes of [NgramCharacterModel]. [backoff_weights] does not exist
    before [_calculate_backoff_weights] runs; it is the empty list until
    then. *)
Record Model : Type := mkModel {
  n : Z;
  counts : list (gmap string (gmap ascii nat));
  contexts : list (gmap string nat);
  backoff_weights : list (gmap string Q);
  words : list string;
  word_freq : gmap string nat
}.

Definition set_counts (v : list (gmap string (gmap ascii nat))) (m : Model) : Model :=
  mkModel (n m) v (contexts m) (backoff_weights m) (words m) (word_freq m).
Definition set_contexts (v : list (gmap string nat)) (m : Model) : Model :=
  mkModel (n m) (counts m) v (backoff_weights m) (words m) (word_freq m).
Definition set_backoff_weights (v : list (gmap string Q)) (m : Model) : Model :=
  mkModel (n m) (counts m) (contexts m) v (words m) (word_freq m).

Definition M (A : Type) : Type := Model → result (A * Model).

Definition ret {A} (a : A) : M A := λ m, Ok (a, m).
Definition raise {A} (e : PyExc) : M A := λ _, Raise e.
Definition bind {A B} (k : A → M B) (c : M A) : M B :=
  λ m, match c m with
       | Ok (a, m') => k a m'
       | Raise e => Raise e
       end.

#[global] Instance M_ret : MRet M := @ret.
#[global] Instance M_bind : MBind M := @bind.

(** [for x in xs: body x] *)
Fixpoint for_ {A} (xs : list A) (body : A → M unit) : M unit :=
  match xs with
  | [] => ret tt
  | x :: xs' => body x;; for_ xs' body
  end.

(** [range(a, b)] *)
Definition range (a b : Z) : list Z := seqZ a (b - a).

(** [range(hi, 0, -1)] *)
Definition range_down (hi : Z) : list Z := reverse (seqZ 1 hi).

Definition of_option {A} (e : PyExc) (o : option A) : M A :=
  match o with Some a => ret a | None => raise e end.

Definition gets {A} (f : Model → A) : M A := λ m, Ok (f m, m).
Definition modify (f : Model → Model) : M unit := λ m, Ok (tt, f m).

(** [a / b] on floats *)
Definition float_div (a b : Q) : M Q :=
  if Qeq_bool b 0 then raise ZeroDivisionError else mret (a / b)%Q.

(** [a / b] on the real-valued scores *)
Definition real_div (a b : R) : M R :=
  if Req_dec_T b 0 then raise ZeroDivisionError else mret (a / b)%R.

(** [math.log(x)]: a [ValueError] (math domain error) unless [0 < x]. *)
Definition math_log (x : R) : M R :=
  if Rlt_dec 0 x then mret (ln x) else raise ValueError.

(** *** Access to the tables *)

(** [self.counts[j]] *)
Definition counts_at (j : Z) : M (gmap string (gmap ascii nat)) :=
  cs ← gets counts; of_option IndexError (list_index cs j).

(** [self.contexts[j]] *)
Definition contexts_at (j : Z) : M (gmap string nat) :=
  cs ← gets contexts; of_option IndexError (list_index cs j).

(** [ctx in self.counts[j]] *)
Definition counts_contains (j : Z) (ctx : string) : M bool :=
  tbl ← counts_at j; mret (bool_decide (is_Some (tbl !! ctx))).

(** [ctx in self.contexts[j]] *)
Definition contexts_contains (j : Z) (ctx : string) : M bool :=
  tbl ← contexts_at j; mret (bool_decide (is_Some (tbl !! ctx))).

(** [self.counts[j][ctx]] on the [defaultdict]: a missing [ctx] is inserted
    with an empty inner table. *)
Definition counts_getitem (j : Z) (ctx : string) : M (gmap ascii nat) :=
  tbl ← counts_at j;
  match tbl !! ctx with
  | Some inner => mret inner
  | None =>
      modify (λ m, set_counts (<[list_pos (counts m) j := <[ctx := ∅]> tbl]> (counts m)) m);;
      mret ∅
  end.

(** [self.contexts[j][ctx]] on the [defaultdict(int)]: a missing [ctx] is
    inserted with 0. *)
Definition contexts_getitem (j : Z) (ctx : string) : M nat :=
  tbl ← contexts_at j;
  match tbl !! ctx with
  | Some t => mret t
  | None =>
      modify (λ m, set_contexts (<[list_pos (contexts m) j := <[ctx := O]> tbl]> (contexts m)) m);;
      mret O
  end.

(** [self.counts[j][ctx].get(c, 0)] *)
Definition counts_get (j : Z) (ctx : string) (c : ascii) : M nat :=
  inner ← counts_getitem j ctx; mret (default O (inner !! c)).

(** [self.counts[j][ctx][c] += 1] *)
Definition counts_incr (j : Z) (ctx : string) (c : ascii) : M unit :=
  inner ← counts_getitem j ctx;
  let v := default O (inner !! c) in
  tbl ← counts_at j;
  modify (λ m, set_counts
    (<[list_pos (counts m) j := <[ctx := <[c := S v]> inner]> tbl]> (counts m)) m).

(** [self.contexts[j][ctx] += 1] *)
Definition contexts_incr (j : Z) (ctx : string) : M unit :=
  t ← contexts_getitem j ctx;
  tbl ← contexts_at j;
  modify (λ m, set_contexts (<[list_pos (contexts m) j := <[ctx := S t]> tbl]> (contexts m)) m).

(** [self.backoff_weights[j][ctx] = w] *)
Definition backoff_setitem (j : Z) (ctx : string) (w : Q) : M unit :=
  bs ← gets backoff_weights;
  tbl ← of_option IndexError (list_index bs j);
  modify (set_backoff_weights (<[list_pos bs j := <[ctx := w]> tbl]> bs)).

(** ** The methods *)

(** [_train]: one pass over the character stream, all orders at each
    position. *)
Definition _train (corpus : string) : M unit :=
  self_n ← gets n;
  for_ (range 0 (PyStr.len corpus - self_n + 1)) (λ i,
    self_n ← gets n;
    for_ (range 1 (self_n + 1)) (λ j,
      if i >=? j - 1 then
        let context := PyStr.slice corpus (i - (j - 1)) i in
        next_char ← of_option IndexError (PyStr.index corpus i);
        counts_incr j context next_char;;
        contexts_incr j context
      else mret tt)).

(** [_calculate_backoff_weights]. The inner loop visits the keys of
    [self.contexts[j]]; every key is visited once and written under its own
    key, so the order of the visit does not show in the result. *)
Definition _calculate_backoff_weights : M unit :=
  self_n ← gets n;
  modify (set_backoff_weights (replicate (Z.to_nat (self_n + 1)) ∅));;
  self_n ← gets n;
  for_ (range 2 (self_n + 1)) (λ j,
    tbl ← contexts_at j;
    for_ (fst <$> map_to_list tbl) (λ context,
      let shorter_context := PyStr.slice_from context 1 in
      seen ← contexts_contains (j - 1) shorter_context;
      backoff_setitem j context (if seen : bool then 4 # 10 else 1 # 10)%Q)).

Definition alpha : Q := (1 # 100)%Q.
Definition vocab_size : Z := 27.

(** The loop of [get_char_probability] over the orders [js], highest
    first; the first order that returns ends the loop. *)
Fixpoint get_char_probability_orders (js : list Z) (context : string) (char : ascii)
  : M Q :=
  match js with
  | [] => mret (1 / 27)%Q
  | j :: js' =>
      let curr_context := PyStr.slice_from context (- (j - 1)) in
      found ← counts_contains j curr_context;
      if found : bool then
        total_count ← contexts_getitem j curr_context;
        char_count ← counts_get j curr_context char;
        if negb (Nat.eqb total_count 0) then
          float_div (inject_Z (Z.of_nat char_count) + alpha)
                    (inject_Z (Z.of_nat total_count) + alpha * inject_Z vocab_size)%Q
        else get_char_probability_orders js' context char
      else get_char_probability_orders js' context char
  end.

Definition get_char_probability (context : string) (char : ascii) : M Q :=
  self_n ← gets n;
  let max_order := Z.min (PyStr.len context + 1) self_n in
  get_char_probability_orders (range_down max_order) context char.

(** The loop of [get_word_probability] over the characters still to score.
    [None] is the early [return 0.0]; [Some log_prob] is the normal end. *)
Fixpoint get_word_probability_chars (rest : string) (curr_context : string)
    (log_prob : R) : M (option R) :=
  match rest with
  | EmptyString => mret (Some log_prob)
  | String char rest' =>
      char_prob ← get_char_probability curr_context char;
      if Qlt_le_dec 0 char_prob then
        l ← math_log (Q2R char_prob);
        let log_prob := (log_prob + l)%R in
        self_n ← gets n;
        let curr_context :=
          PyStr.slice_from (curr_context ++ String char EmptyString)
            (- Z.min (PyStr.len curr_context + 1) (self_n - 1)) in
        get_word_probability_chars rest' curr_context log_prob
      else mret None
  end.

Definition get_word_probability (context word : string) : M R :=
  if negb (PyStr.startswith word context) then mret 0%R
  else
    self_n ← gets n;
    let curr_context :=
      PyStr.slice_from context (- Z.min (PyStr.len context) (self_n - 1)) in
    r ← get_word_probability_chars (PyStr.slice_from word (PyStr.len context))
          curr_context 0%R;
    match r with
    | None => mret 0%R
    | Some log_prob =>
        let prob := exp log_prob in
        freq ← gets (λ m, default O (word_freq m !! word));
        l ← math_log (IZR (1 + Z.of_nat freq));
        freq_boost ← real_div l 10;
        length_penalty ←
          real_div 1 (1 + (1 / 10) * IZR (PyStr.len word - PyStr.len context));
        mret (prob * (1 + freq_boost) * length_penalty)%R
    end.

(** [sorted(l, key=lambda x: x[1], reverse=True)]: stable, highest score
    first; an element goes in front of the first one that does not beat it. *)
Fixpoint insert_desc (x : string * R) (l : list (string * R)) : list (string * R) :=
  match l with
  | [] => [x]
  | y :: l' => if Rlt_dec (snd x) (snd y) then y :: insert_desc x l' else x :: l
  end.

Definition sorted_desc (l : list (string * R)) : list (string * R) :=
  foldr insert_desc [] l.

(** [l[:k]] *)
Definition list_slice_to {A} (l : list A) (k : Z) : list A :=
  let len := Z.of_nat (length l) in
  take (Z.to_nat (if k <? 0 then Z.max (len + k) 0 else Z.min k len)) l.

(** [[(word, self.get_word_probability(context, word)) for word in ws]] *)
Fixpoint score_all (context : string) (ws : list string) : M (list (string * R)) :=
  match ws with
  | [] => mret []
  | word :: ws' =>
      s ← get_word_probability context word;
      rest ← score_all context ws';
      mret ((word, s) :: rest)
  end.

Definition predict_top_words (context : string) (top_k : Z) : M (list (string * R)) :=
  let context := PyStr.lower context in
  ws ← gets words;
  let candidates := List.filter (λ word, PyStr.startswith word context) ws in
  scored_candidates ← score_all context candidates;
  mret (list_slice_to (sorted_desc scored_candidates) top_k).

(** [_generate_word] *)
Definition _generate_word (prefix : string) : M (option string) :=
  top_words ← predict_top_words (PyStr.lower prefix) 1;
  mret (match top_words with (w, _) :: _ => Some w | [] => None end).

(** [_word_probability] *)
Definition _word_probability (word : string) : M R :=
  get_word_probability "" word.

(** [Counter(ws)] *)
Definition Counter (ws : list string) : gmap string nat :=
  foldl (λ c w, <[w := S (default O (c !! w))]> c) ∅ ws.

(** ** Construction *)

Section Construction.

(** NLTK's [sent_tokenize] and [word_tokenize] are an outside library; the
    constructor is stated over any pair of tokenizers. *)
Variables sent_tokenize word_tokenize : string → list string.

Definition is_marker (w : string) : bool :=
  bool_decide (w = "^") || bool_decide (w = "$").

(** The body of the loop over the sentences. *)
Definition extend_words (n : Z) (words : list string) (sentence : string)
  : list string :=
  let tokens := word_tokenize sentence in
  match tokens with
  | [] => words
  | _ => words ++ (replicate (Z.to_nat n) "^" ++ tokens ++ ["$"])
  end.

(** Lines 14 and 15: the normalised corpus text. *)
Definition normalize (corpus : string) : string :=
  let corpus := PyStr.sub_non_letters (PyStr.lower corpus) in
  PyStr.strip (PyStr.sub_spaces corpus).

(** The list [words] once the loop over the sentences has run. *)
Definition token_list (corpus : string) (n : Z) : list string :=
  foldl (extend_words n) [] (sent_tokenize (normalize corpus)).

(** [list(set(w for w in words if w not in {'^', '$'}))], in the order in
    which the finite set enumerates its elements. *)
Definition vocabulary_of (words : list string) : list string :=
  elements (list_to_set (List.filter (λ w, negb (is_marker w)) words) : gset string).

Definition __init__ (corpus : string) (n : Z) : result Model :=
  let counts0 := replicate (Z.to_nat (n + 1)) (∅ : gmap string (gmap ascii nat)) in
  let contexts0 := replicate (Z.to_nat (n + 1)) (∅ : gmap string nat) in
  let words := token_list corpus n in
  let corpus := PyStr.join " " words in
  let self := mkModel n counts0 contexts0 [] (vocabulary_of words) (Counter words) in
  match (_train corpus;; _calculate_backoff_weights) self with
  | Ok (_, self') => Ok self'
  | Raise e => Raise e
  end.

End Construction.

(** A plain tokenizer for the examples: on normalised text (lower-case
    letters separated by single spaces) one sentence, split at the spaces. *)
Definition simple_sent_tokenize (s : string) : list string :=
  match s with EmptyString => [] | _ => [s] end.

Fixpoint split_spaces (cur : string) (s : string) : list string :=
  match s with
  | EmptyString => match cur with EmptyString => [] | _ => [cur] end
  | String c s' =>
      if Ascii.eqb c " " then
        match cur with EmptyString => split_spaces "" s' | _ => cur :: split_spaces "" s' end
      else split_spaces (cur ++ String c EmptyString) s'
  end.

Definition simple_word_tokenize (s : string) : list string := split_spaces "" s.

(** Construction with the plain tokenizers. *)
Definition build (corpus : string) (n : Z) : result Model :=
  __init__ simple_sent_tokenize simple_word_tokenize corpus n.

(** The value a method returns on a freshly constructed object. *)
Definition run_on {A} (r : result Model) (c : M A) : result A :=
  match r with
  | Ok m => match c m with Ok (a, _) => Ok a | Raise e => Raise e end
  | Raise e => Raise e
  end.

(** ** What the tables must satisfy, and the estimator read off them *)

(** Sum over the next characters of one inner count table. *)
Definition sum_counts (inner : gmap ascii nat) : nat :=
  map_fold (λ _ v acc, (v + acc)%nat) O inner.

(** An inner table written by training: every entry counts at least one
    occurrence, and so does the whole table. *)
Definition inner_ok (inner : gmap ascii nat) : Prop :=
  (1 ≤ sum_counts inner)%nat ∧ ∀ c v, inner !! c = Some v → (1 ≤ v)%nat.

(** One order: every context of the count table holds a trained inner table. *)
Definition order_ok (cnt : gmap string (gmap ascii nat)) : Prop :=
  ∀ ctx inner, cnt !! ctx = Some inner → inner_ok inner.

(** The total table that belongs to a count table. *)
Definition totals_of (cnt : gmap string (gmap ascii nat)) : gmap string nat :=
  sum_counts <$> cnt.

(** The contexts of the table of order [j] have [j - 1] characters. *)
Definition context_lengths_ok (cs : list (gmap string (gmap ascii nat))) : Prop :=
  ∀ (j : nat) cnt ctx,
    cs !! j = Some cnt → is_Some (cnt !! ctx) → String.length ctx = pred j.

(** The tables of a model: one table per order [0 .. n], the totals are the
    sums of the counts, key for key. *)
Definition tables_ok (m : Model) : Prop :=
  length (counts m) = Z.to_nat (n m + 1)
  ∧ contexts m = totals_of <$> counts m
  ∧ Forall order_ok (counts m)
  ∧ context_lengths_ok (counts m).

(** The attributes no table operation writes. *)
Definition same_frame (m m' : Model) : Prop :=
  n m' = n m ∧ words m' = words m ∧ word_freq m' = word_freq m.

(** The inner table the estimator settles on: the first order of [js] whose
    candidate context is a key of the count table. *)
Fixpoint select_orders (m : Model) (js : list Z) (context : string)
  : option (gmap ascii nat) :=
  match js with
  | [] => None
  | j :: js' =>
      match list_index (counts m) j ≫= (λ cnt, cnt !! PyStr.slice_from context (- (j - 1))) with
      | Some inner => Some inner
      | None => select_orders m js' context
      end
  end.

Definition select (m : Model) (context : string) : option (gmap ascii nat) :=
  select_orders m (range_down (Z.min (PyStr.len context + 1) (n m))) context.

(** The additive-smoothing estimate on one inner table. *)
Definition smoothed (inner : gmap ascii nat) (c : ascii) : Q :=
  ((inject_Z (Z.of_nat (default O (inner !! c))) + alpha)
   / (inject_Z (Z.of_nat (sum_counts inner)) + alpha * inject_Z vocab_size))%Q.

Definition char_probability (m : Model) (context : string) (c : ascii) : Q :=
  match select m context with
  | Some inner => smoothed inner c
  | None => (1 / 27)%Q
  end.



(** The queries of the public interface. *)
Inductive query : Type :=
| QChar (context : string) (char : ascii)
| QWord (context word : string)
| QTop (context : string) (top_k : Z).

Definition run_query (q : query) : M unit :=
  match q with
  | QChar context char => get_char_probability context char;; mret tt
  | QWord context word => get_word_probability context word;; mret tt
  | QTop context top_k => predict_top_words context top_k;; mret tt
  end.

(** The rolling contexts and the sum of the logarithms that
    [get_word_probability] accumulates, read off the tables. *)
Fixpoint log_prob_sum (m : Model) (rest : string) (curr_context : string) : R :=
  match rest with
  | EmptyString => 0%R
  | String char rest' =>
      (ln (Q2R (char_probability m curr_context char))
       + log_prob_sum m rest'
           (PyStr.slice_from (curr_context ++ String char EmptyString)
              (- Z.min (PyStr.len curr_context + 1) (n m - 1))))%R
  end.

Definition word_score (m : Model) (context word : string) : R :=
  if PyStr.startswith word context then
    (exp (log_prob_sum m (PyStr.slice_from word (PyStr.len context))
            (PyStr.slice_from context (- Z.min (PyStr.len context) (n m - 1))))
     * (1 + ln (IZR (1 + Z.of_nat (default O (word_freq m !! word)))) / 10)
     * (1 / (1 + (1 / 10) * IZR (PyStr.len word - PyStr.len context))))%R
  else 0%R.

(** Scores from highest to lowest. *)
Definition descending (l : list (string * R)) : Prop :=
  Sorted (λ x y, (snd y <= snd x)%R) l.

(** The invariant of the training loops, relative to the state [m0] they
    start from. *)
Definition train_inv (m0 m : Model) : Prop :=
  tables_ok m ∧ same_frame m0 m ∧ backoff_weights m = backoff_weights m0.

(** The invariant of the loops of [_calculate_backoff_weights]: only the
    weight tables are written, and there is one per order. *)
Definition backoff_inv (m0 m : Model) : Prop :=
  counts m = counts m0 ∧ contexts m = contexts m0 ∧ same_frame m0 m
  ∧ length (backoff_weights m) = Z.to_nat (n m0 + 1).


(** A hand-made object, not the result of construction: order 1 holds the
    empty context in its count table and nothing in its total table. *)
Definition unbalanced_model : Model :=
  mkModel 1 [∅; {[ "" := {[ "a"%char := 1%nat ]} ]}] [∅; ∅] [∅; ∅] [] ∅.

(** ** Training read as a fold over the tables *)

(** [counts[j][ctx][c] += 1] on the list of count tables. *)
Definition incr_count (cs : list (gmap string (gmap ascii nat))) (j : nat)
    (ctx : string) (c : ascii) : list (gmap string (gmap ascii nat)) :=
  match cs !! j with
  | Some cnt =>
      let inner := default ∅ (cnt !! ctx) in
      <[j := <[ctx := <[c := S (default O (inner !! c))]> inner]> cnt]> cs
  | None => cs
  end.

(** What the orders [1 .. n] write at position [i] of the stream. *)
Definition train_position (corpus : string) (self_n : Z)
    (cs : list (gmap string (gmap ascii nat))) (i : Z)
  : list (gmap string (gmap ascii nat)) :=
  foldl (λ cs j,
           if i >=? j - 1 then
             match PyStr.index corpus i with
             | Some next_char =>
                 incr_count cs (Z.to_nat j) (PyStr.slice corpus (i - (j - 1)) i) next_char
             | None => cs
             end
           else cs)
        cs (range 1 (self_n + 1)).

(** What [_train] writes into the count tables. *)
Definition train_counts (corpus : string) (self_n : Z)
    (cs : list (gmap string (gmap ascii nat)))
  : list (gmap string (gmap ascii nat)) :=
  foldl (train_position corpus self_n) cs (range 0 (PyStr.len corpus - self_n + 1)).

(** [counts[j][ctx][c]], 0 when a key is missing; nothing is written. *)
Definition count_at (cs : list (gmap string (gmap ascii nat))) (j : Z)
    (ctx : string) (c : ascii) : nat :=
  match list_index cs j with
  | Some cnt => default O (default ∅ (cnt !! ctx) !! c)
  | None => O
  end.

(** [contexts[j][ctx]], 0 when a key is missing; nothing is written. *)
Definition total_at (ts : list (gmap string nat)) (j : Z) (ctx : string) : nat :=
  match list_index ts j with
  | Some tot => default O (tot !! ctx)
  | None => O
  end.

(** Position [i] of the stream is visited at order [j], preceded by [ctx]. *)
Definition context_at (corpus : string) (j : Z) (ctx : string) (i : Z) : bool :=
  (i >=? j - 1) && bool_decide (PyStr.slice corpus (i - (j - 1)) i = ctx).

(** ... and holds the character [c]. *)
Definition occurs_at (corpus : string) (j : Z) (ctx : string) (c : ascii) (i : Z)
  : bool :=
  context_at corpus j ctx i && bool_decide (PyStr.index corpus i = Some c).

(** The positions [_train] visits: [range(len(corpus) - n + 1)]. *)
Definition positions (corpus : string) (self_n : Z) : list Z :=
  range 0 (PyStr.len corpus - self_n + 1).

(** The character stream the constructor trains on. *)
Definition stream (st wt : string → list string) (corpus : string) (n0 : Z) : string :=
  PyStr.join " " (token_list st wt corpus n0).

(** Number of positions of the stream that [_train] visits at order [j]
    preceded by [ctx]. *)
Definition context_occurrences (corpus : string) (self_n j : Z) (ctx : string) : nat :=
  length (List.filter (context_at corpus j ctx) (positions corpus self_n)).

(** ... and holding the character [c]. *)
Definition ngram_occurrences (corpus : string) (self_n j : Z) (ctx : string)
    (c : ascii) : nat :=
  length (List.filter (occurs_at corpus j ctx c) (positions corpus self_n)).

(** Sum of the counts under one context, read off the count tables. *)
Definition sum_at (cs : list (gmap string (gmap ascii nat))) (j : Z) (ctx : string)
  : nat :=
  match list_index cs j with
  | Some cnt => sum_counts (default ∅ (cnt !! ctx))
  | None => O
  end.

Definition indicator (b : bool) : nat := if b then 1%nat else 0%nat.

(** Position [i] is visited at order [j] and [q] accepts the context and
    the character found there. *)
Definition position_hit (corpus : string) (q : string → ascii → bool) (j i : Z)
  : bool :=
  (i >=? j - 1)
  && match PyStr.index corpus i with
     | Some next_char => q (PyStr.slice corpus (i - (j - 1)) i) next_char
     | None => false
     end.



(** ** The backoff tables read as a fold *)

(** The weight of one context, given the total table of the order below:
    [0.4 if shorter_context in self.contexts[j - 1] else 0.1]. *)
Definition backoff_weight (prev : gmap string nat) (context : string) : Q :=
  if bool_decide (is_Some (prev !! PyStr.slice_from context 1))
  then (4 # 10)%Q else (1 # 10)%Q.

(** [backoff_weights[j][ctx] = w] on the list of weight tables. *)
Definition set_weight (bs : list (gmap string Q)) (j : nat) (ctx : string) (w : Q)
  : list (gmap string Q) :=
  match bs !! j with
  | Some tbl => <[j := <[ctx := w]> tbl]> bs
  | None => bs
  end.

(** What the inner loop of [_calculate_backoff_weights] writes at order [j]. *)
Definition backoff_order (ts : list (gmap string nat)) (bs : list (gmap string Q))
    (j : Z) : list (gmap string Q) :=
  match list_index ts j, list_index ts (j - 1) with
  | Some tbl, Some prev =>
      foldl (λ bs ctx, set_weight bs (Z.to_nat j) ctx (backoff_weight prev ctx))
            bs (fst <$> map_to_list tbl)
  | _, _ => bs
  end.

(** What [_calculate_backoff_weights] leaves in [self.backoff_weights]. *)
Definition backoff_tables (ts : list (gmap string nat)) (self_n : Z)
  : list (gmap string Q) :=
  foldl (backoff_order ts) (replicate (Z.to_nat (self_n + 1)) ∅) (range 2 (self_n + 1)).

(** [backoff_weights[j].get(ctx)], nothing written. *)
Definition weight_at (bs : list (gmap string Q)) (j : Z) (ctx : string) : option Q :=
  match list_index bs j with
  | Some tbl => tbl !! ctx
  | None => None
  end.







(** ** Normalised text *)

(** [[a-z]] *)
Definition is_lower_letter (c : ascii) : bool :=
  ((97 <=? PyStr.code c) && (PyStr.code c <=? 122))%N.

(** Lower-case words separated by single spaces; [need_letter] tells that
    the text may neither end nor go on with a space here. *)
Fixpoint words_ok (need_letter : bool) (s : string) : bool :=
  match s with
  | EmptyString => negb need_letter
  | String c s' =>
      if is_lower_letter c then words_ok false s'
      else Ascii.eqb c " " && negb need_letter && words_ok true s'
  end.

(** The empty text, or lower-case words separated by single spaces, with
    no space in front or at the end. *)
Definition normal_text (s : string) : bool :=
  match s with
  | EmptyString => true
  | _ => words_ok true s
  end.

(** As [words_ok], but the text may end with a space. *)
Fixpoint spaced (need_letter : bool) (s : string) : bool :=
  match s with
  | EmptyString => true
  | String c s' =>
      if is_lower_letter c then spaced false s'
      else Ascii.eqb c " " && negb need_letter && spaced true s'
  end.

(** Number of times the word [w] stands in the token list [ws]. *)
Definition occurrences (w : string) (ws : list string) : nat :=
  length (List.filter (λ x, bool_decide (x = w)) ws).



(** The vocabulary words that start with the lower-cased prefix, in
    vocabulary order: the list [candidates] of [predict_top_words]. *)
Definition candidates (m : Model) (context : string) : list string :=
  List.filter (λ word, PyStr.startswith word (PyStr.lower context)) (words m).

(** [true] when the score of the pair is [v]. *)
Definition has_score (v : R) (x : string * R) : bool :=
  if Req_dec_T (snd x) v then true else false.



(** ** The terminal front end ([user_interface.py]) *)

(** Text operations the front end uses beyond those of the model. *)
Module PyText.

(** [c.isalpha()] on a code point below 256. *)
Definition is_alpha (c : ascii) : bool :=
  let k := PyStr.code c in
  ((65 <=? k) && (k <=? 90) || (97 <=? k) && (k <=? 122)
   || (k =? 170) || (k =? 181) || (k =? 186)
   || (192 <=? k) && (k <=? 214) || (216 <=? k) && (k <=? 246)
   || (248 <=? k) && (k <=? 255))%N.

(** [sum(1 for c in s if c.isalpha())] *)
Fixpoint count_alpha (s : string) : Z :=
  match s with
  | EmptyString => 0
  | String c s' => (if is_alpha c then 1 else 0) + count_alpha s'
  end.

(** [s.split()]: the maximal runs without white space; [cur] is the run
    being read. *)
Fixpoint split_from (cur : string) (s : string) : list string :=
  match s with
  | EmptyString => match cur with EmptyString => [] | _ => [cur] end
  | String c s' =>
      if PyStr.is_space c then
        match cur with
        | EmptyString => split_from EmptyString s'
        | _ => cur :: split_from EmptyString s'
        end
      else split_from (cur ++ String c EmptyString) s'
  end.

Definition split (s : string) : list string := split_from EmptyString s.

(** [s[:k]] *)
Definition slice_to (s : string) (k : Z) : string := PyStr.slice s 0 k.

Fixpoint no_space (s : string) : bool :=
  match s with
  | EmptyString => true
  | String c s' => negb (PyStr.is_space c) && no_space s'
  end.

(** The longest suffix without white space. *)
Fixpoint trailing_run (s : string) : string :=
  match s with
  | EmptyString => EmptyString
  | String c s' => if no_space s then s else trailing_run s'
  end.

(** The text without its last character when that is a line feed. *)
Fixpoint chop_newline (s : string) : string :=
  match s with
  | EmptyString => EmptyString
  | String c EmptyString => if Ascii.eqb c "010" then EmptyString else s
  | String c s' => String c (chop_newline s')
  end.

(** [re.search(r"[^\s]*$", t).group(0)]: the search always succeeds; the
    leftmost match is the run without white space that ends where [$]
    holds, at the end of [t] or just before a line feed that ends [t]. *)
Definition trailing_word (t : string) : string := trailing_run (chop_newline t).

(** [s.endswith(c)] for one character [c]. *)
Fixpoint ends_with (c : ascii) (s : string) : bool :=
  match s with
  | EmptyString => false
  | String x EmptyString => Ascii.eqb x c
  | String _ s' => ends_with c s'
  end.

End PyText.

(** The attributes of [TerminalUI] that the editing logic reads and
    writes; the curses windows and what is drawn on them are left out. *)
Record TerminalUI : Type := mkUI {
  suggestions : list string;
  current_suggestion_idx : Z;
  user_input : string;
  cursor_pos : Z;
  prediction_model : Model;
  current_word_keystrokes : Z;
  word_stats : list (Z * Z);
  tabKeyCount : Z
}.

Definition set_suggestions (v : list string) (u : TerminalUI) : TerminalUI :=
  mkUI v (current_suggestion_idx u) (user_input u) (cursor_pos u)
       (prediction_model u) (current_word_keystrokes u) (word_stats u) (tabKeyCount u).
Definition set_current_suggestion_idx (v : Z) (u : TerminalUI) : TerminalUI :=
  mkUI (suggestions u) v (user_input u) (cursor_pos u)
       (prediction_model u) (current_word_keystrokes u) (word_stats u) (tabKeyCount u).
Definition set_user_input (v : string) (u : TerminalUI) : TerminalUI :=
  mkUI (suggestions u) (current_suggestion_idx u) v (cursor_pos u)
       (prediction_model u) (current_word_keystrokes u) (word_stats u) (tabKeyCount u).
Definition set_cursor_pos (v : Z) (u : TerminalUI) : TerminalUI :=
  mkUI (suggestions u) (current_suggestion_idx u) (user_input u) v
       (prediction_model u) (current_word_keystrokes u) (word_stats u) (tabKeyCount u).
Definition set_prediction_model (v : Model) (u : TerminalUI) : TerminalUI :=
  mkUI (suggestions u) (current_suggestion_idx u) (user_input u) (cursor_pos u)
       v (current_word_keystrokes u) (word_stats u) (tabKeyCount u).
Definition set_current_word_keystrokes (v : Z) (u : TerminalUI) : TerminalUI :=
  mkUI (suggestions u) (current_suggestion_idx u) (user_input u) (cursor_pos u)
       (prediction_model u) v (word_stats u) (tabKeyCount u).
Definition set_word_stats (v : list (Z * Z)) (u : TerminalUI) : TerminalUI :=
  mkUI (suggestions u) (current_suggestion_idx u) (user_input u) (cursor_pos u)
       (prediction_model u) (current_word_keystrokes u) v (tabKeyCount u).
Definition set_tabKeyCount (v : Z) (u : TerminalUI) : TerminalUI :=
  mkUI (suggestions u) (current_suggestion_idx u) (user_input u) (cursor_pos u)
       (prediction_model u) (current_word_keystrokes u) (word_stats u) v.

(** [TerminalUI.__init__], for the attributes kept. *)
Definition new_ui (model : Model) : TerminalUI :=
  mkUI [] 0 "" 0 model 0 [] 0.

(** The methods of the front end: state and exceptions as for the model. *)
Definition U (A : Type) : Type := TerminalUI → result (A * TerminalUI).

Definition ui_ret {A} (a : A) : U A := λ u, Ok (a, u).
Definition ui_bind {A B} (k : A → U B) (c : U A) : U B :=
  λ u, match c u with
       | Ok (a, u') => k a u'
       | Raise e => Raise e
       end.

#[global] Instance U_ret : MRet U := @ui_ret.
#[global] Instance U_bind : MBind U := @ui_bind.

Definition ui_gets {A} (f : TerminalUI → A) : U A := λ u, Ok (f u, u).
Definition ui_modify (f : TerminalUI → TerminalUI) : U unit := λ u, Ok (tt, f u).
Definition ui_of_option {A} (e : PyExc) (o : option A) : U A :=
  λ u, match o with Some a => Ok (a, u) | None => Raise e end.

(** A call of a method of [self.prediction_model]. *)
Definition call_model {A} (c : M A) : U A :=
  λ u, match c (prediction_model u) with
       | Ok (a, m') => Ok (a, set_prediction_model m' u)
       | Raise e => Raise e
       end.

(** [find_last_word_start] *)
Definition find_last_word_start (text : string) (cursor_pos : Z) : Z :=
  if cursor_pos =? 0 then 0
  else
    let text_before_cursor := PyText.slice_to text cursor_pos in
    cursor_pos - PyStr.len (PyText.trailing_word text_before_cursor).

(** [get_current_word] *)
Definition get_current_word : U string :=
  text ← ui_gets user_input;
  pos ← ui_gets cursor_pos;
  let word_start := find_last_word_start text pos in
  mret (PyStr.slice text word_start pos).

(** [replace_current_word] *)
Definition replace_current_word (new_word : string) : U unit :=
  text ← ui_gets user_input;
  pos ← ui_gets cursor_pos;
  let word_start := find_last_word_start text pos in
  ui_modify (set_user_input
    (PyText.slice_to text word_start ++ new_word ++ PyStr.slice_from text pos));;
  ui_modify (set_cursor_pos (word_start + PyStr.len new_word)).

(** [finalize_current_word_stats] *)
Definition finalize_current_word_stats : U unit :=
  text ← ui_gets user_input;
  let words := PyText.split (PyStr.strip text) in
  match words with
  | [] => ui_modify (set_current_word_keystrokes 0)
  | w0 :: ws =>
      let last_word := List.last ws w0 in
      let l_i := PyText.count_alpha last_word in
      k_i ← ui_gets current_word_keystrokes;
      (if l_i >? 0
       then ui_modify (λ u, set_word_stats (word_stats u ++ [(k_i, l_i)]) u)
       else mret tt);;
      ui_modify (set_current_word_keystrokes 0)
  end.

(** [update_suggestions] *)
Definition update_suggestions (context : string) : U unit :=
  top_results ← call_model (predict_top_words context 10);
  ui_modify (set_suggestions (fst <$> top_results));;
  ui_modify (set_current_suggestion_idx 0).


Section Keys.

(** The key codes of the curses library that [handle_input] compares
    with; the library is not part of the repository. *)
Variables KEY_RESIZE KEY_BACKSPACE KEY_LEFT KEY_RIGHT : Z.

(** [handle_input]: [false] ends the session. *)
Definition handle_input (key : Z) : U bool :=
  if key =? KEY_RESIZE then mret true
  else if key =? 27 then mret false
  else if key =? 9 then
    ui_modify (λ u, set_tabKeyCount (tabKeyCount u + 1) u);;
    sugg ← ui_gets suggestions;
    (match sugg with
     | [] => mret tt
     | _ => ui_modify (λ u, set_current_suggestion_idx
                              ((current_suggestion_idx u + 1)
                               `mod` Z.of_nat (length sugg)) u)
     end);;
    mret true
  else if key =? 10 then
    sugg ← ui_gets suggestions;
    idx ← ui_gets current_suggestion_idx;
    (match sugg with
     | [] => mret tt
     | _ =>
         if idx <? Z.of_nat (length sugg) then
           w ← ui_of_option IndexError (list_index sugg idx);
           replace_current_word w
         else mret tt
     end);;
    finalize_current_word_stats;;
    ui_modify (set_suggestions []);;
    ui_modify (set_current_suggestion_idx 0);;
    mret true
  else if (key =? KEY_BACKSPACE) || (key =? 127) || (key =? 8) then
    pos ← ui_gets cursor_pos;
    (if pos >? 0 then
       text ← ui_gets user_input;
       char_deleted ← ui_of_option IndexError (PyStr.index text (pos - 1));
       ui_modify (set_user_input
         (PyText.slice_to text (pos - 1) ++ PyStr.slice_from text pos));;
       ui_modify (set_cursor_pos (pos - 1));;
       k ← ui_gets current_word_keystrokes;
       (if PyText.is_alpha char_deleted && (k >? 0)
        then ui_modify (set_current_word_keystrokes (k - 1))
        else mret tt);;
       current_word ← get_current_word;
       update_suggestions current_word
     else mret tt);;
    mret true
  else if key =? KEY_LEFT then
    pos ← ui_gets cursor_pos;
    (if pos >? 0 then
       ui_modify (set_cursor_pos (pos - 1));;
       current_word ← get_current_word;
       update_suggestions current_word
     else mret tt);;
    mret true
  else if key =? KEY_RIGHT then
    pos ← ui_gets cursor_pos;
    text ← ui_gets user_input;
    (if pos <? PyStr.len text then
       ui_modify (set_cursor_pos (pos + 1));;
       current_word ← get_current_word;
       update_suggestions current_word
     else mret tt);;
    mret true
  else if (32 <=? key) && (key <=? 126) then
    let char := ascii_of_N (Z.to_N key) in
    text ← ui_gets user_input;
    pos ← ui_gets cursor_pos;
    ui_modify (set_user_input
      (PyText.slice_to text pos ++ String char EmptyString ++ PyStr.slice_from text pos));;
    ui_modify (set_cursor_pos (pos + 1));;
    (if PyText.is_alpha char
     then ui_modify (λ u, set_current_word_keystrokes (current_word_keystrokes u + 1) u)
     else mret tt);;
    (if Ascii.eqb char " " then finalize_current_word_stats else mret tt);;
    current_word ← get_current_word;
    update_suggestions current_word;;
    mret true
  else mret true.

(** The keys of a session, one after the other, until one ends it. *)
Fixpoint handle_inputs (keys : list Z) : U bool :=
  match keys with
  | [] => mret true
  | key :: keys' =>
      running ← handle_input key;
      if running : bool then handle_inputs keys' else mret false
  end.

End Keys.

(** A state the editing logic keeps: the cursor inside the text, the
    selected suggestion inside the list, no negative counter, and a model
    with well-formed tables. *)
Definition ui_ok (u : TerminalUI) : Prop :=
  0 ≤ cursor_pos u ≤ PyStr.len (user_input u)
  ∧ 0 ≤ current_suggestion_idx u
  ∧ (suggestions u ≠ [] → current_suggestion_idx u < Z.of_nat (length (suggestions u)))
  ∧ 0 ≤ current_word_keystrokes u
  ∧ 0 ≤ tabKeyCount u
  ∧ Forall (λ kl, 0 ≤ fst kl ∧ 1 ≤ snd kl) (word_stats u)
  ∧ tables_ok (prediction_model u).

(** The value [get_current_word] returns in the state [u]. *)
Definition current_word (u : TerminalUI) : string :=
  PyStr.slice (user_input u)
    (find_last_word_start (user_input u) (cursor_pos u)) (cursor_pos u).

(** The words [update_suggestions] stores for a context: the first
    components of the ten best scored candidates. *)
Definition suggest (m : Model) (context : string) : list string :=
  fst <$> list_slice_to
            (sorted_desc ((λ w, (w, word_score m (PyStr.lower context) w))
                            <$> candidates m context)) 10.

(** The pairs [finalize_current_word_stats] appends for a text and a
    number of typed letters: none or one. *)
Definition new_stats (text : string) (k : Z) : list (Z * Z) :=
  match PyText.split (PyStr.strip text) with
  | [] => []
  | w0 :: ws =>
      let l := PyText.count_alpha (List.last ws w0) in
      if l >? 0 then [(k, l)] else []
  end.

(** The suggestions shown are none, or those of the word under the cursor. *)
Definition suggestions_ok (u : TerminalUI) : Prop :=
  suggestions u = [] ∨ suggestions u = suggest (prediction_model u) (current_word u).

(** Number of Tab keys among the keys read before the first ESC. *)
Fixpoint tabs_pressed (keys : list Z) : Z :=
  match keys with
  | [] => 0
  | key :: keys' =>
      if key =? 27 then 0
      else (if key =? 9 then 1 else 0) + tabs_pressed keys'
  end.

(** A state in the middle of a word, for examples: the cursor is after
    [qui], and two suggestions are shown. *)
Definition example_ui : TerminalUI :=
  mkUI ["quick"; "quiet"] 1 "the qui fox" 7
       (mkModel 3 [∅; ∅; ∅; ∅] [∅; ∅; ∅; ∅] [∅; ∅; ∅; ∅] ["quick"; "quiet"] ∅)
       3 [(3, 3)] 0.


(** Unfolds the operations of the monad of the front end. *)
Ltac ui_unfold :=
  unfold mbind, U_bind, ui_bind, mret, U_ret, ui_ret, ui_gets, ui_modify,
    ui_of_option; cbn beta iota.

(** ** The estimator with its floating-point operations rounded *)

Section Floats.

(** [fl x] is the float that stands for the exact value [x]: the result
    of one operation on floats, a float literal, or an integer converted
    to a float. *)
Variable fl : R → R.







End Floats.




(** Unfolds the operations of the monad. *)
Ltac unfold_monad :=
  unfold mbind, M_bind, bind, mret, M_ret, ret, gets, modify, of_option, raise.

(** ** The monad: how a computation runs *)

Lemma bind_run {A B} (c : M A) (k : A → M B) (m : Model) :
  (c ≫= k) m = match c m with Ok (a, m') => k a m' | Raise e => Raise e end.
Proof. reflexivity. Qed.

Lemma bind_ok {A B} (c : M A) (k : A → M B) (m m' : Model) (a : A) :
  c m = Ok (a, m') → (c ≫= k) m = k a m'.
Proof. intros H. rewrite bind_run, H. reflexivity. Qed.

Lemma for_nil {A} (body : A → M unit) (m : Model) : for_ [] body m = Ok (tt, m).
Proof. reflexivity. Qed.

Lemma for_cons {A} (x : A) xs (body : A → M unit) (m : Model) :
  for_ (x :: xs) body m
  = match body x m with Ok (_, m') => for_ xs body m' | Raise e => Raise e end.
Proof. reflexivity. Qed.

(** A loop whose body keeps an invariant and never raises, keeps it and
    never raises. *)
Lemma for_invariant {A} (I : Model → Prop) (xs : list A) (body : A → M unit) :
  (∀ x m, x ∈ xs → I m → ∃ m', body x m = Ok (tt, m') ∧ I m') →
  ∀ m, I m → ∃ m', for_ xs body m = Ok (tt, m') ∧ I m'.
Proof.
  induction xs as [|x xs IH]; intros Hbody m Hm.
  - exists m. split; [reflexivity | exact Hm].
  - destruct (Hbody x m) as (m1 & E1 & H1); [left | exact Hm |].
    destruct (IH (λ y m0 Hy, Hbody y m0 (list_elem_of_further _ _ _ Hy)) m1 H1)
      as (m2 & E2 & H2).
    exists m2. split; [| exact H2].
    rewrite for_cons, E1. exact E2.
Qed.

(** A loop whose body does nothing does nothing. *)
Lemma for_skip {A} (xs : list A) (body : A → M unit) (m : Model) :
  (∀ x, x ∈ xs → body x m = Ok (tt, m)) → for_ xs body m = Ok (tt, m).
Proof.
  induction xs as [|x xs IH]; intros Hbody; [reflexivity |].
  rewrite for_cons, Hbody by left.
  apply IH. intros y Hy. apply Hbody. by right.
Qed.

(** ** Sums of inner tables *)

Lemma sum_counts_empty : sum_counts ∅ = O.
Proof. apply map_fold_empty. Qed.

Lemma sum_counts_insert_fresh (inner : gmap ascii nat) c v :
  inner !! c = None → sum_counts (<[c := v]> inner) = (v + sum_counts inner)%nat.
Proof.
  intros Hc. unfold sum_counts.
  apply (map_fold_insert_L (λ _ v acc, (v + acc)%nat)); [| exact Hc].
  intros; lia.
Qed.

Lemma sum_counts_lookup (inner : gmap ascii nat) c v :
  inner !! c = Some v → sum_counts inner = (v + sum_counts (delete c inner))%nat.
Proof.
  intros Hc.
  rewrite <- (insert_id inner c v Hc) at 1.
  rewrite <- insert_delete_eq.
  apply sum_counts_insert_fresh, lookup_delete_eq.
Qed.

Lemma sum_counts_overwrite (inner : gmap ascii nat) c v :
  sum_counts (<[c := v]> inner) = (v + sum_counts (delete c inner))%nat.
Proof.
  rewrite <- insert_delete_eq.
  apply sum_counts_insert_fresh, lookup_delete_eq.
Qed.

(** [inner[c] += 1] adds one to the sum. *)
Lemma sum_counts_incr (inner : gmap ascii nat) c :
  sum_counts (<[c := S (default O (inner !! c))]> inner) = S (sum_counts inner).
Proof.
  rewrite sum_counts_overwrite.
  destruct (inner !! c) as [v|] eqn:Hc; simpl.
  - rewrite (sum_counts_lookup inner c v Hc). lia.
  - rewrite delete_id by exact Hc. lia.
Qed.

(** No entry exceeds the sum. *)
Lemma sum_counts_ge (inner : gmap ascii nat) c :
  (default O (inner !! c) ≤ sum_counts inner)%nat.
Proof.
  destruct (inner !! c) as [v|] eqn:Hc; simpl; [| lia].
  rewrite (sum_counts_lookup inner c v Hc). lia.
Qed.

Lemma inner_ok_incr (inner : gmap ascii nat) c :
  (∀ c' v, inner !! c' = Some v → (1 ≤ v)%nat) →
  inner_ok (<[c := S (default O (inner !! c))]> inner).
Proof.
  intros Hpos. split.
  - rewrite sum_counts_incr. lia.
  - intros c' v. rewrite lookup_insert. case_decide.
    + intros [= <-]. lia.
    + apply Hpos.
Qed.

(** ** The table operations on a model *)

Lemma list_index_nonneg {A} (l : list A) (j : Z) :
  0 ≤ j → list_index l j = l !! Z.to_nat j.
Proof.
  intros Hj. unfold list_index.
  destruct (j <? 0) eqn:E; [apply Z.ltb_lt in E; lia |].
  rewrite E. reflexivity.
Qed.

Lemma list_pos_nonneg {A} (l : list A) (j : Z) : 0 ≤ j → list_pos l j = Z.to_nat j.
Proof.
  intros Hj. unfold list_pos.
  destruct (j <? 0) eqn:E; [apply Z.ltb_lt in E; lia | reflexivity].
Qed.

Lemma counts_at_run m j cnt :
  0 ≤ j → counts m !! Z.to_nat j = Some cnt → counts_at j m = Ok (cnt, m).
Proof.
  intros Hj Hc. unfold counts_at. unfold_monad.
  rewrite list_index_nonneg, Hc by exact Hj. reflexivity.
Qed.

Lemma contexts_at_run m j tot :
  0 ≤ j → contexts m !! Z.to_nat j = Some tot → contexts_at j m = Ok (tot, m).
Proof.
  intros Hj Hc. unfold contexts_at. unfold_monad.
  rewrite list_index_nonneg, Hc by exact Hj. reflexivity.
Qed.

(** [self.counts[j][ctx][c] += 1] as one write. *)
Lemma counts_incr_run m j cnt ctx c :
  0 ≤ j → counts m !! Z.to_nat j = Some cnt →
  counts_incr j ctx c m
  = Ok (tt, set_counts
              (<[Z.to_nat j :=
                   <[ctx := <[c := S (default O (default ∅ (cnt !! ctx) !! c))]>
                              (default ∅ (cnt !! ctx))]> cnt]> (counts m)) m).
Proof.
  intros Hj Hc.
  assert (Hlt : (Z.to_nat j < length (counts m))%nat) by (eapply lookup_lt_Some; eauto).
  unfold counts_incr, counts_getitem.
  rewrite !bind_run, (counts_at_run m j cnt Hj Hc).
  destruct (cnt !! ctx) as [inner|] eqn:Hctx; simpl.
  - rewrite bind_run, (counts_at_run m j cnt Hj Hc).
    unfold_monad. rewrite list_pos_nonneg by exact Hj. reflexivity.
  - rewrite bind_run. unfold modify at 1. simpl.
    rewrite list_pos_nonneg by exact Hj.
    erewrite counts_at_run; [| exact Hj | simpl; apply list_lookup_insert_eq; exact Hlt].
    simpl. rewrite !list_pos_nonneg by exact Hj.
    rewrite list_insert_insert_eq, insert_insert_eq. reflexivity.
Qed.

(** [self.contexts[j][ctx] += 1] as one write. *)
Lemma contexts_incr_run m j tot ctx :
  0 ≤ j → contexts m !! Z.to_nat j = Some tot →
  contexts_incr j ctx m
  = Ok (tt, set_contexts
              (<[Z.to_nat j := <[ctx := S (default O (tot !! ctx))]> tot]> (contexts m)) m).
Proof.
  intros Hj Hc.
  assert (Hlt : (Z.to_nat j < length (contexts m))%nat) by (eapply lookup_lt_Some; eauto).
  unfold contexts_incr, contexts_getitem.
  rewrite !bind_run, (contexts_at_run m j tot Hj Hc).
  destruct (tot !! ctx) as [t|] eqn:Hctx; simpl.
  - rewrite bind_run, (contexts_at_run m j tot Hj Hc).
    unfold_monad. rewrite list_pos_nonneg by exact Hj. reflexivity.
  - rewrite bind_run. unfold modify at 1. simpl.
    rewrite list_pos_nonneg by exact Hj.
    erewrite contexts_at_run; [| exact Hj | simpl; apply list_lookup_insert_eq; exact Hlt].
    simpl. rewrite !list_pos_nonneg by exact Hj.
    rewrite list_insert_insert_eq, insert_insert_eq. reflexivity.
Qed.

Lemma tables_ok_lookup m j :
  tables_ok m → 0 ≤ j ≤ n m →
  ∃ cnt, counts m !! Z.to_nat j = Some cnt
         ∧ contexts m !! Z.to_nat j = Some (totals_of cnt)
         ∧ order_ok cnt.
Proof.
  intros (Hlen & Htot & Hok & _) Hj.
  destruct (lookup_lt_is_Some_2 (counts m) (Z.to_nat j)) as [cnt Hcnt]; [lia |].
  exists cnt. split; [exact Hcnt |]. split.
  - rewrite Htot, list_lookup_fmap, Hcnt. reflexivity.
  - eapply Forall_lookup_1; eauto.
Qed.

Lemma totals_of_lookup cnt ctx : totals_of cnt !! ctx = sum_counts <$> cnt !! ctx.
Proof. unfold totals_of. apply lookup_fmap. Qed.

(** The two increments of one training step keep the tables well formed. *)
Lemma train_update_ok m j ctx c :
  tables_ok m → 1 ≤ j ≤ n m → String.length ctx = Z.to_nat (j - 1) →
  ∃ m', (counts_incr j ctx c;; contexts_incr j ctx) m = Ok (tt, m')
        ∧ tables_ok m' ∧ same_frame m m'
        ∧ backoff_weights m' = backoff_weights m.
Proof.
  intros Hm Hj Hctx.
  destruct (tables_ok_lookup m j Hm) as (cnt & Hcnt & Htot & Hord); [lia |].
  eexists. split.
  { rewrite bind_run, (counts_incr_run m j cnt) by (lia || exact Hcnt).
    rewrite (contexts_incr_run _ j (totals_of cnt)) by (lia || exact Htot).
    reflexivity. }
  destruct Hm as (Hlen & Hfm & Hall & Hkeys).
  split; [| split; [repeat split |]; reflexivity].
  split; [| split; [| split]]; simpl.
  - rewrite length_insert. exact Hlen.
  - rewrite Hfm, list_fmap_insert. f_equal.
    unfold totals_of at 3. rewrite fmap_insert. fold (totals_of cnt). f_equal.
    rewrite totals_of_lookup, sum_counts_incr.
    destruct (cnt !! ctx) as [inner|]; simpl; [reflexivity |].
    rewrite sum_counts_empty. reflexivity.
  - apply Forall_insert; [exact Hall |].
    intros ctx' inner'. rewrite lookup_insert. case_decide.
    + intros [= <-]. apply inner_ok_incr.
      destruct (cnt !! ctx) as [inner|] eqn:E; simpl.
      * intros c' v. apply (Hord ctx inner E).
      * intros c' v. rewrite lookup_empty. discriminate.
    + apply Hord.
  - intros k cnt' ctx' Hk Hin.
    destruct (decide (k = Z.to_nat j)) as [->|Hne].
    + rewrite list_lookup_insert_eq in Hk by (eapply lookup_lt_Some; eauto).
      injection Hk as <-. rewrite lookup_insert in Hin. case_decide.
      * subst ctx'. rewrite Hctx. lia.
      * exact (Hkeys _ _ _ Hcnt Hin).
    + rewrite list_lookup_insert_ne in Hk by congruence.
      exact (Hkeys _ _ _ Hk Hin).
Qed.

(** ** Training *)

Lemma string_get_lt (s : string) (k : nat) :
  (k < String.length s)%nat → is_Some (String.get k s).
Proof.
  revert k. induction s as [|c s IH]; intros k Hk; simpl in *; [lia |].
  destruct k as [|k]; [eexists; reflexivity |]. apply IH. lia.
Qed.

Lemma index_in_range (s : string) (i : Z) :
  0 ≤ i < PyStr.len s → is_Some (PyStr.index s i).
Proof.
  intros Hi. unfold PyStr.index, PyStr.len in *.
  destruct (i <? 0) eqn:E; [apply Z.ltb_lt in E; lia |].
  rewrite E. apply string_get_lt. lia.
Qed.

Lemma take_length (k : nat) (s : string) :
  String.length (PyStr.take k s) = Nat.min k (String.length s).
Proof.
  revert s. induction k as [|k IH]; intros [|c s]; simpl; try reflexivity.
  rewrite IH. reflexivity.
Qed.

Lemma drop_length (k : nat) (s : string) :
  String.length (PyStr.drop k s) = (String.length s - k)%nat.
Proof.
  revert s. induction k as [|k IH]; intros [|c s]; simpl; try reflexivity.
  apply IH.
Qed.

(** [s[lo:hi]] within the string has [hi - lo] characters. *)
Lemma slice_length (s : string) (lo hi : Z) :
  0 ≤ lo ≤ hi → hi ≤ PyStr.len s →
  String.length (PyStr.slice s lo hi) = Z.to_nat (hi - lo).
Proof.
  intros Hlo Hhi. unfold PyStr.slice, PyStr.clamp, PyStr.len in *.
  destruct (lo <? 0) eqn:E1; [apply Z.ltb_lt in E1; lia |].
  destruct (hi <? 0) eqn:E2; [apply Z.ltb_lt in E2; lia |].
  rewrite take_length, drop_length. lia.
Qed.

Lemma elem_of_range (a b x : Z) : x ∈ range a b ↔ a ≤ x < b.
Proof. unfold range. rewrite elem_of_seqZ. lia. Qed.

Lemma train_inv_refl m : tables_ok m → train_inv m m.
Proof. intros H. split; [exact H |]. repeat split. Qed.

Lemma train_inv_step m0 m j ctx c :
  train_inv m0 m → 1 ≤ j ≤ n m → String.length ctx = Z.to_nat (j - 1) →
  ∃ m', (counts_incr j ctx c;; contexts_incr j ctx) m = Ok (tt, m') ∧ train_inv m0 m'.
Proof.
  intros (Hok & (Hn & Hw & Hf) & Hb) Hj Hctx.
  destruct (train_update_ok m j ctx c Hok Hj Hctx) as (m' & E & Hok' & (Hn' & Hw' & Hf') & Hb').
  exists m'. split; [exact E |].
  split; [exact Hok' |]. split; [repeat split |]; congruence.
Qed.

(** [_train] never raises, keeps the tables well formed and writes the
    count and total tables only. *)
Lemma train_ok (corpus : string) (m : Model) :
  tables_ok m → ∃ m', _train corpus m = Ok (tt, m') ∧ train_inv m m'.
Proof.
  intros Hm. unfold _train. rewrite bind_run. simpl.
  apply (for_invariant (train_inv m)); [| apply train_inv_refl, Hm].
  intros i m1 Hi H1. rewrite bind_run. simpl.
  apply elem_of_range in Hi.
  assert (Hn1 : n m1 = n m) by apply H1.
  apply (for_invariant (train_inv m)); [| exact H1].
  intros j m2 Hjr H2.
  apply elem_of_range in Hjr.
  assert (Hn2 : n m2 = n m) by apply H2.
  destruct (i >=? j - 1) eqn:Eij; [| exists m2; split; [reflexivity | exact H2]].
  destruct (index_in_range corpus i) as [ch Hch]; [lia |].
  rewrite bind_run, Hch. simpl.
  apply Z.geb_le in Eij.
  apply train_inv_step; [exact H2 | lia |].
  rewrite slice_length by lia. f_equal. lia.
Qed.

(** ** Backoff weights *)

Lemma tables_ok_contexts_length m :
  tables_ok m → length (contexts m) = Z.to_nat (n m + 1).
Proof. intros (Hlen & Htot & _). rewrite Htot, length_fmap. exact Hlen. Qed.

Lemma backoff_setitem_ok m0 m j ctx w :
  backoff_inv m0 m → 0 ≤ j ≤ n m0 →
  ∃ m', backoff_setitem j ctx w m = Ok (tt, m') ∧ backoff_inv m0 m'.
Proof.
  intros (Hc & Ht & Hf & Hlen) Hj.
  destruct (lookup_lt_is_Some_2 (backoff_weights m) (Z.to_nat j)) as [tbl Htbl]; [lia |].
  unfold backoff_setitem. rewrite !bind_run. simpl.
  rewrite list_index_nonneg, Htbl by lia. simpl.
  eexists. split; [reflexivity |].
  split; [exact Hc |]. split; [exact Ht |]. split; [exact Hf |].
  simpl. rewrite length_insert. exact Hlen.
Qed.

Lemma backoff_ok (m : Model) :
  tables_ok m → ∃ m', _calculate_backoff_weights m = Ok (tt, m') ∧ backoff_inv m m'.
Proof.
  intros Hm. pose proof (tables_ok_contexts_length m Hm) as Hlen.
  unfold _calculate_backoff_weights. rewrite !bind_run. simpl.
  apply (for_invariant (backoff_inv m)).
  2:{ split; [reflexivity |]. split; [reflexivity |]. split; [repeat split |].
      simpl. apply length_replicate. }
  intros j m1 Hjr H1. apply elem_of_range in Hjr. simpl in Hjr.
  pose proof H1 as (Hc1 & Ht1 & Hf1 & Hl1).
  destruct (lookup_lt_is_Some_2 (contexts m) (Z.to_nat j)) as [tot Htot]; [lia |].
  rewrite bind_run, (contexts_at_run m1 j tot) by (lia || congruence).
  apply (for_invariant (backoff_inv m)); [| exact H1].
  intros ctx m2 _ H2.
  destruct (lookup_lt_is_Some_2 (contexts m) (Z.to_nat (j - 1))) as [prev Hprev]; [lia |].
  unfold contexts_contains. rewrite !bind_run.
  rewrite (contexts_at_run m2 (j - 1) prev); [| lia |].
  2:{ destruct H2 as (_ & -> & _). exact Hprev. }
  simpl. apply backoff_setitem_ok; [exact H2 | lia].
Qed.

(** ** Construction *)

Lemma initial_tables_ok (n0 : Z) ws wf :
  tables_ok (mkModel n0 (replicate (Z.to_nat (n0 + 1)) ∅)
                     (replicate (Z.to_nat (n0 + 1)) ∅) [] ws wf).
Proof.
  split; [| split; [| split]]; simpl.
  - apply length_replicate.
  - rewrite fmap_replicate. unfold totals_of. rewrite fmap_empty. reflexivity.
  - apply Forall_replicate. intros ctx inner. rewrite lookup_empty. discriminate.
  - intros j cnt ctx Hj [inner Hin]. apply lookup_replicate in Hj as [-> _].
    rewrite lookup_empty in Hin. discriminate.
Qed.

(** Construction never raises, whatever the corpus, the order and the
    tokenizers, and leaves well-formed tables. *)
Lemma init_ok (st wt : string → list string) (corpus : string) (n0 : Z) :
  ∃ m, __init__ st wt corpus n0 = Ok m ∧ tables_ok m ∧ n m = n0
       ∧ words m = vocabulary_of (token_list st wt corpus n0)
       ∧ word_freq m = Counter (token_list st wt corpus n0).
Proof.
  unfold __init__.
  set (ws := token_list st wt corpus n0).
  match goal with |- context [_ ?self] =>
    match type of self with Model => set (m0 := self) end end.
  destruct (train_ok (PyStr.join " " ws) m0 (initial_tables_ok _ _ _))
    as (m1 & E1 & Hok1 & (Hn1 & Hw1 & Hf1) & _).
  destruct (backoff_ok m1 Hok1) as (m2 & E2 & Hc2 & Ht2 & (Hn2 & Hw2 & Hf2) & _).
  exists m2. rewrite bind_run, E1, E2. split; [reflexivity |]. split; [| split; [| split]].
  - destruct Hok1 as (Hl & Hfm & Hall & Hkeys).
    split; [| split; [| split]]; rewrite ?Hc2, ?Ht2, ?Hn2; assumption.
  - rewrite Hn2, Hn1. reflexivity.
  - rewrite Hw2, Hw1. reflexivity.
  - rewrite Hf2, Hf1. reflexivity.
Qed.

(** ** The character estimator on well-formed tables *)

Lemma denominator_pos (t : nat) :
  (0 < inject_Z (Z.of_nat t) + alpha * inject_Z vocab_size)%Q.
Proof. unfold Qlt, Qplus, Qmult, alpha, vocab_size, inject_Z. simpl. lia. Qed.

Lemma float_div_run (a : Q) (t : nat) (m : Model) :
  float_div a (inject_Z (Z.of_nat t) + alpha * inject_Z vocab_size)%Q m
  = Ok ((a / (inject_Z (Z.of_nat t) + alpha * inject_Z vocab_size))%Q, m).
Proof.
  unfold float_div.
  destruct (Qeq_bool _ 0) eqn:E; [| reflexivity].
  apply Qeq_bool_eq in E. pose proof (denominator_pos t) as H.
  rewrite E in H. exfalso. exact (Qlt_irrefl 0 H).
Qed.

Lemma elem_of_range_down (hi j : Z) : j ∈ range_down hi ↔ 1 ≤ j ≤ hi.
Proof. unfold range_down. rewrite elem_of_reverse, elem_of_seqZ. lia. Qed.

(** On well-formed tables the loop over the orders returns the estimate of
    the selected inner table and writes nothing. *)
Lemma get_char_probability_orders_run m js context char :
  tables_ok m → Forall (λ j, 1 ≤ j ≤ n m) js →
  get_char_probability_orders js context char m
  = Ok (match select_orders m js context with
        | Some inner => smoothed inner char
        | None => (1 / 27)%Q
        end, m).
Proof.
  intros Hm Hjs. induction Hjs as [|j js Hj Hjs IH]; [reflexivity |].
  destruct (tables_ok_lookup m j Hm) as (cnt & Hcnt & Htot & Hord); [lia |].
  cbn [get_char_probability_orders select_orders].
  unfold counts_contains. rewrite !bind_run.
  rewrite (counts_at_run m j cnt) by (lia || exact Hcnt).
  rewrite list_index_nonneg, Hcnt by lia. simpl.
  set (cc := PyStr.slice_from context (- (j - 1))).
  destruct (cnt !! cc) as [inner|] eqn:Hcc.
  - rewrite bool_decide_true by eauto.
    unfold contexts_getitem, counts_get, counts_getitem. rewrite !bind_run.
    rewrite (contexts_at_run m j (totals_of cnt)) by (lia || exact Htot).
    rewrite totals_of_lookup, Hcc. simpl. rewrite !bind_run.
    rewrite (counts_at_run m j cnt) by (lia || exact Hcnt).
    rewrite Hcc. simpl.
    destruct (Hord cc inner Hcc) as [Hsum _].
    destruct (Nat.eqb_spec (sum_counts inner) 0) as [E|_]; [lia |]. simpl.
    apply float_div_run.
  - rewrite bool_decide_false by (intros [? ?]; discriminate).
    exact IH.
Qed.

Lemma get_char_probability_run m context char :
  tables_ok m →
  get_char_probability context char m = Ok (char_probability m context char, m).
Proof.
  intros Hm. unfold get_char_probability. rewrite bind_run. simpl.
  apply get_char_probability_orders_run; [exact Hm |].
  apply Forall_forall. intros j Hj. apply elem_of_range_down in Hj. lia.
Qed.

(** The estimate lies in (0, 1]. *)
Lemma smoothed_bounds (inner : gmap ascii nat) (c : ascii) :
  (0 < smoothed inner c)%Q ∧ (smoothed inner c <= 1)%Q.
Proof.
  pose proof (sum_counts_ge inner c) as Hle.
  unfold smoothed. set (k := default O (inner !! c)) in *.
  pose proof (denominator_pos (sum_counts inner)) as Hden.
  split.
  - apply Qlt_shift_div_l; [exact Hden |]. rewrite Qmult_0_l.
    unfold Qlt, Qplus, alpha, inject_Z. simpl. lia.
  - apply Qle_shift_div_r; [exact Hden |]. rewrite Qmult_1_l.
    unfold Qle, Qplus, Qmult, alpha, vocab_size, inject_Z. simpl. lia.
Qed.

Lemma char_probability_bounds m context c :
  (0 < char_probability m context c)%Q ∧ (char_probability m context c <= 1)%Q.
Proof.
  unfold char_probability. destruct (select m context) as [inner|].
  - apply smoothed_bounds.
  - split; [unfold Qlt | unfold Qle]; simpl; lia.
Qed.

(** ** The word scorer on well-formed tables *)

Lemma prefix_length (p w : string) :
  String.prefix p w = true → (String.length p ≤ String.length w)%nat.
Proof.
  revert w. induction p as [|a p IH]; intros [|b w] H; simpl in *;
    try lia; try discriminate.
  destruct (ascii_dec a b); [| discriminate].
  apply IH in H. lia.
Qed.

Lemma math_log_run (x : R) (m : Model) :
  (0 < x)%R → math_log x m = Ok (ln x, m).
Proof.
  intros Hx. unfold math_log. destruct (Rlt_dec 0 x); [reflexivity | contradiction].
Qed.

Lemma real_div_run (a b : R) (m : Model) :
  b ≠ 0%R → real_div a b m = Ok ((a / b)%R, m).
Proof.
  intros Hb. unfold real_div. destruct (Req_dec_T b 0); [contradiction | reflexivity].
Qed.

Lemma char_probability_real_pos m context c :
  (0 < Q2R (char_probability m context c))%R.
Proof.
  destruct (char_probability_bounds m context c) as [Hpos _].
  apply Qlt_Rlt in Hpos. rewrite RMicromega.Q2R_0 in Hpos. exact Hpos.
Qed.

(** The loop over the characters adds the logarithms of the estimates and
    writes nothing. *)
Lemma get_word_probability_chars_run m rest curr_context log_prob :
  tables_ok m →
  get_word_probability_chars rest curr_context log_prob m
  = Ok (Some (log_prob + log_prob_sum m rest curr_context)%R, m).
Proof.
  intros Hm. revert curr_context log_prob.
  induction rest as [|char rest IH]; intros curr_context log_prob.
  - simpl. unfold_monad. rewrite Rplus_0_r. reflexivity.
  - cbn [get_word_probability_chars log_prob_sum].
    rewrite bind_run, (get_char_probability_run m curr_context char Hm).
    destruct (Qlt_le_dec 0 (char_probability m curr_context char)) as [Hpos|Hneg].
    + rewrite bind_run, math_log_run by apply char_probability_real_pos.
      rewrite bind_run. simpl. rewrite IH, Rplus_assoc. reflexivity.
    + exfalso. destruct (char_probability_bounds m curr_context char) as [Hpos _].
      exact (Qlt_irrefl _ (Qlt_le_trans _ _ _ Hpos Hneg)).
Qed.

Lemma length_penalty_denominator (context word : string) :
  PyStr.startswith word context = true →
  (1 <= 1 + 1 / 10 * IZR (PyStr.len word - PyStr.len context))%R.
Proof.
  intros H. apply prefix_length in H.
  assert (Hk : (0 <= IZR (PyStr.len word - PyStr.len context))%R).
  { apply IZR_le. unfold PyStr.len. lia. }
  lra.
Qed.

(** [get_word_probability] returns the score read off the tables and
    writes nothing. *)
Lemma get_word_probability_run m context word :
  tables_ok m →
  get_word_probability context word m = Ok (word_score m context word, m).
Proof.
  intros Hm. unfold get_word_probability, word_score.
  destruct (PyStr.startswith word context) eqn:Hp; simpl; [| reflexivity].
  rewrite bind_run. simpl.
  rewrite bind_run, (get_word_probability_chars_run _ _ _ _ Hm).
  rewrite bind_run. simpl.
  rewrite bind_run, math_log_run by (apply IZR_lt; lia).
  rewrite bind_run, real_div_run by lra.
  rewrite bind_run, real_div_run.
  2:{ pose proof (length_penalty_denominator context word Hp). lra. }
  unfold_monad. rewrite Rplus_0_l. reflexivity.
Qed.

(** ** Ranking *)

Lemma score_all_run m context ws :
  tables_ok m →
  score_all context ws m = Ok ((λ w, (w, word_score m context w)) <$> ws, m).
Proof.
  intros Hm. induction ws as [|w ws IH]; [reflexivity |].
  cbn [score_all]. rewrite bind_run, (get_word_probability_run m context w Hm).
  rewrite bind_run, IH. reflexivity.
Qed.

Lemma insert_desc_In x l y : In y (insert_desc x l) ↔ y = x ∨ In y l.
Proof.
  induction l as [|z l IH]; simpl; [intuition |].
  destruct (Rlt_dec (snd x) (snd z)); simpl; [rewrite IH |]; intuition.
Qed.

Lemma sorted_desc_In l y : In y (sorted_desc l) ↔ In y l.
Proof.
  induction l as [|x l IH]; simpl; [reflexivity |].
  rewrite insert_desc_In, IH. intuition.
Qed.

Lemma insert_desc_length x l : length (insert_desc x l) = S (length l).
Proof.
  induction l as [|z l IH]; simpl; [reflexivity |].
  destruct (Rlt_dec (snd x) (snd z)); simpl; [rewrite IH |]; reflexivity.
Qed.

Lemma insert_desc_hd a x l :
  (snd x <= snd a)%R → HdRel (λ u v, (snd v <= snd u)%R) a l →
  HdRel (λ u v, (snd v <= snd u)%R) a (insert_desc x l).
Proof.
  intros Hx Hl. destruct l as [|z l]; simpl; [constructor; exact Hx |].
  destruct (Rlt_dec (snd x) (snd z)); constructor; [| exact Hx].
  inversion Hl; assumption.
Qed.

Lemma insert_desc_descending x l : descending l → descending (insert_desc x l).
Proof.
  unfold descending. induction 1 as [|z l Hs IH Hhd]; simpl.
  - repeat constructor.
  - destruct (Rlt_dec (snd x) (snd z)) as [Hlt|Hge].
    + constructor; [exact IH |]. apply insert_desc_hd; [lra | exact Hhd].
    + constructor; [constructor; assumption |]. constructor. lra.
Qed.

Lemma sorted_desc_descending l : descending (sorted_desc l).
Proof.
  induction l as [|x l IH]; simpl; [constructor |].
  apply insert_desc_descending, IH.
Qed.

Lemma descending_take k l : descending l → descending (take k l).
Proof.
  unfold descending. intros H. revert k.
  induction H as [|z l Hs IH Hhd]; intros [|k]; simpl; try constructor.
  - apply IH.
  - destruct Hhd as [|y l' Hy]; destruct k; simpl; constructor. exact Hy.
Qed.

Lemma list_slice_to_In {A} (l : list A) k x : In x (list_slice_to l k) → In x l.
Proof.
  unfold list_slice_to. rewrite <- !list_elem_of_In. apply subseteq_take.
Qed.

Lemma list_slice_to_length {A} (l : list A) k :
  0 ≤ k → Z.of_nat (length (list_slice_to l k)) ≤ k.
Proof.
  intros Hk. unfold list_slice_to.
  destruct (k <? 0) eqn:E; [apply Z.ltb_lt in E; lia |].
  rewrite length_take. lia.
Qed.

(** [predict_top_words] on well-formed tables: the ranked, cut list of the
    scored candidates, and nothing written. *)
Lemma predict_top_words_run m context top_k :
  tables_ok m →
  predict_top_words context top_k m
  = Ok (list_slice_to
          (sorted_desc
             ((λ w, (w, word_score m (PyStr.lower context) w))
                <$> List.filter (λ w, PyStr.startswith w (PyStr.lower context)) (words m)))
          top_k, m).
Proof.
  intros Hm. unfold predict_top_words. rewrite bind_run. simpl.
  rewrite bind_run, (score_all_run m _ _ Hm). reflexivity.
Qed.

(** ** Queries on a constructed model *)

Lemma run_query_frame m q : tables_ok m → run_query q m = Ok (tt, m).
Proof.
  intros Hm. destruct q as [context char|context word|context top_k]; simpl;
    rewrite bind_run.
  - rewrite (get_char_probability_run m context char Hm). reflexivity.
  - rewrite (get_word_probability_run m context word Hm). reflexivity.
  - rewrite (predict_top_words_run m context top_k Hm). reflexivity.
Qed.

Lemma run_queries_frame m qs : tables_ok m → for_ qs run_query m = Ok (tt, m).
Proof.
  intros Hm. apply for_skip. intros q _. apply run_query_frame, Hm.
Qed.

Lemma tables_ok_order m j :
  tables_ok m → 1 ≤ j ≤ n m →
  ∃ cnt, list_index (counts m) j = Some cnt
         ∧ list_index (contexts m) j = Some (totals_of cnt)
         ∧ order_ok cnt.
Proof.
  intros Hm Hj.
  destruct (tables_ok_lookup m j Hm) as (cnt & Hcnt & Htot & Hord); [lia |].
  exists cnt. rewrite !list_index_nonneg by lia. auto.
Qed.

(** C4: on every constructed model, whatever the corpus (the empty one
    included), [get_char_probability] returns a value strictly above 0 and
    at most 1, for every context and every character. *)
Theorem get_char_probability_in_unit_interval
    (st wt : string → list string) (corpus : string) (n0 : Z) :
  ∃ m, __init__ st wt corpus n0 = Ok m
       ∧ ∀ context char,
           ∃ p, get_char_probability context char m = Ok (p, m)
                ∧ (0 < p)%Q ∧ (p <= 1)%Q.
Proof.
  destruct (init_ok st wt corpus n0) as (m & E & Hm & _).
  exists m. split; [exact E |]. intros context char.
  exists (char_probability m context char).
  split; [apply get_char_probability_run, Hm | apply char_probability_bounds].
Qed.

(** C7: after construction no query changes the object: the model after
    [get_char_probability], [get_word_probability] or [predict_top_words]
    is the model before it, with its count tables, totals, backoff
    weights, vocabulary and word frequencies. *)
Theorem queries_leave_model_unchanged
    (st wt : string → list string) (corpus : string) (n0 : Z) :
  ∃ m, __init__ st wt corpus n0 = Ok m
       ∧ (∀ context char, ∃ p, get_char_probability context char m = Ok (p, m))
       ∧ (∀ context word, ∃ s, get_word_probability context word m = Ok (s, m))
       ∧ (∀ context top_k, ∃ l, predict_top_words context top_k m = Ok (l, m))
       ∧ ∀ qs : list query, for_ qs run_query m = Ok (tt, m).
Proof.
  destruct (init_ok st wt corpus n0) as (m & E & Hm & _).
  exists m. split; [exact E |]. repeat split.
  - intros. eexists. apply get_char_probability_run, Hm.
  - intros. eexists. apply get_word_probability_run, Hm.
  - intros. eexists. apply predict_top_words_run, Hm.
  - intros. apply run_queries_frame, Hm.
Qed.

(** C9: after construction, at every order [j] in [1, n] and every context
    of the count table, the stored total is the sum of the counts of the
    next characters; the same holds in the state left by any sequence of
    queries. *)
Theorem totals_are_sums_of_counts
    (st wt : string → list string) (corpus : string) (n0 : Z) :
  ∃ m, __init__ st wt corpus n0 = Ok m
       ∧ ∀ qs : list query,
           ∃ m', for_ qs run_query m = Ok (tt, m')
                 ∧ ∀ j, 1 ≤ j ≤ n0 →
                     ∃ cnt tot,
                       list_index (counts m') j = Some cnt
                       ∧ list_index (contexts m') j = Some tot
                       ∧ ∀ ctx inner,
                           cnt !! ctx = Some inner →
                           tot !! ctx = Some (sum_counts inner).
Proof.
  destruct (init_ok st wt corpus n0) as (m & E & Hm & Hn & _).
  exists m. split; [exact E |]. intros qs.
  exists m. split; [apply run_queries_frame, Hm |].
  intros j Hj.
  destruct (tables_ok_order m j Hm) as (cnt & Hcnt & Htot & _); [lia |].
  exists cnt, (totals_of cnt). split; [exact Hcnt |]. split; [exact Htot |].
  intros ctx inner Hin. rewrite totals_of_lookup, Hin. reflexivity.
Qed.

(** C10: after training, at every order [j] in [1, n] the count table and
    the total table have the same keys and every total is at least 1; so
    whenever the estimator finds its candidate context in the count table,
    reading the total succeeds without writing, the total is not zero, the
    denominator of the smoothing is positive, and [get_char_probability]
    never raises. *)
Theorem count_and_total_tables_agree
    (st wt : string → list string) (corpus : string) (n0 : Z) :
  ∃ m, __init__ st wt corpus n0 = Ok m
       ∧ (∀ j, 1 ≤ j ≤ n0 →
            ∃ cnt tot,
              list_index (counts m) j = Some cnt
              ∧ list_index (contexts m) j = Some tot
              ∧ (∀ ctx, is_Some (cnt !! ctx) ↔ is_Some (tot !! ctx))
              ∧ (∀ ctx t, tot !! ctx = Some t → (1 ≤ t)%nat)
              ∧ ∀ ctx, is_Some (cnt !! ctx) →
                  ∃ t, contexts_getitem j ctx m = Ok (t, m)
                       ∧ Nat.eqb t 0 = false
                       ∧ (0 < inject_Z (Z.of_nat t) + alpha * inject_Z vocab_size)%Q)
       ∧ ∀ context char, ∃ p, get_char_probability context char m = Ok (p, m).
Proof.
  destruct (init_ok st wt corpus n0) as (m & E & Hm & Hn & _).
  exists m. split; [exact E |]. split.
  - intros j Hj.
    destruct (tables_ok_lookup m j Hm) as (cnt & Hcnt & Htot & Hord); [lia |].
    exists cnt, (totals_of cnt). rewrite !list_index_nonneg by lia.
    split; [exact Hcnt |]. split; [exact Htot |]. split; [| split].
    + intros ctx. rewrite totals_of_lookup, fmap_is_Some. reflexivity.
    + intros ctx t. rewrite totals_of_lookup.
      destruct (cnt !! ctx) as [inner|] eqn:Hin; [| discriminate].
      intros [= <-]. apply (Hord ctx inner Hin).
    + intros ctx [inner Hin]. exists (sum_counts inner).
      split; [| split].
      * unfold contexts_getitem. rewrite bind_run.
        rewrite (contexts_at_run m j (totals_of cnt)) by (lia || exact Htot).
        rewrite totals_of_lookup, Hin. reflexivity.
      * destruct (Hord ctx inner Hin) as [Hsum _].
        apply Nat.eqb_neq. lia.
      * apply denominator_pos.
  - intros. eexists. apply get_char_probability_run, Hm.
Qed.

(** C5: on every constructed model, for every prefix and every [k],
    [predict_top_words] returns (without raising and without writing) a
    list of at most [k] pairs (for a count [k], that is [0 ≤ k]), in
    descending order of score; every returned word is a vocabulary word
    that starts with the lower-cased prefix, paired with its
    [get_word_probability] score; and when no vocabulary word starts with
    the lower-cased prefix the list is empty. *)
Theorem predict_top_words_ranked
    (st wt : string → list string) (corpus : string) (n0 : Z) :
  ∃ m, __init__ st wt corpus n0 = Ok m
       ∧ ∀ prefix k,
           ∃ res, predict_top_words prefix k m = Ok (res, m)
                  ∧ (0 ≤ k → Z.of_nat (length res) ≤ k)
                  ∧ descending res
                  ∧ (∀ w s, In (w, s) res →
                       In w (words m)
                       ∧ PyStr.startswith w (PyStr.lower prefix) = true
                       ∧ get_word_probability (PyStr.lower prefix) w m = Ok (s, m))
                  ∧ ((∀ w, In w (words m) →
                        PyStr.startswith w (PyStr.lower prefix) = false) →
                     res = []).
Proof.
  destruct (init_ok st wt corpus n0) as (m & E & Hm & _).
  exists m. split; [exact E |]. intros prefix k.
  eexists. split; [apply predict_top_words_run, Hm |].
  split; [apply list_slice_to_length |].
  split; [unfold list_slice_to; apply descending_take, sorted_desc_descending |].
  split.
  - intros w s Hin. apply list_slice_to_In in Hin.
    apply (proj1 (sorted_desc_In _ _)) in Hin.
    apply in_map_iff in Hin as (w' & [= -> <-] & Hw').
    apply filter_In in Hw' as [Hw Hp].
    split; [exact Hw |]. split; [exact Hp |].
    apply get_word_probability_run, Hm.
  - intros Hnone.
    replace (List.filter _ (words m)) with (@nil string);
      [unfold list_slice_to; simpl; apply take_nil |].
    symmetry. induction (words m) as [|w ws IH]; [reflexivity |]. simpl.
    rewrite (Hnone w) by (left; reflexivity).
    apply IH. intros w' Hw'. apply Hnone. right. exact Hw'.
Qed.

(** ** Models without counts *)

(** When the order is not positive or the stream is shorter than the
    order, [_train] visits no (position, order) pair. *)
Lemma train_skip (corpus : string) (m : Model) :
  n m ≤ 0 ∨ PyStr.len corpus < n m → _train corpus m = Ok (tt, m).
Proof.
  intros Hn. unfold _train. rewrite bind_run. simpl.
  apply for_skip. intros i Hi. apply elem_of_range in Hi.
  rewrite bind_run. simpl.
  apply for_skip. intros j Hj. apply elem_of_range in Hj. lia.
Qed.

Lemma init_no_counts (st wt : string → list string) (corpus : string) (n0 : Z) :
  n0 ≤ 0 ∨ PyStr.len (PyStr.join " " (token_list st wt corpus n0)) < n0 →
  ∃ m, __init__ st wt corpus n0 = Ok m ∧ tables_ok m ∧ n m = n0
       ∧ counts m = replicate (Z.to_nat (n0 + 1)) ∅
       ∧ contexts m = replicate (Z.to_nat (n0 + 1)) ∅
       ∧ words m = vocabulary_of (token_list st wt corpus n0).
Proof.
  intros Hn. unfold __init__.
  set (ws := token_list st wt corpus n0) in *.
  match goal with |- context [_ ?self] =>
    match type of self with Model => set (m0 := self) end end.
  pose proof (initial_tables_ok n0 (vocabulary_of ws) (Counter ws)) as Hok0.
  fold m0 in Hok0.
  destruct (backoff_ok m0 Hok0) as (m2 & E2 & Hc2 & Ht2 & (Hn2 & Hw2 & Hf2) & _).
  exists m2. rewrite bind_run, (train_skip _ m0 Hn), E2.
  split; [reflexivity |]. split; [| auto].
  destruct Hok0 as (Hl & Hfm & Hall & Hkeys).
  split; [| split; [| split]]; rewrite ?Hc2, ?Ht2, ?Hn2; assumption.
Qed.

Lemma select_orders_no_counts m js context :
  (∀ j cnt, list_index (counts m) j = Some cnt → cnt = ∅) →
  select_orders m js context = None.
Proof.
  intros Hempty. induction js as [|j js IH]; [reflexivity |]. simpl.
  destruct (list_index (counts m) j) as [cnt|] eqn:E; simpl; [| exact IH].
  rewrite (Hempty j cnt E), lookup_empty. exact IH.
Qed.

Lemma list_index_replicate {A} (k : nat) (x y : A) (j : Z) :
  list_index (replicate k x) j = Some y → y = x.
Proof.
  unfold list_index. destruct (_ <? 0); [discriminate |].
  intros H. apply lookup_replicate in H as [-> _]. reflexivity.
Qed.

(** Without counts every estimate is the uniform one. *)
Lemma no_counts_uniform m k context char :
  tables_ok m → counts m = replicate k ∅ →
  get_char_probability context char m = Ok ((1 / 27)%Q, m).
Proof.
  intros Hm Hc. rewrite (get_char_probability_run m context char Hm).
  unfold char_probability, select. rewrite select_orders_no_counts; [reflexivity |].
  intros j cnt. rewrite Hc. apply list_index_replicate.
Qed.

Lemma token_list_no_tokens (st wt : string → list string) (corpus : string) (n0 : Z) :
  Forall (λ s, wt s = []) (st (normalize corpus)) → token_list st wt corpus n0 = [].
Proof.
  unfold token_list. generalize (st (normalize corpus)).
  induction 1 as [|s l Hs _ IH]; [reflexivity |].
  simpl. unfold extend_words at 2. rewrite Hs. exact IH.
Qed.

(** C8: construction from the empty corpus text succeeds and gives the
    degenerate model: every count table and every total table is empty,
    the vocabulary is empty, every [get_char_probability] query returns
    1/27 and every [predict_top_words] query returns the empty list. The
    tokenizers are only asked to find no token in the empty text. *)
Theorem empty_corpus_gives_degenerate_model
    (st wt : string → list string) (n0 : Z) :
  Forall (λ s, wt s = []) (st "") →
  ∃ m, __init__ st wt "" n0 = Ok m
       ∧ counts m = replicate (Z.to_nat (n0 + 1)) ∅
       ∧ contexts m = replicate (Z.to_nat (n0 + 1)) ∅
       ∧ words m = []
       ∧ (∀ context char,
            get_char_probability context char m = Ok ((1 / 27)%Q, m))
       ∧ ∀ context top_k, predict_top_words context top_k m = Ok ([], m).
Proof.
  intros Htok.
  assert (Hws : token_list st wt "" n0 = []) by (apply token_list_no_tokens, Htok).
  destruct (init_no_counts st wt "" n0) as (m & E & Hm & Hn & Hc & Ht & Hw).
  { rewrite Hws. unfold PyStr.len. simpl. lia. }
  rewrite Hws in Hw. change (vocabulary_of []) with (@nil string) in Hw.
  exists m. split; [exact E |]. split; [exact Hc |]. split; [exact Ht |].
  split; [exact Hw |]. split.
  - intros. eapply no_counts_uniform; eauto.
  - intros. rewrite (predict_top_words_run m _ _ Hm), Hw. simpl.
    unfold list_slice_to. simpl. rewrite take_nil. reflexivity.
Qed.

(** The plain tokenizers and order 3 meet the condition of C8. *)
Lemma empty_corpus_gives_degenerate_model_witness :
  Forall (λ s, simple_word_tokenize s = []) (simple_sent_tokenize "")
  ∧ ∃ m, build "" 3 = Ok m
       ∧ counts m = replicate 4 ∅
       ∧ contexts m = replicate 4 ∅
       ∧ words m = []
       ∧ (∀ context char,
            get_char_probability context char m = Ok ((1 / 27)%Q, m))
       ∧ ∀ context top_k, predict_top_words context top_k m = Ok ([], m).
Proof.
  split; [simpl; constructor |].
  apply (empty_corpus_gives_degenerate_model
           simple_sent_tokenize simple_word_tokenize 3).
  simpl. constructor.
Defined.

(** C3, as the code has it: construction succeeds for every corpus text
    and every integer order; no order is rejected. For an order [n ≤ 0]
    the model has no context in any table and every character estimate is
    1/27. *)
Theorem construction_accepts_every_order
    (st wt : string → list string) (corpus : string) (n0 : Z) :
  ∃ m, __init__ st wt corpus n0 = Ok m
       ∧ n m = n0
       ∧ (n0 ≤ 0 →
          counts m = replicate (Z.to_nat (n0 + 1)) ∅
          ∧ contexts m = replicate (Z.to_nat (n0 + 1)) ∅
          ∧ ∀ context char,
              get_char_probability context char m = Ok ((1 / 27)%Q, m)).
Proof.
  destruct (Z_le_gt_dec n0 0) as [Hle|Hgt].
  - destruct (init_no_counts st wt corpus n0) as (m & E & Hm & Hn & Hc & Ht & _);
      [left; exact Hle |].
    exists m. split; [exact E |]. split; [exact Hn |]. intros _.
    split; [exact Hc |]. split; [exact Ht |].
    intros. eapply no_counts_uniform; eauto.
  - destruct (init_ok st wt corpus n0) as (m & E & _ & Hn & _).
    exists m. split; [exact E |]. split; [exact Hn |]. lia.
Qed.

(** C3 as stated fails: with order 0, and with a negative order,
    construction returns a model; nothing is raised. *)
Lemma construction_with_order_zero_succeeds :
  (∃ m, build "a" 0 = Ok m ∧ n m = 0)
  ∧ (∃ m, build "a" (-3) = Ok m ∧ n m = -3).
Proof.
  split.
  - destruct (init_ok simple_sent_tokenize simple_word_tokenize "a" 0)
      as (m & E & _ & Hn & _).
    exists m. split; [exact E | exact Hn].
  - destruct (init_ok simple_sent_tokenize simple_word_tokenize "a" (-3))
      as (m & E & _ & Hn & _).
    exists m. split; [exact E | exact Hn].
Qed.

(** ** The estimates of the 27 symbols together *)






(** ** Rounding errors of the estimate *)

Section Rounding.

(** The standard model of floating-point arithmetic: every float is the
    exact value up to a relative error [u], the unit roundoff; neither
    overflow nor underflow. *)
Variable fl : R → R.
Variable u : R.
Hypothesis u_small : (0 <= u <= 1 / 1000)%R.
Hypothesis fl_error : ∀ x, (Rabs (fl x - x) <= u * Rabs x)%R.























End Rounding.






(** ** The candidate context at order 1 *)

(** [context[-(j - 1):]] at [j = 1] is [context[-0:]], the whole string:
    a slice that starts at 0, not the suffix of length 0. *)
Lemma order_one_candidate (context : string) :
  PyStr.slice_from context (- (1 - 1)) = context.
Proof.
  unfold PyStr.slice_from, PyStr.clamp, PyStr.len. simpl.
  rewrite Z.min_l by lia. reflexivity.
Qed.

Lemma select_orders_none m js context :
  (∀ j cnt, j ∈ js → list_index (counts m) j = Some cnt →
            cnt !! PyStr.slice_from context (- (j - 1)) = None) →
  select_orders m js context = None.
Proof.
  induction js as [|j js IH]; intros Hnone; [reflexivity |]. simpl.
  destruct (list_index (counts m) j) as [cnt|] eqn:E; simpl.
  - rewrite (Hnone j cnt) by (left || exact E).
    apply IH. intros j' cnt' Hj'. apply Hnone. by right.
  - apply IH. intros j' cnt' Hj'. apply Hnone. by right.
Qed.

(** On well-formed tables the candidate of order 1 matches for the empty
    context only: the table of order 1 holds no other key. *)
Lemma order_one_matches_empty_only m context cnt :
  tables_ok m → context ≠ "" → list_index (counts m) 1 = Some cnt →
  cnt !! PyStr.slice_from context (- (1 - 1)) = None.
Proof.
  intros (_ & _ & _ & Hkeys) Hne Hcnt.
  rewrite order_one_candidate.
  destruct (cnt !! context) as [inner|] eqn:E; [| reflexivity].
  exfalso. apply Hne.
  rewrite list_index_nonneg in Hcnt by lia.
  pose proof (Hkeys _ cnt context Hcnt (ex_intro _ inner E)) as Hlen.
  destruct context; [reflexivity | discriminate].
Qed.

(** What the estimator does on every constructed model with a non-empty
    context that matches at no order from 2 up: it returns the uniform
    1/27, whatever the table of order 1 holds. *)
Lemma nonempty_context_never_uses_order_one
    (st wt : string → list string) (corpus : string) (n0 : Z) :
  ∃ m, __init__ st wt corpus n0 = Ok m
       ∧ ∀ context char,
           context ≠ "" →
           (∀ j cnt, 2 ≤ j → list_index (counts m) j = Some cnt →
                     cnt !! PyStr.slice_from context (- (j - 1)) = None) →
           get_char_probability context char m = Ok ((1 / 27)%Q, m).
Proof.
  destruct (init_ok st wt corpus n0) as (m & E & Hm & _).
  exists m. split; [exact E |]. intros context char Hne Hhigh.
  rewrite (get_char_probability_run m context char Hm).
  unfold char_probability, select.
  rewrite select_orders_none; [reflexivity |].
  intros j cnt Hj Hcnt. apply elem_of_range_down in Hj.
  destruct (decide (j = 1)) as [->|Hj1].
  - exact (order_one_matches_empty_only m context cnt Hm Hne Hcnt).
  - apply Hhigh; [lia | exact Hcnt].
Qed.

(** C1, where the code departs from it. Corpus "the cat sat on the mat the
    cat ran", order 3, context "zq": no order above 1 matches ("zq" is not
    a key at order 3, "q" is not a key at order 2), the empty context is a
    key at order 1 with the estimate 7.01/40.27 for "t", and yet the call
    returns the uniform 1/27, because the candidate at order 1 is "zq"
    itself. *)
Theorem unseen_pair_misses_order_one :
  let model := build "the cat sat on the mat the cat ran" 3 in
  run_on model (counts_contains 3 "zq") = Ok false
  ∧ run_on model (counts_contains 2 "q") = Ok false
  ∧ run_on model (counts_contains 1 "") = Ok true
  ∧ run_on model (counts_contains 1 "zq") = Ok false
  ∧ run_on model (get_char_probability "" "t") = Ok (70100 # 402700)%Q
  ∧ run_on model (get_char_probability "zq" "t") = Ok (1 # 27)%Q.
Proof. repeat split; vm_compute; reflexivity. Qed.

(** ** The rolling context of the word scorer *)

Lemma append_length (s t : string) :
  String.length (s ++ t) = (String.length s + String.length t)%nat.
Proof. induction s as [|c s IH]; simpl; [reflexivity | rewrite IH; reflexivity]. Qed.

(** From order 2 on, the context the scorer starts with and every context
    it rolls to have at most [n - 1] characters. *)
Lemma rolling_context_bounded (self_n : Z) (context : string) (char : ascii) :
  2 ≤ self_n →
  PyStr.len (PyStr.slice_from context (- Z.min (PyStr.len context) (self_n - 1)))
    ≤ self_n - 1
  ∧ PyStr.len (PyStr.slice_from (context ++ String char EmptyString)
                 (- Z.min (PyStr.len context + 1) (self_n - 1)))
    ≤ self_n - 1.
Proof.
  intros Hn. unfold PyStr.slice_from, PyStr.clamp, PyStr.len.
  rewrite !drop_length, append_length. simpl.
  split.
  - destruct (_ <? 0) eqn:E; [apply Z.ltb_lt in E | apply Z.ltb_ge in E]; lia.
  - destruct (_ <? 0) eqn:E; [apply Z.ltb_lt in E | apply Z.ltb_ge in E]; lia.
Qed.

(** C6, where the code departs from it. Corpus "ab", order 1, prefix "a",
    word "ab": the scorer keeps the whole prefix "a" as rolling context
    (one character, although [n - 1 = 0]), the estimator finds no order
    for it and returns 1/27 for "b", where the empty rolling context gives
    1.01/6.27; the score is built on the former. *)
Theorem unigram_score_uses_whole_prefix :
  ∃ m, build "ab" 1 = Ok m
       ∧ PyStr.slice_from "a" (- Z.min (PyStr.len "a") (n m - 1)) = "a"
       ∧ get_char_probability "a" "b" m = Ok ((1 # 27)%Q, m)
       ∧ get_char_probability "" "b" m = Ok ((10100 # 62700)%Q, m)
       ∧ get_word_probability "a" "ab" m
         = Ok ((exp (ln (Q2R (1 # 27)) + 0)
                * (1 + ln 2 / 10) * (1 / (1 + 1 / 10 * 1)))%R, m)
       ∧ (exp (ln (Q2R (1 # 27)) + 0) ≠ exp (ln (Q2R (10100 # 62700)) + 0))%R.
Proof.
  destruct (init_ok simple_sent_tokenize simple_word_tokenize "ab" 1)
    as (m & E & Hm & Hn & _).
  exists m. split; [exact E |].
  assert (Ha : char_probability m "a" "b" = (1 # 27)%Q).
  { revert E. unfold build. vm_compute. intros [= <-]. reflexivity. }
  assert (Hb : char_probability m "" "b" = (10100 # 62700)%Q).
  { revert E. unfold build. vm_compute. intros [= <-]. reflexivity. }
  assert (Hf : word_freq m !! "ab" = Some 1%nat).
  { revert E. unfold build. vm_compute. intros [= <-]. reflexivity. }
  split; [rewrite Hn; reflexivity |].
  split; [rewrite <- Ha; apply get_char_probability_run, Hm |].
  split; [rewrite <- Hb; apply get_char_probability_run, Hm |].
  split.
  - rewrite (get_word_probability_run m "a" "ab" Hm).
    unfold word_score. rewrite Hn, Hf.
    change (PyStr.startswith "ab" "a") with true.
    change (PyStr.slice_from "ab" (PyStr.len "a")) with "b".
    change (PyStr.slice_from "a" (- Z.min (PyStr.len "a") (1 - 1))) with "a".
    cbn [log_prob_sum]. rewrite Ha.
    change (PyStr.len "ab" - PyStr.len "a") with 1.
    change (1 + Z.of_nat (default O (Some 1%nat))) with 2.
    reflexivity.
  - rewrite !Rplus_0_r, !exp_ln.
    + unfold Q2R. simpl. lra.
    + unfold Q2R. simpl. lra.
    + unfold Q2R. simpl. lra.
Qed.

(** ** The model at work *)

(** The read [self.contexts[j][ctx]] of the estimator is a write on an
    object whose tables do not agree: the missing total is inserted as 0,
    the guard [if total_count] fails and the uniform value comes back from
    a changed object. The frame property of the queries rests on the
    agreement of the tables. *)
Lemma unbalanced_model_is_written :
  get_char_probability "" "a" unbalanced_model
  = Ok ((1 / 27)%Q, set_contexts [∅; {[ "" := O ]}] unbalanced_model)
  ∧ contexts (set_contexts [∅; {[ "" := O ]}] unbalanced_model)
    ≠ contexts unbalanced_model.
Proof. split; [vm_compute; reflexivity | discriminate]. Qed.

Lemma ln_nonneg (x : R) : (1 <= x)%R → (0 <= ln x)%R.
Proof.
  intros [Hlt|<-]; [| rewrite ln_1; lra].
  rewrite <- ln_1. left. apply ln_increasing; lra.
Qed.

(** A word that starts with the prefix has a positive score. *)
Lemma word_score_pos m context word :
  PyStr.startswith word context = true → (0 < word_score m context word)%R.
Proof.
  intros Hp. unfold word_score. rewrite Hp.
  pose proof (length_penalty_denominator context word Hp) as Hden.
  assert (Hfreq : (0 <= ln (IZR (1 + Z.of_nat (default O (word_freq m !! word)))))%R).
  { apply ln_nonneg, IZR_le. lia. }
  apply Rmult_lt_0_compat; [apply Rmult_lt_0_compat |].
  - apply exp_pos.
  - lra.
  - apply Rdiv_lt_0_compat; lra.
Qed.

(** Corpus "the cat sat on the mat the cat ran", order 3: the prefix "ca"
    yields "cat" alone, with a positive score; "sat" and "mat" are not
    returned. *)
Lemma scenario_prefix_ca :
  ∃ m s, build "the cat sat on the mat the cat ran" 3 = Ok m
         ∧ predict_top_words "ca" 5 m = Ok ([("cat", s)], m)
         ∧ (0 < s)%R.
Proof.
  destruct (init_ok simple_sent_tokenize simple_word_tokenize
              "the cat sat on the mat the cat ran" 3) as (m & E & Hm & _).
  assert (Hw : words m = ["on"; "sat"; "cat"; "mat"; "ran"; "the"]).
  { revert E. unfold build. vm_compute. intros [= <-]. reflexivity. }
  exists m, (word_score m "ca" "cat").
  split; [exact E |]. split.
  - rewrite (predict_top_words_run m "ca" 5 Hm), Hw. reflexivity.
  - apply word_score_pos. reflexivity.
Qed.

(** Same corpus and order: the prefix "z" matches no word and the result
    is the empty list. *)
Lemma scenario_prefix_z :
  run_on (build "the cat sat on the mat the cat ran" 3) (predict_top_words "z" 5)
  = Ok [].
Proof. vm_compute. reflexivity. Qed.

(** ** Training as a fold *)

(** A loop whose body acts on a component [g] of the state as [step] does
    acts on it as the fold of [step]. *)
Lemma for_fold {A S} (I : Model → Prop) (g : Model → S) (step : S → A → S)
    (xs : list A) (body : A → M unit) :
  (∀ x m, x ∈ xs → I m → ∃ m', body x m = Ok (tt, m') ∧ I m' ∧ g m' = step (g m) x) →
  ∀ m, I m → ∃ m', for_ xs body m = Ok (tt, m') ∧ I m' ∧ g m' = foldl step (g m) xs.
Proof.
  induction xs as [|x xs IH]; intros Hbody m Hm.
  - exists m. repeat split. exact Hm.
  - destruct (Hbody x m) as (m1 & E1 & H1 & G1); [left | exact Hm |].
    destruct (IH (λ y m0 Hy, Hbody y m0 (list_elem_of_further _ _ _ Hy)) m1 H1)
      as (m2 & E2 & H2 & G2).
    exists m2. rewrite for_cons, E1. split; [exact E2 |]. split; [exact H2 |].
    simpl. rewrite <- G1. exact G2.
Qed.

(** The two increments of one training step, with the count tables they
    leave. *)
Lemma train_step_counts m0 m j ctx c :
  train_inv m0 m → 1 ≤ j ≤ n m → String.length ctx = Z.to_nat (j - 1) →
  ∃ m', (counts_incr j ctx c;; contexts_incr j ctx) m = Ok (tt, m')
        ∧ train_inv m0 m'
        ∧ counts m' = incr_count (counts m) (Z.to_nat j) ctx c.
Proof.
  intros Hinv Hj Hctx.
  destruct (train_inv_step m0 m j ctx c Hinv Hj Hctx) as (m' & E & Hinv').
  exists m'. split; [exact E |]. split; [exact Hinv' |].
  destruct Hinv as (Hm & _).
  destruct (tables_ok_lookup m j Hm) as (cnt & Hcnt & Htot & _); [lia |].
  rewrite bind_run, (counts_incr_run m j cnt) in E by (lia || exact Hcnt).
  rewrite (contexts_incr_run _ j (totals_of cnt)) in E by (lia || exact Htot).
  injection E as <-. unfold incr_count. rewrite Hcnt. reflexivity.
Qed.

(** [_train] writes into the count tables what the fold [train_counts]
    computes. *)
Lemma train_counts_run (corpus : string) (m : Model) :
  tables_ok m →
  ∃ m', _train corpus m = Ok (tt, m') ∧ train_inv m m'
        ∧ counts m' = train_counts corpus (n m) (counts m).
Proof.
  intros Hm. unfold _train, train_counts. rewrite bind_run. simpl.
  apply (for_fold (train_inv m) counts (train_position corpus (n m)));
    [| apply train_inv_refl, Hm].
  intros i m1 Hi H1. rewrite bind_run. simpl.
  apply elem_of_range in Hi.
  assert (Hn1 : n m1 = n m) by apply H1. rewrite Hn1.
  unfold train_position.
  apply (for_fold (train_inv m) counts); [| exact H1].
  intros j m2 Hjr H2.
  apply elem_of_range in Hjr.
  assert (Hn2 : n m2 = n m) by apply H2.
  destruct (i >=? j - 1) eqn:Eij; [| exists m2; split; [reflexivity | split; [exact H2 | reflexivity]]].
  destruct (index_in_range corpus i) as [ch Hch]; [lia |].
  rewrite bind_run, Hch. simpl.
  apply Z.geb_le in Eij.
  apply train_step_counts; [exact H2 | lia |].
  rewrite slice_length by lia. f_equal. lia.
Qed.

(** ** What the count tables hold after training *)

Lemma sum_list_cons (x : nat) (xs : list nat) :
  sum_list (x :: xs) = (x + sum_list xs)%nat.
Proof. reflexivity. Qed.

Lemma foldl_measure {A St} (I : St → Prop) (μ : St → nat) (step : St → A → St)
    (δ : A → nat) (xs : list A) :
  (∀ s x, x ∈ xs → I s → I (step s x) ∧ μ (step s x) = (μ s + δ x)%nat) →
  ∀ s, I s → I (foldl step s xs) ∧ μ (foldl step s xs) = (μ s + sum_list (δ <$> xs))%nat.
Proof.
  induction xs as [|x xs IH]; intros Hstep s Hs.
  - simpl. split; [exact Hs | lia].
  - destruct (Hstep s x) as [H1 E1]; [left | exact Hs |].
    destruct (IH (λ s0 y Hy, Hstep s0 y (list_elem_of_further _ _ _ Hy)) _ H1) as [H2 E2].
    rewrite fmap_cons, sum_list_cons. cbn [foldl].
    split; [exact H2 |]. rewrite E2, E1. lia.
Qed.

Lemma sum_indicator_filter {A} (p : A → bool) (xs : list A) :
  sum_list ((λ x, indicator (p x)) <$> xs) = length (List.filter p xs).
Proof.
  induction xs as [|x xs IH]; [reflexivity |].
  rewrite fmap_cons, sum_list_cons, IH. cbn [List.filter].
  destruct (p x); reflexivity.
Qed.

(** In a list without repetition one element at most is equal to [a]. *)
Lemma sum_indicator_eq (a : Z) (b : bool) (xs : list Z) :
  NoDup xs →
  sum_list ((λ x, indicator (bool_decide (x = a) && b)) <$> xs)
  = indicator (bool_decide (a ∈ xs) && b).
Proof.
  induction 1 as [|x xs Hx Hnd IH].
  - rewrite bool_decide_false by apply not_elem_of_nil. reflexivity.
  - rewrite fmap_cons, sum_list_cons, IH. destruct (decide (x = a)) as [->|Hne].
    + rewrite bool_decide_true by reflexivity.
      rewrite (bool_decide_true (a ∈ a :: xs)) by left.
      rewrite (bool_decide_false (a ∈ xs)) by exact Hx.
      simpl. destruct b; reflexivity.
    + rewrite bool_decide_false by exact Hne. simpl.
      destruct (decide (a ∈ xs)) as [Hin|Hin].
      * rewrite !bool_decide_true; [reflexivity | by right | exact Hin].
      * rewrite !bool_decide_false; [reflexivity | | exact Hin].
        intros H'. apply elem_of_cons in H' as [->|H']; contradiction.
Qed.

Lemma incr_count_length cs j ctx c : length (incr_count cs j ctx c) = length cs.
Proof.
  unfold incr_count. destruct (cs !! j); [apply length_insert | reflexivity].
Qed.

(** One increment adds one to the count of its own (order, context,
    character) and leaves every other count. *)
Lemma count_at_incr cs (j : nat) ctx c (j' : Z) ctx' c' :
  (j < length cs)%nat → 0 ≤ j' →
  count_at (incr_count cs j ctx c) j' ctx' c'
  = (count_at cs j' ctx' c'
     + indicator (bool_decide (Z.to_nat j' = j) && bool_decide (ctx' = ctx)
                  && bool_decide (c' = c)))%nat.
Proof.
  intros Hj Hj'. unfold count_at, incr_count.
  rewrite !list_index_nonneg by exact Hj'.
  destruct (lookup_lt_is_Some_2 cs j Hj) as [cnt Hcnt]. rewrite Hcnt.
  destruct (decide (Z.to_nat j' = j)) as [->|Hne].
  - rewrite list_lookup_insert_eq, Hcnt by exact Hj.
    rewrite bool_decide_true by reflexivity. simpl.
    destruct (decide (ctx' = ctx)) as [->|Hc].
    + rewrite lookup_insert_eq, bool_decide_true by reflexivity. simpl.
      destruct (decide (c' = c)) as [->|Hch].
      * rewrite lookup_insert_eq, bool_decide_true by reflexivity. simpl. lia.
      * rewrite lookup_insert_ne, bool_decide_false by congruence. simpl. lia.
    + rewrite lookup_insert_ne, bool_decide_false by congruence. simpl. lia.
  - rewrite list_lookup_insert_ne, bool_decide_false by congruence. simpl. lia.
Qed.

(** One increment adds one to the sum under its own (order, context). *)
Lemma sum_at_incr cs (j : nat) ctx c (j' : Z) ctx' :
  (j < length cs)%nat → 0 ≤ j' →
  sum_at (incr_count cs j ctx c) j' ctx'
  = (sum_at cs j' ctx'
     + indicator (bool_decide (Z.to_nat j' = j) && bool_decide (ctx' = ctx)))%nat.
Proof.
  intros Hj Hj'. unfold sum_at, incr_count.
  rewrite !list_index_nonneg by exact Hj'.
  destruct (lookup_lt_is_Some_2 cs j Hj) as [cnt Hcnt]. rewrite Hcnt.
  destruct (decide (Z.to_nat j' = j)) as [->|Hne].
  - rewrite list_lookup_insert_eq, Hcnt by exact Hj.
    rewrite bool_decide_true by reflexivity. simpl.
    destruct (decide (ctx' = ctx)) as [->|Hc].
    + rewrite lookup_insert_eq, bool_decide_true by reflexivity. simpl.
      rewrite sum_counts_incr. lia.
    + rewrite lookup_insert_ne, bool_decide_false by congruence. simpl. lia.
  - rewrite list_lookup_insert_ne, bool_decide_false by congruence. simpl. lia.
Qed.

Section TrainingMeasure.

(** A quantity [μ] read off the count tables that one increment at order
    [j] raises by one when [q] accepts its context and character, and that
    no other increment changes. *)
Variable μ : list (gmap string (gmap ascii nat)) → nat.
Variable q : string → ascii → bool.
Variable j : Z.
Hypothesis j_pos : 1 ≤ j.
Hypothesis μ_incr : ∀ cs (j0 : nat) ctx0 c0,
  (j0 < length cs)%nat →
  μ (incr_count cs j0 ctx0 c0)
  = (μ cs + indicator (bool_decide (Z.to_nat j = j0) && q ctx0 c0))%nat.

Lemma measure_train_position corpus self_n cs i :
  length cs = Z.to_nat (self_n + 1) →
  length (train_position corpus self_n cs i) = length cs
  ∧ μ (train_position corpus self_n cs i)
    = (μ cs + indicator (bool_decide (j ∈ range 1 (self_n + 1))
                         && position_hit corpus q j i))%nat.
Proof.
  intros Hlen. unfold train_position.
  rewrite <- (sum_indicator_eq j (position_hit corpus q j i) (range 1 (self_n + 1)))
    by apply NoDup_seqZ.
  destruct (foldl_measure (λ s, length s = length cs) μ
    (λ cs0 j0, if i >=? j0 - 1 then
                 match PyStr.index corpus i with
                 | Some next_char =>
                     incr_count cs0 (Z.to_nat j0)
                       (PyStr.slice corpus (i - (j0 - 1)) i) next_char
                 | None => cs0
                 end
               else cs0)
    (λ x, indicator (bool_decide (x = j) && position_hit corpus q j i))
    (range 1 (self_n + 1))) with (s := cs) as [H1 H2]; [| reflexivity | auto].
  intros s j0 Hj0 Hs. apply elem_of_range in Hj0.
  assert (Hlt : (Z.to_nat j0 < length s)%nat) by lia.
  unfold position_hit.
  destruct (decide (j0 = j)) as [->|Hne].
  - rewrite bool_decide_true by reflexivity. simpl.
    destruct (i >=? j - 1); simpl; [| split; [exact Hs | lia]].
    destruct (PyStr.index corpus i) as [nc|]; [| split; [exact Hs | simpl; lia]].
    rewrite incr_count_length, μ_incr by exact Hlt.
    rewrite bool_decide_true by reflexivity. split; [exact Hs | reflexivity].
  - rewrite bool_decide_false by exact Hne. simpl.
    destruct (i >=? j0 - 1); [| split; [exact Hs | lia]].
    destruct (PyStr.index corpus i) as [nc|]; [| split; [exact Hs | lia]].
    rewrite incr_count_length, μ_incr by exact Hlt.
    rewrite bool_decide_false by lia. split; [exact Hs | simpl; lia].
Qed.

Lemma measure_train_counts corpus self_n cs :
  length cs = Z.to_nat (self_n + 1) → 1 ≤ j ≤ self_n →
  μ (train_counts corpus self_n cs)
  = (μ cs + length (List.filter (position_hit corpus q j) (positions corpus self_n)))%nat.
Proof.
  intros Hlen Hj. unfold train_counts. fold (positions corpus self_n).
  rewrite <- sum_indicator_filter.
  apply (foldl_measure (λ s, length s = Z.to_nat (self_n + 1)) μ); [| exact Hlen].
  intros s i _ Hs.
  destruct (measure_train_position corpus self_n s i Hs) as [H1 H2].
  split; [congruence |]. rewrite H2.
  rewrite bool_decide_true by (apply elem_of_range; lia). reflexivity.
Qed.

End TrainingMeasure.

(** Construction, with the count tables as the fold computes them. *)
Lemma init_trained (st wt : string → list string) (corpus : string) (n0 : Z) :
  ∃ m, __init__ st wt corpus n0 = Ok m ∧ tables_ok m ∧ n m = n0
       ∧ counts m = train_counts (stream st wt corpus n0) n0
                      (replicate (Z.to_nat (n0 + 1)) ∅).
Proof.
  unfold __init__, stream.
  set (ws := token_list st wt corpus n0).
  match goal with |- context [_ ?self] =>
    match type of self with Model => set (m0 := self) end end.
  destruct (train_counts_run (PyStr.join " " ws) m0 (initial_tables_ok _ _ _))
    as (m1 & E1 & (Hok1 & (Hn1 & _) & _) & Hc1).
  destruct (backoff_ok m1 Hok1) as (m2 & E2 & Hc2 & Ht2 & (Hn2 & _) & _).
  exists m2. rewrite bind_run, E1, E2. split; [reflexivity |]. split; [| split].
  - destruct Hok1 as (Hl & Hfm & Hall & Hkeys).
    split; [| split; [| split]]; rewrite ?Hc2, ?Ht2, ?Hn2; assumption.
  - rewrite Hn2, Hn1. reflexivity.
  - rewrite Hc2, Hc1. reflexivity.
Qed.

Lemma list_index_replicate_empty {V} (k : nat) (j : Z) (cnt : gmap string V) :
  list_index (replicate k (∅ : gmap string V)) j = Some cnt → cnt = ∅.
Proof. apply list_index_replicate. Qed.

Lemma count_at_untrained (k : nat) (j : Z) ctx c :
  count_at (replicate k ∅) j ctx c = O.
Proof.
  unfold count_at. destruct (list_index _ j) as [cnt|] eqn:E; [| reflexivity].
  apply list_index_replicate in E as ->. reflexivity.
Qed.

Lemma sum_at_untrained (k : nat) (j : Z) ctx : sum_at (replicate k ∅) j ctx = O.
Proof.
  unfold sum_at. destruct (list_index _ j) as [cnt|] eqn:E; [| reflexivity].
  apply list_index_replicate in E as ->. rewrite lookup_empty. apply sum_counts_empty.
Qed.

Lemma filter_ext_positions (p p' : Z → bool) (xs : list Z) :
  (∀ i, i ∈ xs → p i = p' i) → List.filter p xs = List.filter p' xs.
Proof.
  induction xs as [|x xs IH]; intros Hext; [reflexivity |]. simpl.
  rewrite (Hext x) by left. rewrite IH; [reflexivity |].
  intros i Hi. apply Hext. by right.
Qed.

(** X1: after construction the count tables hold exactly the n-gram
    counts of the training stream: for every order [j] in [1, n], context
    and character, [counts[j][ctx][c]] (0 when a key is missing) is the
    number of positions [i] in [range(len(stream) - n + 1)] with
    [i >= j - 1], [stream[i-(j-1):i] = ctx] and [stream[i] = c]. *)
Theorem counts_are_ngram_occurrences
    (st wt : string → list string) (corpus : string) (n0 : Z) :
  ∃ m, __init__ st wt corpus n0 = Ok m
       ∧ ∀ j ctx c,
           1 ≤ j ≤ n0 →
           count_at (counts m) j ctx c
           = ngram_occurrences (stream st wt corpus n0) n0 j ctx c.
Proof.
  destruct (init_trained st wt corpus n0) as (m & E & Hm & Hn & Hc).
  exists m. split; [exact E |]. intros j ctx c Hj.
  rewrite Hc.
  rewrite (measure_train_counts (λ cs, count_at cs j ctx c)
             (λ ctx0 c0, bool_decide (ctx = ctx0) && bool_decide (c = c0)) j);
    [| lia | | apply length_replicate | exact Hj].
  - rewrite count_at_untrained. unfold ngram_occurrences. simpl. f_equal.
    apply filter_ext_positions. intros i _.
    unfold position_hit, occurs_at, context_at.
    destruct (i >=? j - 1); [| reflexivity]. simpl.
    destruct (PyStr.index (stream st wt corpus n0) i) as [nc|].
    + apply eq_true_iff_eq. rewrite !andb_true_iff, !bool_decide_eq_true.
      split; intros [H1 H2]; split; congruence.
    + rewrite andb_false_r. reflexivity.
  - intros cs j0 ctx0 c0 Hlt.
    rewrite count_at_incr by (exact Hlt || lia).
    f_equal. f_equal. rewrite <- andb_assoc. reflexivity.
Qed.

Lemma total_at_sum_at m j ctx :
  tables_ok m → total_at (contexts m) j ctx = sum_at (counts m) j ctx.
Proof.
  intros (_ & Htot & _). unfold total_at, sum_at, list_index.
  rewrite Htot, length_fmap.
  destruct (_ <? 0); [reflexivity |].
  rewrite list_lookup_fmap.
  destruct (counts m !! _) as [cnt|]; simpl; [| reflexivity].
  rewrite totals_of_lookup. destruct (cnt !! ctx); simpl; [reflexivity |].
  rewrite sum_counts_empty. reflexivity.
Qed.

(** The sum of the counts under a context after training from empty
    tables is the number of visited positions preceded by that context. *)
Lemma sum_at_train_counts (corpus : string) (self_n j : Z) (ctx : string) :
  1 ≤ j ≤ self_n →
  sum_at (train_counts corpus self_n (replicate (Z.to_nat (self_n + 1)) ∅)) j ctx
  = context_occurrences corpus self_n j ctx.
Proof.
  intros Hj.
  rewrite (measure_train_counts (λ cs, sum_at cs j ctx)
             (λ ctx0 _, bool_decide (ctx = ctx0)) j);
    [| lia | | apply length_replicate | exact Hj].
  - rewrite sum_at_untrained. unfold context_occurrences. simpl. f_equal.
    apply filter_ext_positions. intros i Hi.
    apply elem_of_range in Hi.
    unfold position_hit, context_at.
    destruct (i >=? j - 1); [| reflexivity]. simpl.
    destruct (index_in_range corpus i) as [nc ->]; [lia |].
    apply eq_true_iff_eq. rewrite !bool_decide_eq_true. split; congruence.
  - intros cs j0 ctx0 c0 Hlt. apply sum_at_incr; [exact Hlt | lia].
Qed.

(** On well-formed tables a context is a key exactly when the sum of its
    counts is positive. *)
Lemma context_key_iff_sum m j cnt ctx :
  tables_ok m → 1 ≤ j ≤ n m → list_index (counts m) j = Some cnt →
  is_Some (cnt !! ctx) ↔ (1 ≤ sum_at (counts m) j ctx)%nat.
Proof.
  intros Hm Hj Hcnt.
  destruct (tables_ok_order m j Hm Hj) as (cnt' & Hcnt' & _ & Hord).
  assert (cnt' = cnt) as -> by congruence.
  unfold sum_at. rewrite Hcnt.
  destruct (cnt !! ctx) as [inner|] eqn:Hin; simpl.
  - split; [intros _; apply (Hord ctx inner Hin) | eauto].
  - rewrite sum_counts_empty. split; [intros [? ?]; discriminate | lia].
Qed.

(** X2: after construction the total tables hold exactly the context
    counts of the training stream: for every order [j] in [1, n],
    [contexts[j][ctx]] (0 when the key is missing) is the number of visited
    positions [i >= j - 1] with [stream[i-(j-1):i] = ctx]; and [ctx] is a
    key of [counts[j]] exactly when there is such a position. *)
Theorem totals_are_context_occurrences
    (st wt : string → list string) (corpus : string) (n0 : Z) :
  ∃ m, __init__ st wt corpus n0 = Ok m
       ∧ ∀ j ctx,
           1 ≤ j ≤ n0 →
           total_at (contexts m) j ctx
           = context_occurrences (stream st wt corpus n0) n0 j ctx
           ∧ ∃ cnt, list_index (counts m) j = Some cnt
                    ∧ (is_Some (cnt !! ctx)
                       ↔ (1 ≤ context_occurrences (stream st wt corpus n0) n0 j ctx)%nat).
Proof.
  destruct (init_trained st wt corpus n0) as (m & E & Hm & Hn & Hc).
  exists m. split; [exact E |]. intros j ctx Hj.
  assert (Hsum : sum_at (counts m) j ctx
                 = context_occurrences (stream st wt corpus n0) n0 j ctx).
  { rewrite Hc. apply sum_at_train_counts, Hj. }
  split; [rewrite total_at_sum_at by exact Hm; exact Hsum |].
  destruct (tables_ok_order m j Hm) as (cnt & Hcnt & _); [lia |].
  exists cnt. split; [exact Hcnt |].
  rewrite <- Hsum. apply (context_key_iff_sum m j cnt ctx Hm); [lia | exact Hcnt].
Qed.

(** ** What the backoff tables hold *)

Lemma backoff_setitem_run m0 m j ctx w :
  backoff_inv m0 m → 0 ≤ j ≤ n m0 →
  ∃ m', backoff_setitem j ctx w m = Ok (tt, m') ∧ backoff_inv m0 m'
        ∧ backoff_weights m' = set_weight (backoff_weights m) (Z.to_nat j) ctx w.
Proof.
  intros Hinv Hj. pose proof Hinv as (Hc & Ht & Hf & Hlen).
  destruct (lookup_lt_is_Some_2 (backoff_weights m) (Z.to_nat j)) as [tbl Htbl]; [lia |].
  destruct (backoff_setitem_ok m0 m j ctx w Hinv Hj) as (m' & E & Hinv').
  exists m'. split; [exact E |]. split; [exact Hinv' |].
  unfold backoff_setitem in E. rewrite !bind_run in E. simpl in E.
  rewrite list_index_nonneg, Htbl in E by lia. simpl in E.
  injection E as <-. simpl. unfold set_weight.
  rewrite Htbl, list_pos_nonneg by lia. reflexivity.
Qed.

(** [_calculate_backoff_weights] leaves in [self.backoff_weights] what the
    fold [backoff_tables] computes from the total tables. *)
Lemma backoff_tables_run (m : Model) :
  tables_ok m →
  ∃ m', _calculate_backoff_weights m = Ok (tt, m') ∧ backoff_inv m m'
        ∧ backoff_weights m' = backoff_tables (contexts m) (n m).
Proof.
  intros Hm. pose proof (tables_ok_contexts_length m Hm) as Hlen.
  unfold _calculate_backoff_weights, backoff_tables. rewrite !bind_run. simpl.
  apply (for_fold (backoff_inv m) backoff_weights (backoff_order (contexts m))).
  2:{ split; [reflexivity |]. split; [reflexivity |]. split; [repeat split |].
      simpl. apply length_replicate. }
  intros j m1 Hjr H1. apply elem_of_range in Hjr. simpl in Hjr.
  pose proof H1 as (Hc1 & Ht1 & Hf1 & Hl1).
  destruct (lookup_lt_is_Some_2 (contexts m) (Z.to_nat j)) as [tot Htot]; [lia |].
  destruct (lookup_lt_is_Some_2 (contexts m) (Z.to_nat (j - 1))) as [prev Hprev]; [lia |].
  rewrite bind_run, (contexts_at_run m1 j tot) by (lia || congruence).
  unfold backoff_order. rewrite !list_index_nonneg, Htot, Hprev by lia.
  apply (for_fold (backoff_inv m) backoff_weights); [| exact H1].
  intros ctx m2 _ H2.
  unfold contexts_contains. rewrite !bind_run.
  rewrite (contexts_at_run m2 (j - 1) prev); [| lia |].
  2:{ destruct H2 as (_ & -> & _). exact Hprev. }
  simpl. apply backoff_setitem_run; [exact H2 | lia].
Qed.

Lemma set_weight_length bs j ctx w : length (set_weight bs j ctx w) = length bs.
Proof. unfold set_weight. destruct (bs !! j); [apply length_insert | reflexivity]. Qed.

Lemma weight_at_set_weight bs (j : nat) ctx w (j' : Z) ctx' :
  (j < length bs)%nat → 0 ≤ j' →
  weight_at (set_weight bs j ctx w) j' ctx'
  = if bool_decide (Z.to_nat j' = j ∧ ctx' = ctx) then Some w else weight_at bs j' ctx'.
Proof.
  intros Hj Hj'. unfold weight_at, set_weight.
  rewrite !list_index_nonneg by exact Hj'.
  destruct (lookup_lt_is_Some_2 bs j Hj) as [tbl Htbl]. rewrite Htbl.
  destruct (decide (Z.to_nat j' = j)) as [->|Hne].
  - rewrite list_lookup_insert_eq, Htbl by exact Hj.
    destruct (decide (ctx' = ctx)) as [->|Hc].
    + rewrite lookup_insert_eq, bool_decide_true by auto. reflexivity.
    + rewrite lookup_insert_ne, bool_decide_false by (congruence || tauto). reflexivity.
  - rewrite list_lookup_insert_ne, bool_decide_false by (congruence || tauto). reflexivity.
Qed.

(** The weights written for a list of contexts at one order. *)
Lemma weight_at_set_weights (w : string → Q) (j : nat) (ctxs : list string) bs
    (j' : Z) ctx' :
  (j < length bs)%nat → 0 ≤ j' →
  let bs' := foldl (λ bs ctx, set_weight bs j ctx (w ctx)) bs ctxs in
  length bs' = length bs
  ∧ weight_at bs' j' ctx'
    = if bool_decide (Z.to_nat j' = j ∧ ctx' ∈ ctxs) then Some (w ctx')
      else weight_at bs j' ctx'.
Proof.
  intros Hj Hj'. revert bs Hj. induction ctxs as [|ctx ctxs IH]; intros bs Hj; simpl.
  - split; [reflexivity |].
    rewrite bool_decide_false; [reflexivity |]. intros [_ H]. by apply not_elem_of_nil in H.
  - destruct (IH (set_weight bs j ctx (w ctx))) as [Hl Hw];
      [rewrite set_weight_length; exact Hj |].
    rewrite set_weight_length in Hl. split; [exact Hl |].
    rewrite Hw, weight_at_set_weight by assumption.
    destruct (decide (Z.to_nat j' = j)) as [Hjj|Hjj].
    + destruct (decide (ctx' ∈ ctxs)) as [Hin|Hin].
      * rewrite !bool_decide_true; [reflexivity | | ]; split; auto. by right.
      * rewrite (bool_decide_false (_ ∧ ctx' ∈ ctxs)) by tauto.
        destruct (decide (ctx' = ctx)) as [->|Hne].
        -- rewrite !bool_decide_true; [reflexivity | | ]; split; auto. left.
        -- rewrite !bool_decide_false; [reflexivity | |]; intros [_ H]; [| tauto].
           apply elem_of_cons in H as [?|?]; contradiction.
    + rewrite !bool_decide_false by tauto. reflexivity.
Qed.

Lemma elem_of_map_keys {V} (tbl : gmap string V) (ctx : string) :
  ctx ∈ (fst <$> map_to_list tbl) ↔ is_Some (tbl !! ctx).
Proof.
  rewrite list_elem_of_fmap. split.
  - intros ([k v] & -> & Hin). apply elem_of_map_to_list in Hin. eauto.
  - intros [v Hv]. exists (ctx, v). split; [reflexivity |].
    apply elem_of_map_to_list. exact Hv.
Qed.

Lemma backoff_order_spec ts bs j tbl prev (j' : Z) ctx' :
  list_index ts j = Some tbl → list_index ts (j - 1) = Some prev →
  (Z.to_nat j < length bs)%nat → 0 ≤ j' →
  length (backoff_order ts bs j) = length bs
  ∧ weight_at (backoff_order ts bs j) j' ctx'
    = if bool_decide (Z.to_nat j' = Z.to_nat j ∧ is_Some (tbl !! ctx'))
      then Some (backoff_weight prev ctx')
      else weight_at bs j' ctx'.
Proof.
  intros Ht Hp Hlt Hj'. unfold backoff_order. rewrite Ht, Hp.
  destruct (weight_at_set_weights (backoff_weight prev) (Z.to_nat j)
              (fst <$> map_to_list tbl) bs j' ctx' Hlt Hj') as [Hl Hw].
  split; [exact Hl |]. rewrite Hw.
  rewrite (bool_decide_ext _ (Z.to_nat j' = Z.to_nat j ∧ is_Some (tbl !! ctx')));
    [reflexivity |].
  rewrite elem_of_map_keys. reflexivity.
Qed.

Lemma weight_at_backoff_orders ts (self_n : Z) (js : list Z) bs (j' : Z) ctx' :
  length ts = Z.to_nat (self_n + 1) → length bs = Z.to_nat (self_n + 1) →
  (∀ j, j ∈ js → 2 ≤ j ≤ self_n) → 0 ≤ j' →
  length (foldl (backoff_order ts) bs js) = length bs
  ∧ weight_at (foldl (backoff_order ts) bs js) j' ctx'
    = match list_index ts j', list_index ts (j' - 1) with
      | Some tbl, Some prev =>
          if bool_decide (j' ∈ js ∧ is_Some (tbl !! ctx'))
          then Some (backoff_weight prev ctx')
          else weight_at bs j' ctx'
      | _, _ => weight_at bs j' ctx'
      end.
Proof.
  intros Hts Hbs Hjs Hj'. revert bs Hbs.
  induction js as [|j js IH]; intros bs Hbs.
  - cbn [foldl]. split; [reflexivity |].
    destruct (list_index ts j') as [tbl|]; [| reflexivity].
    destruct (list_index ts (j' - 1)) as [prev|]; [| reflexivity].
    rewrite bool_decide_false; [reflexivity |].
    intros [H _]. by apply not_elem_of_nil in H.
  - assert (Hj : 2 ≤ j ≤ self_n) by (apply Hjs; left).
    destruct (lookup_lt_is_Some_2 ts (Z.to_nat j)) as [tbl_j Htj]; [lia |].
    destruct (lookup_lt_is_Some_2 ts (Z.to_nat (j - 1))) as [prev_j Hpj]; [lia |].
    destruct (backoff_order_spec ts bs j tbl_j prev_j j' ctx') as [Hl1 Hw1];
      [rewrite list_index_nonneg by lia; exact Htj
      |rewrite list_index_nonneg by lia; exact Hpj | lia | exact Hj' |].
    destruct (IH (λ x Hx, Hjs x (list_elem_of_further _ _ _ Hx))
                 (backoff_order ts bs j)) as [Hl2 Hw2]; [congruence |].
    cbn [foldl]. split; [congruence |]. rewrite Hw2, Hw1. clear Hw1 Hw2.
    destruct (list_index ts j') as [tbl|] eqn:Et.
    2:{ rewrite bool_decide_false; [reflexivity |]. intros [Hz _].
        rewrite list_index_nonneg in Et by lia.
        assert (j' = j) as -> by lia. congruence. }
    destruct (list_index ts (j' - 1)) as [prev|] eqn:Ep.
    2:{ rewrite bool_decide_false; [reflexivity |]. intros [Hz _].
        assert (j' = j) as -> by lia.
        rewrite list_index_nonneg in Ep by lia. congruence. }
    destruct (decide (j' = j)) as [->|Hne].
    + rewrite list_index_nonneg in Et, Ep by lia.
      assert (tbl = tbl_j) as -> by congruence.
      assert (prev = prev_j) as -> by congruence.
      destruct (decide (is_Some (tbl_j !! ctx'))) as [Hk|Hk].
      * rewrite (bool_decide_true (_ = _ ∧ _)) by auto.
        rewrite (bool_decide_true (j ∈ j :: js ∧ _)) by (split; [left | exact Hk]).
        destruct (bool_decide (j ∈ js ∧ _)); reflexivity.
      * rewrite !bool_decide_false by tauto. reflexivity.
    + rewrite (bool_decide_false (_ = _ ∧ _)) by lia.
      apply (f_equal (λ b : bool, if b then _ else _)).
      apply bool_decide_ext. rewrite elem_of_cons. tauto.
Qed.

(** The weight tables after [_calculate_backoff_weights], entry by entry. *)
Lemma weight_at_backoff_tables ts (self_n : Z) (j : Z) ctx :
  length ts = Z.to_nat (self_n + 1) → 0 ≤ j ≤ self_n →
  length (backoff_tables ts self_n) = Z.to_nat (self_n + 1)
  ∧ weight_at (backoff_tables ts self_n) j ctx
    = match list_index ts j, list_index ts (j - 1) with
      | Some tbl, Some prev =>
          if bool_decide (2 ≤ j ∧ is_Some (tbl !! ctx))
          then Some (backoff_weight prev ctx) else None
      | _, _ => None
      end.
Proof.
  intros Hts Hj. unfold backoff_tables.
  destruct (weight_at_backoff_orders ts self_n (range 2 (self_n + 1))
              (replicate (Z.to_nat (self_n + 1)) ∅) j ctx) as [Hl Hw];
    [exact Hts | apply length_replicate | | lia |].
  { intros x Hx. apply elem_of_range in Hx. lia. }
  rewrite length_replicate in Hl. split; [exact Hl |]. rewrite Hw.
  assert (Hnone : weight_at (replicate (Z.to_nat (self_n + 1)) ∅) j ctx = None).
  { unfold weight_at.
    destruct (list_index (replicate (Z.to_nat (self_n + 1)) (∅ : gmap string Q)) j)
      as [t|] eqn:E; [| reflexivity].
    apply list_index_replicate in E as ->. apply lookup_empty. }
  rewrite Hnone.
  destruct (list_index ts j) as [tbl|]; [| reflexivity].
  destruct (list_index ts (j - 1)) as [prev|]; [| reflexivity].
  apply (f_equal (λ b : bool, if b then _ else _)).
  apply bool_decide_ext. rewrite elem_of_range. intuition lia.
Qed.

(** Construction, with the count and the weight tables as the folds
    compute them. *)
Lemma init_tables (st wt : string → list string) (corpus : string) (n0 : Z) :
  ∃ m, __init__ st wt corpus n0 = Ok m ∧ tables_ok m ∧ n m = n0
       ∧ counts m = train_counts (stream st wt corpus n0) n0
                      (replicate (Z.to_nat (n0 + 1)) ∅)
       ∧ backoff_weights m = backoff_tables (contexts m) n0.
Proof.
  unfold __init__, stream.
  set (ws := token_list st wt corpus n0).
  match goal with |- context [_ ?self] =>
    match type of self with Model => set (m0 := self) end end.
  destruct (train_counts_run (PyStr.join " " ws) m0 (initial_tables_ok _ _ _))
    as (m1 & E1 & (Hok1 & (Hn1 & _) & _) & Hc1).
  destruct (backoff_tables_run m1 Hok1) as (m2 & E2 & (Hc2 & Ht2 & (Hn2 & _) & _) & Hb2).
  exists m2. rewrite bind_run, E1, E2. split; [reflexivity |].
  split; [| split; [| split]].
  - destruct Hok1 as (Hl & Hfm & Hall & Hkeys).
    split; [| split; [| split]]; rewrite ?Hc2, ?Ht2, ?Hn2; assumption.
  - rewrite Hn2, Hn1. reflexivity.
  - rewrite Hc2, Hc1. reflexivity.
  - rewrite Hb2, Ht2, Hn1. reflexivity.
Qed.

(** X3: after construction there is one weight table per order [0 .. n];
    at an order [j] from 2 to [n] the keys of [backoff_weights[j]] are the
    keys of [contexts[j]], and the weight of a context is 0.4 when the
    context without its first character is a key of [contexts[j - 1]] and
    0.1 otherwise; the tables of the orders 0 and 1 stay empty. *)
Theorem backoff_weights_follow_contexts
    (st wt : string → list string) (corpus : string) (n0 : Z) :
  ∃ m, __init__ st wt corpus n0 = Ok m
       ∧ length (backoff_weights m) = Z.to_nat (n0 + 1)
       ∧ (∀ j ctx, 0 ≤ j ≤ 1 → weight_at (backoff_weights m) j ctx = None)
       ∧ ∀ j, 2 ≤ j ≤ n0 →
           ∃ tbl prev,
             list_index (contexts m) j = Some tbl
             ∧ list_index (contexts m) (j - 1) = Some prev
             ∧ ∀ ctx,
                 weight_at (backoff_weights m) j ctx
                 = if bool_decide (is_Some (tbl !! ctx))
                   then Some (if bool_decide (is_Some (prev !! PyStr.slice_from ctx 1))
                              then (4 # 10)%Q else (1 # 10)%Q)
                   else None.
Proof.
  destruct (init_tables st wt corpus n0) as (m & E & Hm & Hn & _ & Hb).
  pose proof (tables_ok_contexts_length m Hm) as Hlen. rewrite Hn in Hlen.
  exists m. split; [exact E |]. rewrite Hb. split; [| split].
  - destruct (Z_le_gt_dec 0 n0) as [H0|H0].
    + apply (weight_at_backoff_tables (contexts m) n0 0 ""); [exact Hlen | lia].
    + unfold backoff_tables, range. rewrite seqZ_nil by lia. apply length_replicate.
  - intros j ctx Hj.
    destruct (Z_le_gt_dec j n0) as [Hjn|Hjn].
    + destruct (weight_at_backoff_tables (contexts m) n0 j ctx Hlen) as [_ Hw]; [lia |].
      rewrite Hw.
      destruct (list_index (contexts m) j); [| reflexivity].
      destruct (list_index (contexts m) (j - 1)); [| reflexivity].
      rewrite bool_decide_false by lia. reflexivity.
    + unfold backoff_tables, range. rewrite seqZ_nil by lia. simpl.
      unfold weight_at.
      destruct (list_index (replicate (Z.to_nat (n0 + 1)) (∅ : gmap string Q)) j)
        as [t|] eqn:Et; [| reflexivity].
      apply list_index_replicate in Et as ->. apply lookup_empty.
  - intros j Hj.
    destruct (lookup_lt_is_Some_2 (contexts m) (Z.to_nat j)) as [tbl Ht]; [lia |].
    destruct (lookup_lt_is_Some_2 (contexts m) (Z.to_nat (j - 1))) as [prev Hp]; [lia |].
    exists tbl, prev. rewrite !list_index_nonneg by lia.
    split; [exact Ht |]. split; [exact Hp |]. intros ctx.
    destruct (weight_at_backoff_tables (contexts m) n0 j ctx Hlen) as [_ Hw]; [lia |].
    rewrite Hw, !list_index_nonneg, Ht, Hp by lia.
    apply (f_equal (λ b : bool, if b then _ else _)).
    apply bool_decide_ext. intuition lia.
Qed.

(** ** The 0.1 weight is never written *)

Lemma drop_drop (a b : nat) (s : string) :
  PyStr.drop a (PyStr.drop b s) = PyStr.drop (b + a) s.
Proof.
  revert s. induction b as [|b IH]; intros s; simpl; [reflexivity |].
  destruct s as [|c s]; [destruct a; reflexivity | apply IH].
Qed.

Lemma drop_one_take (k : nat) (s : string) :
  PyStr.drop 1 (PyStr.take (S k) s) = PyStr.take k (PyStr.drop 1 s).
Proof. destruct s as [|c s]; [destruct k; reflexivity | reflexivity]. Qed.

Lemma slice_from_one (t : string) :
  (1 ≤ String.length t)%nat → PyStr.slice_from t 1 = PyStr.drop 1 t.
Proof.
  intros Ht. unfold PyStr.slice_from, PyStr.clamp, PyStr.len. simpl.
  replace (Z.to_nat (Z.min 1 (Z.of_nat (String.length t)))) with 1%nat by lia.
  reflexivity.
Qed.

Lemma slice_inside (s : string) (lo hi : Z) :
  0 ≤ lo ≤ hi → hi ≤ PyStr.len s →
  PyStr.slice s lo hi = PyStr.take (Z.to_nat (hi - lo)) (PyStr.drop (Z.to_nat lo) s).
Proof.
  intros Hlo Hhi. unfold PyStr.slice, PyStr.clamp.
  destruct (lo <? 0) eqn:E1; [apply Z.ltb_lt in E1; lia |].
  destruct (hi <? 0) eqn:E2; [apply Z.ltb_lt in E2; lia |].
  rewrite (Z.min_l lo), (Z.min_l hi) by lia. reflexivity.
Qed.

(** Dropping the first character of the [j - 1] characters before
    position [i] gives the [j - 2] characters before it. *)
Lemma slice_drop_first (s : string) (i j : Z) :
  2 ≤ j → j - 1 ≤ i → i ≤ PyStr.len s →
  PyStr.slice_from (PyStr.slice s (i - (j - 1)) i) 1
  = PyStr.slice s (i - (j - 1 - 1)) i.
Proof.
  intros Hj Hi Hlen.
  rewrite slice_from_one by (rewrite slice_length by lia; lia).
  rewrite !slice_inside by lia.
  replace (Z.to_nat (i - (i - (j - 1)))) with (S (Z.to_nat (i - (i - (j - 1 - 1))))) by lia.
  rewrite drop_one_take, drop_drop. f_equal. f_equal. lia.
Qed.

Lemma filter_length_pos {A} (p : A → bool) (xs : list A) :
  (1 ≤ length (List.filter p xs))%nat ↔ ∃ x, x ∈ xs ∧ p x = true.
Proof.
  split.
  - intros H. destruct (List.filter p xs) as [|x l] eqn:E; [simpl in H; lia |].
    exists x. assert (Hin : In x (List.filter p xs)) by (rewrite E; left; reflexivity).
    apply filter_In in Hin as [Hin Hp]. split; [apply list_elem_of_In, Hin | exact Hp].
  - intros (x & Hx & Hp).
    assert (Hin : In x (List.filter p xs)).
    { apply filter_In. split; [apply list_elem_of_In, Hx | exact Hp]. }
    destruct (List.filter p xs); [destruct Hin | simpl; lia].
Qed.

(** A context met at order [j ≥ 2] is met, without its first character,
    at order [j - 1], at the same positions. *)
Lemma shorter_context_occurs (corpus : string) (self_n j : Z) (ctx : string) :
  2 ≤ j ≤ self_n →
  (1 ≤ context_occurrences corpus self_n j ctx)%nat →
  (1 ≤ context_occurrences corpus self_n (j - 1) (PyStr.slice_from ctx 1))%nat.
Proof.
  intros Hj. unfold context_occurrences. rewrite !filter_length_pos.
  intros (i & Hi & Hp). exists i. split; [exact Hi |].
  apply elem_of_range in Hi.
  unfold context_at in *. apply andb_true_iff in Hp as [Hge Hs].
  apply Z.geb_le in Hge. apply bool_decide_eq_true in Hs.
  apply andb_true_iff. split; [apply Z.geb_le; lia |].
  apply bool_decide_eq_true. rewrite <- Hs. symmetry.
  apply slice_drop_first; lia.
Qed.

Lemma contexts_key_iff m (k : nat) cnt tbl ctx :
  tables_ok m → counts m !! k = Some cnt → contexts m !! k = Some tbl →
  is_Some (tbl !! ctx) ↔ is_Some (cnt !! ctx).
Proof.
  intros (_ & Htot & _) Hc Ht.
  rewrite Htot, list_lookup_fmap, Hc in Ht. injection Ht as <-.
  rewrite totals_of_lookup, fmap_is_Some. reflexivity.
Qed.

(** X4: on every constructed model every backoff weight is 0.4: a context
    seen at order [j] always has its shorter context seen at order
    [j - 1], so the branch that writes 0.1 is never taken. *)
Theorem backoff_weights_are_all_high
    (st wt : string → list string) (corpus : string) (n0 : Z) :
  ∃ m, __init__ st wt corpus n0 = Ok m
       ∧ ∀ tbl ctx w,
           tbl ∈ backoff_weights m → tbl !! ctx = Some w → w = (4 # 10)%Q.
Proof.
  destruct (init_tables st wt corpus n0) as (m & E & Hm & Hn & Hc & Hb).
  pose proof (tables_ok_contexts_length m Hm) as Hlen. rewrite Hn in Hlen.
  exists m. split; [exact E |]. intros tbl ctx w Hin Hw.
  apply list_elem_of_lookup in Hin as [k Hk].
  assert (Hk' : (k < Z.to_nat (n0 + 1))%nat).
  { apply lookup_lt_Some in Hk. rewrite Hb in Hk.
    destruct (Z_le_gt_dec 0 n0) as [H0|H0].
    - destruct (weight_at_backoff_tables (contexts m) n0 0 "" Hlen) as [Hl _]; lia.
    - unfold backoff_tables, range in Hk. rewrite seqZ_nil in Hk by lia.
      simpl in Hk. rewrite length_replicate in Hk. exact Hk. }
  destruct (weight_at_backoff_tables (contexts m) n0 (Z.of_nat k) ctx Hlen) as [_ Hwa];
    [lia |].
  unfold weight_at in Hwa at 1.
  rewrite <- Hb, (list_index_nonneg (backoff_weights m)), Nat2Z.id, Hk, Hw in Hwa by lia.
  destruct (list_index (contexts m) (Z.of_nat k)) as [tot|] eqn:Et; [| discriminate].
  destruct (list_index (contexts m) (Z.of_nat k - 1)) as [prev|] eqn:Ep; [| discriminate].
  destruct (decide (2 ≤ Z.of_nat k ∧ is_Some (tot !! ctx))) as [[Hk2 Hkey]|Hno];
    [| rewrite bool_decide_false in Hwa by exact Hno; discriminate].
  rewrite bool_decide_true in Hwa by auto. injection Hwa as ->.
  rewrite list_index_nonneg in Et, Ep by lia. rewrite Nat2Z.id in Et.
  unfold backoff_weight. rewrite bool_decide_true; [reflexivity |].
  destruct (lookup_lt_is_Some_2 (counts m) k) as [cnt Hcnt];
    [destruct Hm as (-> & _); lia |].
  destruct (lookup_lt_is_Some_2 (counts m) (Z.to_nat (Z.of_nat k - 1))) as [cntp Hcntp];
    [destruct Hm as (-> & _); lia |].
  apply (contexts_key_iff m k cnt tot ctx Hm Hcnt Et) in Hkey.
  apply (contexts_key_iff m _ cntp prev _ Hm Hcntp Ep).
  apply (context_key_iff_sum m (Z.of_nat k - 1) cntp); [exact Hm | lia | |].
  { rewrite list_index_nonneg by lia. exact Hcntp. }
  apply (context_key_iff_sum m (Z.of_nat k) cnt) in Hkey; [| exact Hm | lia |].
  2:{ rewrite list_index_nonneg, Nat2Z.id by lia. exact Hcnt. }
  rewrite Hc in *. rewrite sum_at_train_counts in * by lia.
  apply shorter_context_occurs; [lia | exact Hkey].
Qed.

(** ** The tables of order 0 *)

Lemma incr_count_other cs (j k : nat) ctx c :
  k ≠ j → incr_count cs j ctx c !! k = cs !! k.
Proof.
  intros Hne. unfold incr_count. destruct (cs !! j); [| reflexivity].
  apply list_lookup_insert_ne. congruence.
Qed.

Lemma train_counts_order_zero corpus self_n cs :
  train_counts corpus self_n cs !! 0%nat = cs !! 0%nat.
Proof.
  unfold train_counts.
  apply (foldl_measure (λ s, s !! 0%nat = cs !! 0%nat) (λ _, O)
           (train_position corpus self_n) (λ _, O)); [| reflexivity].
  intros s i _ Hs. split; [| reflexivity]. unfold train_position.
  apply (foldl_measure (λ s, s !! 0%nat = cs !! 0%nat) (λ _, O) _ (λ _, O));
    [| exact Hs].
  intros s' j Hj Hs'. apply elem_of_range in Hj. split; [| reflexivity].
  destruct (i >=? j - 1); [| exact Hs'].
  destruct (PyStr.index corpus i); [| exact Hs'].
  rewrite incr_count_other by lia. exact Hs'.
Qed.

(** X5: the tables at index 0 are allocated and never written.  After
    construction with an order [n ≥ 0], [counts[0]] and [contexts[0]]
    exist and are empty, whatever the corpus; with a negative order no
    table is allocated at all: [counts] and [contexts] are empty lists. *)
Theorem order_zero_tables_stay_empty
    (st wt : string → list string) (corpus : string) (n0 : Z) :
  ∃ m, __init__ st wt corpus n0 = Ok m
       ∧ (0 ≤ n0 →
          list_index (counts m) 0 = Some ∅ ∧ list_index (contexts m) 0 = Some ∅)
       ∧ (n0 < 0 → counts m = [] ∧ contexts m = []).
Proof.
  destruct (init_tables st wt corpus n0) as (m & E & Hm & Hn & Hc & _).
  exists m. split; [exact E |].
  assert (H0 : ∀ cnt, counts m !! 0%nat = Some cnt → cnt = ∅).
  { intros cnt. rewrite Hc, train_counts_order_zero.
    intros H. apply lookup_replicate in H as [-> _]. reflexivity. }
  destruct Hm as (Hlen & Htot & _). rewrite Hn in Hlen.
  split.
  - intros Hpos. rewrite !list_index_nonneg by lia.
    destruct (lookup_lt_is_Some_2 (counts m) (Z.to_nat 0)) as [cnt Hcnt]; [lia |].
    rewrite Htot, list_lookup_fmap, Hcnt, (H0 cnt Hcnt).
    split; [reflexivity |]. simpl. unfold totals_of. rewrite fmap_empty. reflexivity.
  - intros Hneg.
    assert (Hnil : counts m = []) by (apply length_zero_iff_nil; lia).
    rewrite Htot, Hnil. split; reflexivity.
Qed.

(** ** The normalised corpus text *)

Ltac all_ascii c := destruct c as [[|] [|] [|] [|] [|] [|] [|] [|]].

Lemma lower_char_kept (a : ascii) :
  PyStr.is_letter (PyStr.lower_char a) || PyStr.is_space (PyStr.lower_char a) = true →
  is_lower_letter (PyStr.lower_char a) = negb (PyStr.is_space (PyStr.lower_char a)).
Proof. all_ascii a; vm_compute; intros H; first [reflexivity | discriminate]. Qed.

Lemma lower_letter_not_space (c : ascii) :
  is_lower_letter c = true → PyStr.is_space c = false.
Proof. all_ascii c; vm_compute; intros H; first [reflexivity | discriminate]. Qed.

Lemma lower_letter_fixed (c : ascii) :
  is_lower_letter c = true →
  PyStr.lower_char c = c ∧ PyStr.is_letter c = true.
Proof. all_ascii c; vm_compute; intros H; first [split; reflexivity | discriminate]. Qed.

Lemma spaced_sub_spaces (b : bool) (x : string) :
  spaced b (PyStr.sub_spaces_from b (PyStr.sub_non_letters (PyStr.lower x))) = true.
Proof.
  revert b. induction x as [|a x IH]; intros b; [reflexivity |].
  cbn [PyStr.lower PyStr.sub_non_letters].
  destruct (PyStr.is_letter (PyStr.lower_char a) || PyStr.is_space (PyStr.lower_char a))
    eqn:Hk; [| apply IH].
  apply lower_char_kept in Hk. cbn [PyStr.sub_spaces_from].
  destruct (PyStr.is_space (PyStr.lower_char a)); simpl in Hk.
  - destruct b; [apply IH |]. cbn [spaced].
    change (is_lower_letter " ") with false. change (Ascii.eqb " " " ") with true.
    simpl. apply IH.
  - cbn [spaced]. rewrite Hk. apply IH.
Qed.

Lemma spaced_lstrip (t : string) :
  spaced false t = true → spaced true (PyStr.lstrip t) = true.
Proof.
  destruct t as [|c t]; [reflexivity |]. cbn [spaced PyStr.lstrip].
  destruct (is_lower_letter c) eqn:Hc.
  - rewrite (lower_letter_not_space c Hc). cbn [spaced]. rewrite Hc. auto.
  - intros H. apply andb_prop in H as [H Ht]. apply andb_prop in H as [Hsp _].
    apply Ascii.eqb_eq in Hsp as ->. change (PyStr.is_space " ") with true.
    destruct t as [|c' t]; [reflexivity |]. cbn [spaced PyStr.lstrip] in *.
    destruct (is_lower_letter c') eqn:Hc';
      [| simpl in Ht; rewrite andb_false_r in Ht; discriminate].
    rewrite (lower_letter_not_space c' Hc'). cbn [spaced]. rewrite Hc'. exact Ht.
Qed.

Lemma words_ok_rstrip (b : bool) (s : string) :
  spaced b s = true →
  match PyStr.rstrip s with
  | EmptyString => True
  | r => words_ok b r = true
  end.
Proof.
  revert b. induction s as [|c s IH]; intros b; [exact (λ _, I) |].
  cbn [spaced PyStr.rstrip]. destruct (is_lower_letter c) eqn:Hc.
  - intros H. specialize (IH false H).
    destruct (PyStr.rstrip s) as [|c' r].
    + rewrite (lower_letter_not_space c Hc). cbn [words_ok]. rewrite Hc. reflexivity.
    + cbn [words_ok] in *. rewrite Hc. exact IH.
  - intros H. apply andb_prop in H as [H Hs]. apply andb_prop in H as [Hsp Hb].
    apply Ascii.eqb_eq in Hsp as ->. specialize (IH true Hs).
    destruct (PyStr.rstrip s) as [|c' r]; [exact I |].
    cbn [words_ok] in *. change (is_lower_letter " ") with false.
    change (Ascii.eqb " " " ") with true. rewrite Hb. exact IH.
Qed.

Lemma normal_text_normalize (corpus : string) :
  normal_text (normalize corpus) = true.
Proof.
  unfold normalize, PyStr.strip, PyStr.sub_spaces.
  pose proof (spaced_sub_spaces false corpus) as H.
  apply spaced_lstrip, words_ok_rstrip in H. unfold normal_text.
  destruct (PyStr.rstrip _); [reflexivity | exact H].
Qed.

Lemma words_ok_chars (b : bool) (s : string) :
  words_ok b s = true →
  PyStr.lower s = s ∧ PyStr.sub_non_letters s = s.
Proof.
  revert b. induction s as [|c s IH]; intros b; [auto |].
  cbn [words_ok PyStr.lower PyStr.sub_non_letters].
  destruct (is_lower_letter c) eqn:Hc.
  - intros H. destruct (IH _ H) as [H1 H2].
    destruct (lower_letter_fixed c Hc) as [Hl Hk].
    rewrite Hk. simpl. split; congruence.
  - intros H. apply andb_prop in H as [H Hs]. apply andb_prop in H as [Hsp _].
    apply Ascii.eqb_eq in Hsp as ->. destruct (IH _ Hs) as [H1 H2].
    change (PyStr.lower_char " ") with " "%char.
    change (PyStr.is_letter " " || PyStr.is_space " ") with true.
    split; congruence.
Qed.

Lemma words_ok_sub_spaces (b r : bool) (s : string) :
  words_ok b s = true → (r = true → b = true) → PyStr.sub_spaces_from r s = s.
Proof.
  revert b r. induction s as [|c s IH]; intros b r; [reflexivity |].
  cbn [words_ok PyStr.sub_spaces_from]. destruct (is_lower_letter c) eqn:Hc.
  - intros H _. rewrite (lower_letter_not_space c Hc).
    f_equal. apply (IH false false H). discriminate.
  - intros H Hr. apply andb_prop in H as [H Hs]. apply andb_prop in H as [Hsp Hb].
    apply Ascii.eqb_eq in Hsp as ->. change (PyStr.is_space " ") with true.
    destruct r; [rewrite Hr in Hb by reflexivity; discriminate |].
    f_equal. apply (IH true true Hs). reflexivity.
Qed.

Lemma words_ok_rstrip_fixed (b : bool) (s : string) :
  words_ok b s = true → PyStr.rstrip s = s.
Proof.
  revert b. induction s as [|c s IH]; intros b; [reflexivity |].
  cbn [words_ok PyStr.rstrip]. destruct (is_lower_letter c) eqn:Hc.
  - intros H. rewrite (IH _ H). rewrite (lower_letter_not_space c Hc).
    destruct s; reflexivity.
  - intros H. apply andb_prop in H as [H Hs]. rewrite (IH _ Hs).
    destruct s; [discriminate | reflexivity].
Qed.

Lemma words_ok_lstrip_fixed (s : string) :
  words_ok true s = true → PyStr.lstrip s = s.
Proof.
  destruct s as [|c s]; [reflexivity |]. cbn [words_ok PyStr.lstrip].
  destruct (is_lower_letter c) eqn:Hc.
  - rewrite (lower_letter_not_space c Hc). reflexivity.
  - simpl. rewrite andb_false_r. discriminate.
Qed.

Lemma normalize_fixed (s : string) :
  normal_text s = true → normalize s = s.
Proof.
  destruct s as [|c s]; [reflexivity |]. unfold normal_text. intros H.
  unfold normalize, PyStr.strip, PyStr.sub_spaces.
  destruct (words_ok_chars _ _ H) as [-> ->].
  rewrite (words_ok_sub_spaces true false _ H) by discriminate.
  rewrite (words_ok_lstrip_fixed _ H). apply (words_ok_rstrip_fixed _ _ H).
Qed.

(** X6: whatever the corpus, the text handed to the tokenizers is empty
    or made of lower-case letters [a-z] in words separated by single
    spaces, with no space in front or at the end. *)
Theorem normalize_gives_normal_text (corpus : string) :
  normal_text (normalize corpus) = true.
Proof. apply normal_text_normalize. Qed.

(** X7: a text that is already normal (lower-case words separated by
    single spaces) goes through the normalisation unchanged. *)
Theorem normalize_keeps_normal_text (s : string) :
  normal_text s = true → normalize s = s.
Proof. apply normalize_fixed. Qed.

Lemma normalize_keeps_normal_text_witness :
  normal_text "the cat sat" = true ∧ normalize "the cat sat" = "the cat sat".
Proof.
  split; [reflexivity |].
  apply (normalize_keeps_normal_text "the cat sat"). reflexivity.
Defined.

(** Normalising twice is normalising once. *)
Lemma normalize_idempotent (corpus : string) :
  normalize (normalize corpus) = normalize corpus.
Proof. apply normalize_fixed, normal_text_normalize. Qed.

(** ** Vocabulary and word frequencies *)

Lemma Counter_fold (acc : gmap string nat) (ws : list string) (w : string) :
  foldl (λ c x, <[x := S (default O (c !! x))]> c) acc ws !! w
  = match occurrences w ws with
    | O => acc !! w
    | S k => Some (default O (acc !! w) + S k)%nat
    end.
Proof.
  revert acc. induction ws as [|x ws IH]; intros acc; [reflexivity |].
  cbn [foldl]. rewrite IH. unfold occurrences. cbn [List.filter].
  destruct (decide (x = w)) as [->|Hne].
  - rewrite bool_decide_true by reflexivity. cbn [length].
    rewrite lookup_insert_eq. simpl.
    destruct (length _); f_equal; lia.
  - rewrite bool_decide_false by exact Hne.
    rewrite lookup_insert_ne by exact Hne. reflexivity.
Qed.

Lemma Counter_lookup (ws : list string) (w : string) :
  Counter ws !! w
  = match occurrences w ws with O => None | S k => Some (S k) end.
Proof.
  unfold Counter. rewrite Counter_fold, lookup_empty. reflexivity.
Qed.

Lemma occurrences_pos (w : string) (ws : list string) :
  (1 ≤ occurrences w ws)%nat ↔ w ∈ ws.
Proof.
  unfold occurrences. rewrite filter_length_pos. split.
  - intros (x & Hx & Hp). apply bool_decide_eq_true in Hp. congruence.
  - intros Hw. exists w. split; [exact Hw | apply bool_decide_eq_true; reflexivity].
Qed.

Lemma vocabulary_of_spec (ws : list string) :
  NoDup (vocabulary_of ws)
  ∧ ∀ w, w ∈ vocabulary_of ws ↔ w ∈ ws ∧ w ≠ "^" ∧ w ≠ "$".
Proof.
  unfold vocabulary_of. split; [apply NoDup_elements |].
  intros w. rewrite elem_of_elements, elem_of_list_to_set, list_elem_of_In, filter_In.
  rewrite <- list_elem_of_In. unfold is_marker.
  rewrite negb_true_iff, orb_false_iff, !bool_decide_eq_false. reflexivity.
Qed.

(** X8: after construction the vocabulary [self.words] has no repetition
    and holds exactly the tokens of the corpus other than the markers
    "^" and "$". *)
Theorem vocabulary_is_the_set_of_tokens
    (st wt : string → list string) (corpus : string) (n0 : Z) :
  ∃ m, __init__ st wt corpus n0 = Ok m
       ∧ NoDup (words m)
       ∧ ∀ w, w ∈ words m
              ↔ w ∈ token_list st wt corpus n0 ∧ w ≠ "^" ∧ w ≠ "$".
Proof.
  destruct (init_ok st wt corpus n0) as (m & E & _ & _ & Hw & _).
  exists m. split; [exact E |]. rewrite Hw. apply vocabulary_of_spec.
Qed.

(** X9: after construction [self.word_freq] counts the tokens: a word has
    an entry exactly when it stands in the token list (markers included),
    and the entry is the number of its occurrences; every vocabulary word
    has a frequency of at least 1. *)
Theorem word_freq_counts_tokens
    (st wt : string → list string) (corpus : string) (n0 : Z) :
  ∃ m, __init__ st wt corpus n0 = Ok m
       ∧ (∀ w, word_freq m !! w
               = match occurrences w (token_list st wt corpus n0) with
                 | O => None
                 | S k => Some (S k)
                 end)
       ∧ ∀ w, w ∈ words m → ∃ k, word_freq m !! w = Some (S k).
Proof.
  destruct (init_ok st wt corpus n0) as (m & E & _ & _ & Hw & Hf).
  exists m. split; [exact E |]. rewrite Hf, Hw. split.
  - intros w. apply Counter_lookup.
  - intros w Hin. apply vocabulary_of_spec in Hin as [Hin _].
    apply occurrences_pos in Hin. rewrite Counter_lookup.
    destruct (occurrences w _) as [|k]; [lia | eauto].
Qed.

(** ** Scores of words *)

(** X10: on every constructed model [get_word_probability] returns
    exactly 0 for a word that does not start with the prefix, and never a
    negative score.  The loop over the characters always runs to its end:
    every estimate it takes the logarithm of is greater than 0, so the
    early [return 0.0] is not taken and no math domain error is raised.
    [_word_probability], which scores under the empty prefix, is never
    negative either. *)
Theorem word_score_never_negative
    (st wt : string → list string) (corpus : string) (n0 : Z) :
  ∃ m, __init__ st wt corpus n0 = Ok m
       ∧ (∀ context word,
            ∃ s, get_word_probability context word m = Ok (s, m)
                 ∧ (0 <= s)%R
                 ∧ (PyStr.startswith word context = false → s = 0%R))
       ∧ (∀ rest curr_context log_prob,
            ∃ l, get_word_probability_chars rest curr_context log_prob m
                 = Ok (Some l, m))
       ∧ ∀ word, ∃ s, _word_probability word m = Ok (s, m) ∧ (0 <= s)%R.
Proof.
  destruct (init_ok st wt corpus n0) as (m & E & Hm & _).
  exists m. split; [exact E |].
  assert (Hscore : ∀ context word, (0 <= word_score m context word)%R).
  { intros context word. destruct (PyStr.startswith word context) eqn:Hp.
    - left. apply word_score_pos, Hp.
    - unfold word_score. rewrite Hp. right. reflexivity. }
  split; [| split].
  - intros context word. exists (word_score m context word).
    split; [apply get_word_probability_run, Hm |]. split; [apply Hscore |].
    intros Hp. unfold word_score. rewrite Hp. reflexivity.
  - intros rest curr_context log_prob. eexists.
    apply get_word_probability_chars_run, Hm.
  - intros word. exists (word_score m "" word).
    split; [apply get_word_probability_run, Hm | apply Hscore].
Qed.

(** ** Only the last [n - 1] characters of a context count *)

Lemma slice_from_suffix (s : string) (k : Z) :
  1 ≤ k ≤ PyStr.len s →
  PyStr.slice_from s (- k) = PyStr.drop (Z.to_nat (PyStr.len s - k)) s.
Proof.
  intros Hk. unfold PyStr.slice_from, PyStr.clamp.
  destruct (- k <? 0) eqn:E; [| apply Z.ltb_ge in E; lia].
  f_equal. lia.
Qed.

Lemma slice_from_whole (s : string) (k : Z) :
  PyStr.len s ≤ k → PyStr.slice_from s (- k) = s.
Proof.
  intros Hk. unfold PyStr.slice_from, PyStr.clamp.
  destruct (- k <? 0) eqn:E.
  - replace (Z.to_nat _) with O by lia. reflexivity.
  - apply Z.ltb_ge in E. unfold PyStr.len in *.
    replace (Z.to_nat _) with O by lia. reflexivity.
Qed.

Lemma len_drop (k : nat) (s : string) :
  PyStr.len (PyStr.drop k s) = Z.of_nat (String.length s - k).
Proof. unfold PyStr.len. rewrite drop_length. reflexivity. Qed.

(** A suffix of the last [k'] characters is a suffix of the whole. *)
Lemma suffix_of_suffix (s : string) (k k' : Z) :
  1 ≤ k ≤ k' → k' ≤ PyStr.len s →
  PyStr.slice_from (PyStr.slice_from s (- k')) (- k) = PyStr.slice_from s (- k).
Proof.
  intros Hk Hk'.
  rewrite (slice_from_suffix s k'), (slice_from_suffix s k) by lia.
  rewrite slice_from_suffix by (rewrite len_drop; unfold PyStr.len in *; lia).
  rewrite len_drop, drop_drop. f_equal. unfold PyStr.len in *. lia.
Qed.

Lemma select_orders_ext m js context context' :
  (∀ j cnt, j ∈ js → list_index (counts m) j = Some cnt →
            cnt !! PyStr.slice_from context (- (j - 1))
            = cnt !! PyStr.slice_from context' (- (j - 1))) →
  select_orders m js context = select_orders m js context'.
Proof.
  induction js as [|j js IH]; intros Hext; [reflexivity |]. simpl.
  rewrite IH by (intros j' cnt Hj'; apply Hext; by right).
  destruct (list_index (counts m) j) as [cnt|] eqn:E; [| reflexivity]. simpl.
  rewrite (Hext j cnt) by (left || exact E). reflexivity.
Qed.

Lemma char_probability_last_chars m context c :
  tables_ok m → 2 ≤ n m →
  char_probability m (PyStr.slice_from context (- (n m - 1))) c
  = char_probability m context c.
Proof.
  intros Hm Hn.
  destruct (Z_le_gt_dec (PyStr.len context) (n m - 1)) as [Hshort|Hlong].
  { rewrite slice_from_whole by exact Hshort. reflexivity. }
  set (context' := PyStr.slice_from context (- (n m - 1))).
  assert (Hlen' : PyStr.len context' = n m - 1).
  { unfold context'. rewrite slice_from_suffix by lia.
    rewrite len_drop. unfold PyStr.len in *. lia. }
  unfold char_probability, select. rewrite Hlen'.
  replace (Z.min (n m - 1 + 1) (n m)) with (n m) by lia.
  replace (Z.min (PyStr.len context + 1) (n m)) with (n m) by lia.
  rewrite (select_orders_ext m _ context' context); [reflexivity |].
  intros j cnt Hj Hcnt. apply elem_of_range_down in Hj.
  destruct (decide (j = 1)) as [->|Hj1].
  - rewrite !(order_one_matches_empty_only m _ cnt Hm); try exact Hcnt; try reflexivity.
    + intros ->. unfold PyStr.len in Hlong. simpl in Hlong. lia.
    + intros Heq. rewrite Heq in Hlen'. unfold PyStr.len in Hlen'. simpl in Hlen'. lia.
  - unfold context'. rewrite suffix_of_suffix by lia. reflexivity.
Qed.

(** X11: from order 2 on, the estimate depends on the last [n - 1]
    characters of the context only: on every constructed model
    [get_char_probability(context, c)] and
    [get_char_probability(context[-(n-1):], c)] return the same value. *)
Theorem estimate_depends_on_last_characters
    (st wt : string → list string) (corpus : string) (n0 : Z) :
  2 ≤ n0 →
  ∃ m, __init__ st wt corpus n0 = Ok m
       ∧ ∀ context char,
           get_char_probability (PyStr.slice_from context (- (n0 - 1))) char m
           = get_char_probability context char m.
Proof.
  intros Hn0. destruct (init_ok st wt corpus n0) as (m & E & Hm & Hn & _).
  exists m. split; [exact E |]. intros context char.
  rewrite !(get_char_probability_run m _ _ Hm). rewrite <- Hn.
  rewrite char_probability_last_chars by (exact Hm || lia). reflexivity.
Qed.

Lemma estimate_depends_on_last_characters_witness :
  2 ≤ 3
  ∧ ∃ m, build "the cat sat on the mat the cat ran" 3 = Ok m
         ∧ ∀ context char,
             get_char_probability (PyStr.slice_from context (- (3 - 1))) char m
             = get_char_probability context char m.
Proof.
  split; [lia |].
  apply (estimate_depends_on_last_characters
           simple_sent_tokenize simple_word_tokenize
           "the cat sat on the mat the cat ran" 3). lia.
Defined.

(** ** The ranked list *)

Lemma insert_desc_perm x l : insert_desc x l ≡ₚ x :: l.
Proof.
  induction l as [|y l IH]; simpl; [reflexivity |].
  destruct (Rlt_dec (snd x) (snd y)); [| reflexivity].
  rewrite IH. apply Permutation_swap.
Qed.

Lemma sorted_desc_perm l : sorted_desc l ≡ₚ l.
Proof.
  induction l as [|x l IH]; simpl; [reflexivity |].
  rewrite insert_desc_perm, IH. reflexivity.
Qed.

Lemma sorted_desc_length l : length (sorted_desc l) = length l.
Proof. apply Permutation_length, sorted_desc_perm. Qed.

Lemma fst_scored (f : string → R) (l : list string) :
  fst <$> ((λ w, (w, f w)) <$> l) = l.
Proof.
  induction l as [|w l IH]; [reflexivity |].
  rewrite !fmap_cons. simpl. f_equal. exact IH.
Qed.

Lemma predict_top_words_candidates m context top_k :
  tables_ok m →
  predict_top_words context top_k m
  = Ok (list_slice_to
          (sorted_desc ((λ w, (w, word_score m (PyStr.lower context) w))
                          <$> candidates m context)) top_k, m).
Proof. apply predict_top_words_run. Qed.

(** X12: the number of pairs [predict_top_words] returns is the number of
    candidates cut at [k]: [min(k, N)] for [k ≥ 0], and [max(N + k, 0)]
    for a negative [k] (the slice [[:k]] then drops the last [-k] pairs),
    [N] being the number of vocabulary words that start with the
    lower-cased prefix. *)
Theorem predict_top_words_length
    (st wt : string → list string) (corpus : string) (n0 : Z) :
  ∃ m, __init__ st wt corpus n0 = Ok m
       ∧ ∀ prefix k,
           ∃ res, predict_top_words prefix k m = Ok (res, m)
                  ∧ Z.of_nat (length res)
                    = let N := Z.of_nat (length (candidates m prefix)) in
                      if k <? 0 then Z.max (N + k) 0 else Z.min k N.
Proof.
  destruct (init_ok st wt corpus n0) as (m & E & Hm & _).
  exists m. split; [exact E |]. intros prefix k.
  eexists. split; [apply predict_top_words_candidates, Hm |].
  unfold list_slice_to. rewrite length_take, sorted_desc_length, length_fmap.
  cbv zeta. destruct (k <? 0) eqn:Ek; lia.
Qed.

(** X13: when [k] is at least the number of candidates, the words
    [predict_top_words] returns are the candidates, each exactly once:
    the list of returned words is a rearrangement of the vocabulary words
    that start with the lower-cased prefix. *)
Theorem predict_top_words_returns_all_candidates
    (st wt : string → list string) (corpus : string) (n0 : Z) :
  ∃ m, __init__ st wt corpus n0 = Ok m
       ∧ ∀ prefix k,
           Z.of_nat (length (candidates m prefix)) ≤ k →
           ∃ res, predict_top_words prefix k m = Ok (res, m)
                  ∧ fst <$> res ≡ₚ candidates m prefix.
Proof.
  destruct (init_ok st wt corpus n0) as (m & E & Hm & _).
  exists m. split; [exact E |]. intros prefix k Hk.
  eexists. split; [apply predict_top_words_candidates, Hm |].
  unfold list_slice_to. rewrite sorted_desc_length, length_fmap.
  destruct (k <? 0) eqn:Ek; [apply Z.ltb_lt in Ek; lia |].
  rewrite take_ge by (rewrite sorted_desc_length, length_fmap; lia).
  rewrite sorted_desc_perm, fst_scored. reflexivity.
Qed.

(** X14: the answers for different [k] are nested: for [0 ≤ k ≤ k'] the
    list returned for [k] is the list returned for [k'] cut after its
    first [k] pairs. *)
Theorem predict_top_words_nested
    (st wt : string → list string) (corpus : string) (n0 : Z) :
  ∃ m, __init__ st wt corpus n0 = Ok m
       ∧ ∀ prefix k k',
           0 ≤ k ≤ k' →
           ∃ res res',
             predict_top_words prefix k m = Ok (res, m)
             ∧ predict_top_words prefix k' m = Ok (res', m)
             ∧ res = take (Z.to_nat k) res'.
Proof.
  destruct (init_ok st wt corpus n0) as (m & E & Hm & _).
  exists m. split; [exact E |]. intros prefix k k' Hk.
  eexists. eexists.
  split; [apply predict_top_words_candidates, Hm |].
  split; [apply predict_top_words_candidates, Hm |].
  unfold list_slice_to.
  destruct (k <? 0) eqn:Ek; [apply Z.ltb_lt in Ek; lia |].
  destruct (k' <? 0) eqn:Ek'; [apply Z.ltb_lt in Ek'; lia |].
  rewrite take_take. f_equal. lia.
Qed.

(** ** Case of the prefix, best word, ties *)

Lemma lower_char_idempotent (c : ascii) :
  PyStr.lower_char (PyStr.lower_char c) = PyStr.lower_char c.
Proof. all_ascii c; vm_compute; reflexivity. Qed.

Lemma lower_idempotent (s : string) : PyStr.lower (PyStr.lower s) = PyStr.lower s.
Proof.
  induction s as [|c s IH]; [reflexivity |]. simpl.
  rewrite lower_char_idempotent, IH. reflexivity.
Qed.

(** X15: [predict_top_words] does not see the case of the prefix: in
    every state of the object, the call with the lower-cased prefix is the
    call with the prefix itself (same result, same final state). *)
Theorem predict_top_words_ignores_case (prefix : string) (top_k : Z) (m : Model) :
  predict_top_words (PyStr.lower prefix) top_k m = predict_top_words prefix top_k m.
Proof. unfold predict_top_words. rewrite lower_idempotent. reflexivity. Qed.

Lemma descending_head_max (x : string * R) (l : list (string * R)) :
  descending (x :: l) → ∀ y, In y l → (snd y <= snd x)%R.
Proof.
  intros H. apply Sorted_extends in H.
  - rewrite List.Forall_forall in H. exact H.
  - intros a b c Hab Hbc. lra.
Qed.

Lemma candidates_lower m prefix :
  candidates m (PyStr.lower prefix) = candidates m prefix.
Proof. unfold candidates. rewrite lower_idempotent. reflexivity. Qed.

(** X16: on every constructed model [_generate_word] returns [None]
    exactly when no vocabulary word starts with the lower-cased prefix;
    otherwise it returns such a word whose [get_word_probability] score is
    at least the score of every other such word. *)
Theorem generate_word_is_a_best_candidate
    (st wt : string → list string) (corpus : string) (n0 : Z) :
  ∃ m, __init__ st wt corpus n0 = Ok m
       ∧ ∀ prefix,
           ∃ r, _generate_word prefix m = Ok (r, m)
                ∧ match r with
                  | None => candidates m prefix = []
                  | Some w =>
                      In w (candidates m prefix)
                      ∧ ∀ w', In w' (candidates m prefix) →
                          ∃ s s',
                            get_word_probability (PyStr.lower prefix) w m = Ok (s, m)
                            ∧ get_word_probability (PyStr.lower prefix) w' m = Ok (s', m)
                            ∧ (s' <= s)%R
                  end.
Proof.
  destruct (init_ok st wt corpus n0) as (m & E & Hm & _).
  exists m. split; [exact E |]. intros prefix.
  unfold _generate_word. rewrite bind_run.
  rewrite (predict_top_words_candidates m _ 1 Hm), candidates_lower, lower_idempotent.
  set (f := λ w, (w, word_score m (PyStr.lower prefix) w)).
  pose proof (sorted_desc_descending (f <$> candidates m prefix)) as Hdesc.
  pose proof (sorted_desc_In (f <$> candidates m prefix)) as HIn.
  pose proof (sorted_desc_length (f <$> candidates m prefix)) as Hlen.
  rewrite length_fmap in Hlen.
  eexists. split; [reflexivity |].
  unfold list_slice_to. change (1 <? 0) with false. cbv iota.
  destruct (sorted_desc (f <$> candidates m prefix)) as [|[w s] rest] eqn:Es.
  - simpl. destruct (candidates m prefix); [reflexivity | discriminate].
  - replace (Z.to_nat _) with 1%nat by (simpl length; lia). simpl.
    assert (Hw : In (w, s) (f <$> candidates m prefix))
      by (apply HIn; left; reflexivity).
    apply in_map_iff in Hw as (w0 & Heq0 & Hw0).
    unfold f in Heq0. injection Heq0 as H1 H2. subst w s.
    split; [exact Hw0 |]. intros w' Hw'.
    exists (word_score m (PyStr.lower prefix) w0), (word_score m (PyStr.lower prefix) w').
    split; [apply get_word_probability_run, Hm |].
    split; [apply get_word_probability_run, Hm |].
    assert (Hin' : In (f w') ((w0, word_score m (PyStr.lower prefix) w0) :: rest)).
    { apply HIn. apply in_map_iff. eauto. }
    destruct Hin' as [Heq|Hin'].
    + unfold f in Heq. injection Heq as -> _. lra.
    + apply (descending_head_max _ _ Hdesc _ Hin').
Qed.

Lemma insert_desc_stable (v : R) x l :
  List.filter (has_score v) (insert_desc x l) = List.filter (has_score v) (x :: l).
Proof.
  induction l as [|y l IH]; [reflexivity |].
  cbn [insert_desc]. destruct (Rlt_dec (snd x) (snd y)) as [Hlt|Hge]; [| reflexivity].
  cbn [List.filter] in *. rewrite IH.
  destruct (has_score v y) eqn:Hy; destruct (has_score v x) eqn:Hx; try reflexivity.
  unfold has_score in Hx, Hy.
  destruct (Req_dec_T (snd y) v); [| discriminate].
  destruct (Req_dec_T (snd x) v); [lra | discriminate].
Qed.

(** The sort is stable: pairs of equal score keep their order. *)
Lemma sorted_desc_stable (v : R) l :
  List.filter (has_score v) (sorted_desc l) = List.filter (has_score v) l.
Proof.
  induction l as [|x l IH]; [reflexivity |].
  cbn [sorted_desc foldr]. fold (sorted_desc l).
  rewrite insert_desc_stable. cbn [List.filter]. rewrite IH. reflexivity.
Qed.

(** X17: ties are broken by the order of the vocabulary: when [k] is at
    least the number of candidates, the pairs returned with a given score
    [v] are, in this order, the pairs of that score in the list of the
    scored candidates, which follows the order of [self.words]. *)
Theorem predict_top_words_keeps_order_of_ties
    (st wt : string → list string) (corpus : string) (n0 : Z) :
  ∃ m, __init__ st wt corpus n0 = Ok m
       ∧ ∀ prefix k v,
           Z.of_nat (length (candidates m prefix)) ≤ k →
           ∃ res scored,
             predict_top_words prefix k m = Ok (res, m)
             ∧ score_all (PyStr.lower prefix) (candidates m prefix) m = Ok (scored, m)
             ∧ List.filter (has_score v) res = List.filter (has_score v) scored.
Proof.
  destruct (init_ok st wt corpus n0) as (m & E & Hm & _).
  exists m. split; [exact E |]. intros prefix k v Hk.
  eexists. eexists.
  split; [apply predict_top_words_candidates, Hm |].
  split; [apply score_all_run, Hm |].
  unfold list_slice_to. rewrite sorted_desc_length, length_fmap.
  destruct (k <? 0) eqn:Ek; [apply Z.ltb_lt in Ek; lia |].
  rewrite take_ge by (rewrite sorted_desc_length, length_fmap; lia).
  apply sorted_desc_stable.
Qed.

(** ** Text slices of the front end *)

Lemma len_append (a b : string) : PyStr.len (a ++ b) = PyStr.len a + PyStr.len b.
Proof. unfold PyStr.len. rewrite append_length. lia. Qed.

Lemma append_cons (c : ascii) (a b : string) : String c a ++ b = String c (a ++ b).
Proof. reflexivity. Qed.

Lemma append_nil (b : string) : EmptyString ++ b = b.
Proof. reflexivity. Qed.

Lemma take_drop (k : nat) (s : string) : PyStr.take k s ++ PyStr.drop k s = s.
Proof.
  revert s. induction k as [|k IH]; intros [|c s]; try reflexivity.
  cbn [PyStr.take PyStr.drop]. rewrite append_cons, IH. reflexivity.
Qed.

Lemma take_append (a b : string) : PyStr.take (String.length a) (a ++ b) = a.
Proof.
  induction a as [|c a IH]; [destruct b; reflexivity |].
  rewrite append_cons. cbn [String.length PyStr.take]. rewrite IH. reflexivity.
Qed.

Lemma drop_append (a b : string) : PyStr.drop (String.length a) (a ++ b) = b.
Proof.
  induction a as [|c a IH]; [reflexivity |].
  rewrite append_cons. cbn [String.length PyStr.drop]. exact IH.
Qed.

Lemma slice_to_take (s : string) (k : Z) :
  0 ≤ k ≤ PyStr.len s → PyText.slice_to s k = PyStr.take (Z.to_nat k) s.
Proof.
  intros Hk. unfold PyText.slice_to. rewrite slice_inside by lia.
  simpl. f_equal. lia.
Qed.

Lemma slice_from_drop (s : string) (k : Z) :
  0 ≤ k ≤ PyStr.len s → PyStr.slice_from s k = PyStr.drop (Z.to_nat k) s.
Proof.
  intros Hk. unfold PyStr.slice_from, PyStr.clamp.
  destruct (k <? 0) eqn:E; [apply Z.ltb_lt in E; lia |].
  rewrite Z.min_l by lia. reflexivity.
Qed.

Lemma slice_to_len (s : string) (k : Z) :
  0 ≤ k ≤ PyStr.len s → PyStr.len (PyText.slice_to s k) = k.
Proof.
  intros Hk. rewrite slice_to_take by exact Hk.
  unfold PyStr.len in *. rewrite take_length. lia.
Qed.

Lemma slice_from_len (s : string) (k : Z) :
  0 ≤ k ≤ PyStr.len s → PyStr.len (PyStr.slice_from s k) = PyStr.len s - k.
Proof.
  intros Hk. rewrite slice_from_drop by exact Hk.
  unfold PyStr.len in *. rewrite drop_length. lia.
Qed.

(** [s[:k] + s[k:] == s] *)
Lemma slice_to_from (s : string) (k : Z) :
  0 ≤ k ≤ PyStr.len s → PyText.slice_to s k ++ PyStr.slice_from s k = s.
Proof.
  intros Hk. rewrite slice_to_take, slice_from_drop by exact Hk. apply take_drop.
Qed.

Lemma slice_to_append (a b : string) : PyText.slice_to (a ++ b) (PyStr.len a) = a.
Proof.
  rewrite slice_to_take by (rewrite len_append; unfold PyStr.len; lia).
  unfold PyStr.len. rewrite Nat2Z.id. apply take_append.
Qed.

Lemma slice_from_append (a b : string) : PyStr.slice_from (a ++ b) (PyStr.len a) = b.
Proof.
  rewrite slice_from_drop by (rewrite len_append; unfold PyStr.len; lia).
  unfold PyStr.len. rewrite Nat2Z.id. apply drop_append.
Qed.

Lemma append_assoc (a b c : string) : (a ++ b) ++ c = a ++ (b ++ c).
Proof.
  induction a as [|x a IH]; [reflexivity |].
  rewrite !append_cons, IH. reflexivity.
Qed.

(** ** The word under the cursor *)

Lemma trailing_run_length (s : string) :
  (String.length (PyText.trailing_run s) ≤ String.length s)%nat.
Proof.
  induction s as [|c s IH]; [simpl; lia |].
  cbn [PyText.trailing_run]. destruct (PyText.no_space (String c s)); simpl in *; lia.
Qed.

Lemma chop_newline_length (s : string) :
  (String.length (PyText.chop_newline s) ≤ String.length s)%nat.
Proof.
  induction s as [|c s IH]; [simpl; lia |].
  cbn [PyText.chop_newline]. destruct s as [|c' s'].
  - destruct (Ascii.eqb c "010"); simpl; lia.
  - cbn [String.length] in *. lia.
Qed.

Lemma trailing_word_length (t : string) :
  0 ≤ PyStr.len (PyText.trailing_word t) ≤ PyStr.len t.
Proof.
  unfold PyText.trailing_word, PyStr.len.
  pose proof (trailing_run_length (PyText.chop_newline t)).
  pose proof (chop_newline_length t). lia.
Qed.

(** The start of the word under the cursor lies between 0 and the cursor. *)
Lemma find_last_word_start_bounds (text : string) (pos : Z) :
  0 ≤ pos ≤ PyStr.len text →
  0 ≤ find_last_word_start text pos ≤ pos.
Proof.
  intros Hpos. unfold find_last_word_start.
  destruct (pos =? 0) eqn:E; [apply Z.eqb_eq in E; lia |].
  pose proof (trailing_word_length (PyText.slice_to text pos)) as H.
  rewrite slice_to_len in H by exact Hpos. lia.
Qed.

(** A text splits into what precedes its last run without white space
    and that run; what precedes is empty or ends with white space. *)
Lemma trailing_run_split (s : string) :
  ∃ pre, s = pre ++ PyText.trailing_run s
         ∧ PyText.no_space (PyText.trailing_run s) = true
         ∧ PyText.trailing_run pre = EmptyString.
Proof.
  induction s as [|c s (pre & Hs & Hns & Hpre)].
  - exists EmptyString. repeat split.
  - cbn [PyText.trailing_run]. destruct (PyText.no_space (String c s)) eqn:E.
    + exists EmptyString. repeat split. exact E.
    + exists (String c pre). split; [rewrite append_cons, <- Hs; reflexivity |].
      split; [exact Hns |].
      cbn [PyText.trailing_run]. rewrite Hpre.
      destruct (PyText.no_space (String c pre)) eqn:E'; [| reflexivity].
      exfalso. simpl in E, E'.
      apply andb_prop in E' as [Hc Hp].
      rewrite Hc in E. simpl in E.
      assert (Hrun : ∀ p, PyText.trailing_run p = EmptyString →
                          PyText.no_space p = true → p = EmptyString).
      { intros [|x p] Hr Hn; [reflexivity |].
        cbn [PyText.trailing_run] in Hr. rewrite Hn in Hr. discriminate. }
      rewrite (Hrun pre Hpre Hp), append_nil in Hs.
      rewrite Hs, Hns in E. discriminate.
Qed.

Lemma no_space_append (a b : string) :
  PyText.no_space (a ++ b) = PyText.no_space a && PyText.no_space b.
Proof.
  induction a as [|c a IH]; [reflexivity |].
  rewrite append_cons. cbn [PyText.no_space]. rewrite IH, andb_assoc. reflexivity.
Qed.

(** After a text with no trailing word, a word without white space is
    the trailing word. *)
Lemma trailing_run_append (pre w : string) :
  PyText.trailing_run pre = EmptyString → PyText.no_space w = true →
  PyText.trailing_run (pre ++ w) = w.
Proof.
  intros Hpre Hw. induction pre as [|c pre IH].
  - rewrite append_nil. destruct w as [|x w]; [reflexivity |].
    cbn [PyText.trailing_run]. rewrite Hw. reflexivity.
  - cbn [PyText.trailing_run] in Hpre.
    destruct (PyText.no_space (String c pre)) eqn:E; [discriminate |].
    change (String c pre ++ w) with (String c (pre ++ w)).
    cbn [PyText.trailing_run].
    replace (PyText.no_space (String c (pre ++ w))) with false.
    + apply IH, Hpre.
    + symmetry. change (String c (pre ++ w)) with (String c pre ++ w).
      rewrite no_space_append, E. reflexivity.
Qed.

(** ** The methods of the front end, run *)

Lemma ui_bind_run {A B} (c : U A) (k : A → U B) (u : TerminalUI) :
  (c ≫= k) u = match c u with Ok (a, u') => k a u' | Raise e => Raise e end.
Proof. reflexivity. Qed.

Lemma set_prediction_model_same (u : TerminalUI) :
  set_prediction_model (prediction_model u) u = u.
Proof. destruct u; reflexivity. Qed.

Lemma get_current_word_run (u : TerminalUI) :
  get_current_word u = Ok (current_word u, u).
Proof. reflexivity. Qed.

Lemma replace_current_word_run (w : string) (u : TerminalUI) :
  replace_current_word w u
  = Ok (tt, set_cursor_pos
              (find_last_word_start (user_input u) (cursor_pos u) + PyStr.len w)
              (set_user_input
                 (PyText.slice_to (user_input u)
                    (find_last_word_start (user_input u) (cursor_pos u))
                  ++ w ++ PyStr.slice_from (user_input u) (cursor_pos u)) u)).
Proof. reflexivity. Qed.

Lemma finalize_current_word_stats_run (u : TerminalUI) :
  finalize_current_word_stats u
  = Ok (tt, set_current_word_keystrokes 0
              (set_word_stats
                 (word_stats u ++ new_stats (user_input u) (current_word_keystrokes u)) u)).
Proof.
  unfold finalize_current_word_stats, new_stats. rewrite ui_bind_run.
  cbn [ui_gets].
  destruct (PyText.split (PyStr.strip (user_input u))) as [|w0 ws].
  - rewrite app_nil_r. destruct u; reflexivity.
  - cbn zeta. rewrite ui_bind_run. cbn [ui_gets].
    destruct (PyText.count_alpha (List.last ws w0) >? 0).
    + reflexivity.
    + rewrite app_nil_r. destruct u; reflexivity.
Qed.

Lemma update_suggestions_run (context : string) (u : TerminalUI) :
  tables_ok (prediction_model u) →
  update_suggestions context u
  = Ok (tt, set_current_suggestion_idx 0
              (set_suggestions (suggest (prediction_model u) context) u)).
Proof.
  intros Hm. unfold update_suggestions, suggest. rewrite ui_bind_run.
  unfold call_model. rewrite (predict_top_words_candidates _ context 10 Hm).
  rewrite set_prediction_model_same. reflexivity.
Qed.

(** ** What the suggestions are *)

Lemma suggest_In (m : Model) (context w : string) :
  w ∈ suggest m context →
  w ∈ words m ∧ PyStr.startswith w (PyStr.lower context) = true.
Proof.
  unfold suggest. intros Hw.
  apply list_elem_of_fmap in Hw as ([w' s] & -> & Hin).
  apply list_elem_of_In in Hin. apply list_slice_to_In in Hin.
  apply (proj1 (sorted_desc_In _ _)) in Hin. apply list_elem_of_In in Hin.
  apply list_elem_of_fmap in Hin as (w0 & Heq & Hw0).
  injection Heq as H1 H2. subst w'. simpl.
  unfold candidates in Hw0. apply list_elem_of_In in Hw0.
  apply filter_In in Hw0 as [H1 H3].
  split; [apply list_elem_of_In, H1 | exact H3].
Qed.

Lemma suggest_length (m : Model) (context : string) :
  Z.of_nat (length (suggest m context)) ≤ 10.
Proof.
  unfold suggest. rewrite length_fmap. apply list_slice_to_length. lia.
Qed.

(** ** Characters of a text *)

Lemma index_inside (s : string) (i : Z) :
  0 ≤ i < PyStr.len s → ∃ c, PyStr.index s i = Some c.
Proof.
  intros Hi. unfold PyStr.index.
  destruct (i <? 0) eqn:E; [apply Z.ltb_lt in E; lia |]. rewrite E.
  unfold PyStr.len in Hi.
  assert (Hn : (Z.to_nat i < String.length s)%nat) by lia.
  revert Hn. generalize (Z.to_nat i). clear.
  induction s as [|c s IH]; intros k Hk; [simpl in Hk; lia |].
  destruct k as [|k]; [exists c; reflexivity |].
  simpl. apply IH. simpl in Hk. lia.
Qed.

Lemma index_append (a b : string) (c : ascii) :
  PyStr.index (a ++ String c b) (PyStr.len a) = Some c.
Proof.
  unfold PyStr.index, PyStr.len.
  destruct (Z.of_nat (String.length a) <? 0) eqn:E; [apply Z.ltb_lt in E; lia |].
  rewrite E, Nat2Z.id. clear E.
  induction a as [|x a IH]; [reflexivity |].
  rewrite append_cons. exact IH.
Qed.

(** ** The invariant of the editing logic *)

Lemma replace_bounds (text w : string) (pos : Z) :
  0 ≤ pos ≤ PyStr.len text →
  0 ≤ find_last_word_start text pos + PyStr.len w
    ≤ PyStr.len (PyText.slice_to text (find_last_word_start text pos)
                 ++ w ++ PyStr.slice_from text pos).
Proof.
  intros Hpos. pose proof (find_last_word_start_bounds text pos Hpos) as Hws.
  rewrite !len_append, slice_to_len, slice_from_len by lia.
  unfold PyStr.len in *. lia.
Qed.

Lemma new_stats_ok (text : string) (k : Z) :
  0 ≤ k → Forall (λ kl : Z * Z, 0 ≤ fst kl ∧ 1 ≤ snd kl) (new_stats text k).
Proof.
  intros Hk. unfold new_stats.
  destruct (PyText.split (PyStr.strip text)) as [|w0 ws]; [constructor |].
  cbn zeta. destruct (PyText.count_alpha (List.last ws w0) >? 0) eqn:E; [| constructor].
  apply Z.gtb_lt in E. repeat constructor; simpl; lia.
Qed.

(** ** One key *)

Section KeyRuns.

Variables KEY_RESIZE KEY_BACKSPACE KEY_LEFT KEY_RIGHT : Z.

Lemma handle_printable (key : Z) (u : TerminalUI) :
  (key =? KEY_RESIZE) = false →
  (key =? KEY_BACKSPACE) = false → (key =? KEY_LEFT) = false →
  (key =? KEY_RIGHT) = false →
  32 ≤ key ≤ 126 →
  tables_ok (prediction_model u) →
  let c := ascii_of_N (Z.to_N key) in
  ∃ u', handle_input KEY_RESIZE KEY_BACKSPACE KEY_LEFT KEY_RIGHT key u = Ok (true, u')
        ∧ user_input u'
          = PyText.slice_to (user_input u) (cursor_pos u) ++ String c EmptyString
            ++ PyStr.slice_from (user_input u) (cursor_pos u)
        ∧ cursor_pos u' = cursor_pos u + 1
        ∧ current_word_keystrokes u'
          = (if Ascii.eqb c " " then 0
             else if PyText.is_alpha c then current_word_keystrokes u + 1
             else current_word_keystrokes u)
        ∧ word_stats u'
          = (if Ascii.eqb c " "
             then (word_stats u ++ new_stats (user_input u') (current_word_keystrokes u))%list
             else word_stats u)
        ∧ tabKeyCount u' = tabKeyCount u
        ∧ prediction_model u' = prediction_model u
        ∧ current_suggestion_idx u' = 0
        ∧ suggestions u' = suggest (prediction_model u) (current_word u').
Proof.
  intros H1 H2 H3 H4 Hkey Hm c. unfold handle_input.
  rewrite H1, H2, H3, H4.
  replace (key =? 27) with false by lia.
  replace (key =? 9) with false by lia.
  replace (key =? 10) with false by lia.
  replace (key =? 127) with false by lia.
  replace (key =? 8) with false by lia.
  replace ((32 <=? key) && (key <=? 126)) with true by lia.
  cbn [orb]. cbn zeta. fold c.
  assert (Hsp : (c =? " ")%char = true → PyText.is_alpha c = false).
  { intros E. apply Ascii.eqb_eq in E. rewrite E. reflexivity. }
  ui_unfold.
  destruct (c =? " ")%char eqn:Esp.
  - rewrite (Hsp eq_refl). cbn beta iota.
    rewrite finalize_current_word_stats_run. cbn beta iota.
    rewrite get_current_word_run. cbn beta iota.
    rewrite update_suggestions_run by exact Hm.
    eexists. split; [reflexivity |]. repeat split.
  - destruct (PyText.is_alpha c); cbn beta iota;
      rewrite get_current_word_run; cbn beta iota;
      rewrite update_suggestions_run by exact Hm;
      (eexists; split; [reflexivity |]; repeat split).
Qed.

Lemma handle_resize (key : Z) (u : TerminalUI) :
  (key =? KEY_RESIZE) = true → handle_input KEY_RESIZE KEY_BACKSPACE KEY_LEFT KEY_RIGHT key u = Ok (true, u).
Proof. intros H. unfold handle_input. rewrite H. reflexivity. Qed.

Lemma handle_esc (u : TerminalUI) :
  (27 =? KEY_RESIZE) = false → handle_input KEY_RESIZE KEY_BACKSPACE KEY_LEFT KEY_RIGHT 27 u = Ok (false, u).
Proof. intros H. unfold handle_input. rewrite H. reflexivity. Qed.

Lemma handle_tab (u : TerminalUI) :
  (9 =? KEY_RESIZE) = false →
  ∃ u', handle_input KEY_RESIZE KEY_BACKSPACE KEY_LEFT KEY_RIGHT 9 u = Ok (true, u')
        ∧ user_input u' = user_input u
        ∧ cursor_pos u' = cursor_pos u
        ∧ current_word_keystrokes u' = current_word_keystrokes u
        ∧ word_stats u' = word_stats u
        ∧ tabKeyCount u' = tabKeyCount u + 1
        ∧ prediction_model u' = prediction_model u
        ∧ suggestions u' = suggestions u
        ∧ current_suggestion_idx u'
          = match suggestions u with
            | [] => current_suggestion_idx u
            | _ => (current_suggestion_idx u + 1)
                   `mod` Z.of_nat (length (suggestions u))
            end.
Proof.
  intros H. unfold handle_input. rewrite H. cbn [Z.eqb Pos.eqb].
  ui_unfold. cbn [suggestions set_tabKeyCount].
  destruct (suggestions u) eqn:E; cbn beta iota;
    (eexists; split; [reflexivity |]); cbn; rewrite ?E; repeat split.
Qed.

Lemma handle_enter (u : TerminalUI) :
  (10 =? KEY_RESIZE) = false →
  0 ≤ current_suggestion_idx u →
  let ws := find_last_word_start (user_input u) (cursor_pos u) in
  ∃ u', handle_input KEY_RESIZE KEY_BACKSPACE KEY_LEFT KEY_RIGHT 10 u = Ok (true, u')
        ∧ match list_index (suggestions u) (current_suggestion_idx u) with
          | Some w =>
              user_input u'
              = PyText.slice_to (user_input u) ws ++ w
                ++ PyStr.slice_from (user_input u) (cursor_pos u)
              ∧ cursor_pos u' = ws + PyStr.len w
          | None => user_input u' = user_input u ∧ cursor_pos u' = cursor_pos u
          end
        ∧ current_word_keystrokes u' = 0
        ∧ word_stats u'
          = (word_stats u ++ new_stats (user_input u') (current_word_keystrokes u))%list
        ∧ tabKeyCount u' = tabKeyCount u
        ∧ prediction_model u' = prediction_model u
        ∧ suggestions u' = []
        ∧ current_suggestion_idx u' = 0.
Proof.
  intros H Hidx ws. unfold handle_input. rewrite H. cbn [Z.eqb Pos.eqb].
  ui_unfold. rewrite list_index_nonneg by exact Hidx.
  destruct (suggestions u) as [|w0 l] eqn:E.
  - cbn beta iota. rewrite finalize_current_word_stats_run. cbn beta iota.
    rewrite lookup_nil.
    eexists. split; [reflexivity |]. repeat split.
  - destruct (current_suggestion_idx u <? Z.of_nat (length (w0 :: l))) eqn:Elt.
    + apply Z.ltb_lt in Elt.
      destruct (lookup_lt_is_Some_2 (w0 :: l) (Z.to_nat (current_suggestion_idx u)))
        as [w Hw]; [lia |].
      rewrite Hw. cbn beta iota.
      rewrite replace_current_word_run. cbn beta iota.
      rewrite finalize_current_word_stats_run. cbn beta iota.
      eexists. split; [reflexivity |]. repeat split.
    + apply Z.ltb_ge in Elt.
      rewrite (lookup_ge_None_2 (w0 :: l)) by lia.
      cbn beta iota. rewrite finalize_current_word_stats_run. cbn beta iota.
      eexists. split; [reflexivity |]. repeat split.
Qed.

Lemma handle_backspace (key : Z) (u : TerminalUI) :
  (key =? KEY_RESIZE) = false → (key =? 27) = false →
  (key =? 9) = false → (key =? 10) = false →
  (key =? KEY_BACKSPACE) || (key =? 127) || (key =? 8) = true →
  0 < cursor_pos u ≤ PyStr.len (user_input u) →
  tables_ok (prediction_model u) →
  ∃ c u', PyStr.index (user_input u) (cursor_pos u - 1) = Some c
        ∧ handle_input KEY_RESIZE KEY_BACKSPACE KEY_LEFT KEY_RIGHT key u = Ok (true, u')
        ∧ user_input u'
          = PyText.slice_to (user_input u) (cursor_pos u - 1)
            ++ PyStr.slice_from (user_input u) (cursor_pos u)
        ∧ cursor_pos u' = cursor_pos u - 1
        ∧ current_word_keystrokes u'
          = (if PyText.is_alpha c && (current_word_keystrokes u >? 0)
             then current_word_keystrokes u - 1 else current_word_keystrokes u)
        ∧ word_stats u' = word_stats u
        ∧ tabKeyCount u' = tabKeyCount u
        ∧ prediction_model u' = prediction_model u
        ∧ current_suggestion_idx u' = 0
        ∧ suggestions u' = suggest (prediction_model u) (current_word u').
Proof.
  intros H1 H2 H3 H4 H5 Hpos Hm. unfold handle_input.
  rewrite H1, H2, H3, H4, H5. ui_unfold.
  replace (cursor_pos u >? 0) with true by lia.
  destruct (index_inside (user_input u) (cursor_pos u - 1)) as [c Hc]; [lia |].
  exists c. rewrite Hc. cbn beta iota. cbn [current_word_keystrokes set_cursor_pos set_user_input].
  destruct (PyText.is_alpha c && (current_word_keystrokes u >? 0)); cbn beta iota;
    rewrite get_current_word_run; cbn beta iota;
    rewrite update_suggestions_run by exact Hm;
    (eexists; split; [reflexivity |]; split; [reflexivity |]; repeat split).
Qed.

Lemma handle_still (key : Z) (u : TerminalUI) :
  (key =? KEY_RESIZE) = false → (key =? 27) = false →
  (key =? 9) = false → (key =? 10) = false →
  ((key =? KEY_BACKSPACE) || (key =? 127) || (key =? 8) = true
     ∧ cursor_pos u ≤ 0)
  ∨ ((key =? KEY_BACKSPACE) || (key =? 127) || (key =? 8) = false
     ∧ ((key =? KEY_LEFT) = true ∧ cursor_pos u ≤ 0
        ∨ (key =? KEY_LEFT) = false
          ∧ ((key =? KEY_RIGHT) = true ∧ PyStr.len (user_input u) ≤ cursor_pos u
             ∨ (key =? KEY_RIGHT) = false ∧ (32 <=? key) && (key <=? 126) = false))) →
  handle_input KEY_RESIZE KEY_BACKSPACE KEY_LEFT KEY_RIGHT key u = Ok (true, u).
Proof.
  intros H1 H2 H3 H4 H. unfold handle_input. rewrite H1, H2, H3, H4.
  destruct H as [[H5 Hp] | [H5 [[H6 Hp] | [H6 [[H7 Hp] | [H7 H8]]]]]];
    rewrite ?H5, ?H6, ?H7, ?H8; ui_unfold.
  - replace (cursor_pos u >? 0) with false by lia. reflexivity.
  - replace (cursor_pos u >? 0) with false by lia. reflexivity.
  - replace (cursor_pos u <? PyStr.len (user_input u)) with false by lia. reflexivity.
  - reflexivity.
Qed.

Lemma handle_move (key : Z) (u : TerminalUI) :
  (key =? KEY_RESIZE) = false → (key =? 27) = false →
  (key =? 9) = false → (key =? 10) = false →
  (key =? KEY_BACKSPACE) || (key =? 127) || (key =? 8) = false →
  tables_ok (prediction_model u) →
  ∀ d, ((key =? KEY_LEFT) = true ∧ 0 < cursor_pos u ∧ d = -1
        ∨ (key =? KEY_LEFT) = false ∧ (key =? KEY_RIGHT) = true
          ∧ cursor_pos u < PyStr.len (user_input u) ∧ d = 1) →
  ∃ u', handle_input KEY_RESIZE KEY_BACKSPACE KEY_LEFT KEY_RIGHT key u = Ok (true, u')
        ∧ user_input u' = user_input u
        ∧ cursor_pos u' = cursor_pos u + d
        ∧ current_word_keystrokes u' = current_word_keystrokes u
        ∧ word_stats u' = word_stats u
        ∧ tabKeyCount u' = tabKeyCount u
        ∧ prediction_model u' = prediction_model u
        ∧ current_suggestion_idx u' = 0
        ∧ suggestions u' = suggest (prediction_model u) (current_word u').
Proof.
  intros H1 H2 H3 H4 H5 Hm d Hd. unfold handle_input.
  rewrite H1, H2, H3, H4, H5.
  destruct Hd as [(H6 & Hp & ->) | (H6 & H7 & Hp & ->)]; rewrite ?H6, ?H7; ui_unfold.
  - replace (cursor_pos u >? 0) with true by lia. cbn beta iota.
    rewrite get_current_word_run. cbn beta iota.
    rewrite update_suggestions_run by exact Hm.
    eexists. split; [reflexivity |]. repeat split.
  - replace (cursor_pos u <? PyStr.len (user_input u)) with true by lia. cbn beta iota.
    rewrite get_current_word_run. cbn beta iota.
    rewrite update_suggestions_run by exact Hm.
    eexists. split; [reflexivity |]. repeat split.
Qed.

Lemma current_word_ext (u u' : TerminalUI) :
  user_input u' = user_input u → cursor_pos u' = cursor_pos u →
  current_word u' = current_word u.
Proof. intros H1 H2. unfold current_word. rewrite H1, H2. reflexivity. Qed.

Lemma suggestions_index_ok (l : list string) :
  l ≠ [] → 0 < Z.of_nat (length l).
Proof. destruct l; [congruence | simpl; lia]. Qed.

Lemma ui_ok_intro (u : TerminalUI) :
  0 ≤ cursor_pos u ≤ PyStr.len (user_input u) →
  0 ≤ current_suggestion_idx u →
  (suggestions u ≠ [] → current_suggestion_idx u < Z.of_nat (length (suggestions u))) →
  0 ≤ current_word_keystrokes u →
  0 ≤ tabKeyCount u →
  Forall (λ kl : Z * Z, 0 ≤ fst kl ∧ 1 ≤ snd kl) (word_stats u) →
  tables_ok (prediction_model u) →
  ui_ok u.
Proof. intros. unfold ui_ok. tauto. Qed.

(** Every key leaves the state well formed, raises nothing, and leaves
    the model as it is; only ESC ends the session, and only Tab counts
    as a tab. *)
Lemma handle_input_ok (key : Z) (u : TerminalUI) :
  ui_ok u → suggestions_ok u →
  ∃ b u', handle_input KEY_RESIZE KEY_BACKSPACE KEY_LEFT KEY_RIGHT key u = Ok (b, u')
          ∧ ui_ok u' ∧ suggestions_ok u'
          ∧ prediction_model u' = prediction_model u
          ∧ b = (key =? KEY_RESIZE) || negb (key =? 27)
          ∧ tabKeyCount u'
            = tabKeyCount u + (if negb (key =? KEY_RESIZE) && (key =? 9) then 1 else 0).
Proof.
  intros Hu Hsug. pose proof Hu as (Hpos & Hidx & Hsel & Hk & Htab & Hst & Hm).
  destruct (key =? KEY_RESIZE) eqn:H1.
  { exists true, u. rewrite handle_resize by exact H1.
    split; [reflexivity |]. split; [exact Hu |]. split; [exact Hsug |].
    split; [reflexivity |]. split; [reflexivity | simpl; lia]. }
  destruct (key =? 27) eqn:H2.
  { apply Z.eqb_eq in H2. subst key. exists false, u. rewrite handle_esc by exact H1.
    split; [reflexivity |]. split; [exact Hu |]. split; [exact Hsug |].
    split; [reflexivity |]. split; [reflexivity | simpl; lia]. }
  destruct (key =? 9) eqn:H3.
  { apply Z.eqb_eq in H3. subst key.
    destruct (handle_tab u H1) as (u' & E & Hui & Hcp & Hkw & Hws & Htb & Hmd & Hsg & Hix).
    exists true, u'. split; [exact E |]. split; [| split; [| split; [| split]]].
    - apply ui_ok_intro; rewrite ?Hui, ?Hcp, ?Hkw, ?Hws, ?Htb, ?Hmd, ?Hsg, ?Hix;
        try assumption; try lia.
      + destruct (suggestions u) as [|w l] eqn:Es; [exact Hidx |].
        apply Z.mod_pos_bound. simpl. lia.
      + intros Hne. destruct (suggestions u) as [|w l] eqn:Es; [congruence |].
        apply Z.mod_pos_bound. simpl. lia.
    - unfold suggestions_ok. rewrite Hsg, Hmd, (current_word_ext u u' Hui Hcp). exact Hsug.
    - exact Hmd.
    - reflexivity.
    - exact Htb. }
  destruct (key =? 10) eqn:H4.
  { apply Z.eqb_eq in H4. subst key.
    destruct (handle_enter u H1 Hidx) as (u' & E & Hed & Hkw & Hws & Htb & Hmd & Hsg & Hix).
    exists true, u'. split; [exact E |]. split; [| split; [| split; [| split]]].
    - apply ui_ok_intro; rewrite ?Hkw, ?Hws, ?Htb, ?Hmd, ?Hsg, ?Hix;
        try assumption; try lia; try congruence.
      + destruct (list_index (suggestions u) (current_suggestion_idx u)) as [w|];
          destruct Hed as [-> ->]; [| lia].
        apply replace_bounds, Hpos.
      + apply Forall_app. split; [exact Hst | apply new_stats_ok, Hk].
    - left. exact Hsg.
    - exact Hmd.
    - reflexivity.
    - rewrite Htb. simpl. lia. }
  assert (Hfinish : ∀ u' : TerminalUI,
    0 ≤ cursor_pos u' ≤ PyStr.len (user_input u') →
    0 ≤ current_word_keystrokes u' →
    Forall (λ kl : Z * Z, 0 ≤ fst kl ∧ 1 ≤ snd kl) (word_stats u') →
    tabKeyCount u' = tabKeyCount u →
    prediction_model u' = prediction_model u →
    current_suggestion_idx u' = 0 →
    suggestions u' = suggest (prediction_model u) (current_word u') →
    ui_ok u' ∧ suggestions_ok u' ∧ prediction_model u' = prediction_model u
    ∧ true = false || negb false
    ∧ tabKeyCount u' = tabKeyCount u + (if negb false && false then 1 else 0)).
  { intros u' Hp' Hk' Hs' Ht' Hm' Hi' Hg'. split; [| split; [| split; [| split]]].
    - apply ui_ok_intro; rewrite ?Ht', ?Hm', ?Hi'; try assumption; try lia.
      apply suggestions_index_ok.
    - right. rewrite Hm'. exact Hg'.
    - exact Hm'.
    - reflexivity.
    - simpl. lia. }
  assert (Hstill : handle_input KEY_RESIZE KEY_BACKSPACE KEY_LEFT KEY_RIGHT key u = Ok (true, u) →
    ∃ b u', handle_input KEY_RESIZE KEY_BACKSPACE KEY_LEFT KEY_RIGHT key u = Ok (b, u') ∧ ui_ok u' ∧ suggestions_ok u'
            ∧ prediction_model u' = prediction_model u
            ∧ b = false || negb false
            ∧ tabKeyCount u' = tabKeyCount u + (if negb false && false then 1 else 0)).
  { intros E. exists true, u. split; [exact E |].
    split; [exact Hu |]. split; [exact Hsug |].
    split; [reflexivity |]. split; [reflexivity | simpl; lia]. }
  destruct ((key =? KEY_BACKSPACE) || (key =? 127) || (key =? 8)) eqn:H5.
  { destruct (Z_lt_le_dec 0 (cursor_pos u)) as [Hp|Hp].
    - destruct (handle_backspace key u H1 H2 H3 H4 H5 (conj Hp (proj2 Hpos)) Hm)
        as (c & u' & Hc & E & Hui & Hcp & Hkw & Hws & Htb & Hmd & Hix & Hsg).
      exists true, u'. split; [exact E |]. apply Hfinish; try assumption.
      + rewrite Hui, Hcp, len_append, slice_to_len, slice_from_len by lia. lia.
      + rewrite Hkw.
        destruct (PyText.is_alpha c && (current_word_keystrokes u >? 0)) eqn:Ea; [| exact Hk].
        apply andb_prop in Ea as [_ Ea]. lia.
      + rewrite Hws. exact Hst.
    - apply Hstill, handle_still; try assumption. tauto. }
  destruct (key =? KEY_LEFT) eqn:H6.
  { destruct (Z_lt_le_dec 0 (cursor_pos u)) as [Hp|Hp].
    - destruct (handle_move key u H1 H2 H3 H4 H5 Hm (-1))
        as (u' & E & Hui & Hcp & Hkw & Hws & Htb & Hmd & Hix & Hsg);
        [left; repeat split; assumption |].
      exists true, u'. split; [exact E |]. apply Hfinish; try assumption.
      + rewrite Hui, Hcp. lia.
      + rewrite Hkw. exact Hk.
      + rewrite Hws. exact Hst.
    - apply Hstill, handle_still; try assumption. tauto. }
  destruct (key =? KEY_RIGHT) eqn:H7.
  { destruct (Z_lt_le_dec (cursor_pos u) (PyStr.len (user_input u))) as [Hp|Hp].
    - destruct (handle_move key u H1 H2 H3 H4 H5 Hm 1)
        as (u' & E & Hui & Hcp & Hkw & Hws & Htb & Hmd & Hix & Hsg);
        [right; repeat split; assumption |].
      exists true, u'. split; [exact E |]. apply Hfinish; try assumption.
      + rewrite Hui, Hcp. lia.
      + rewrite Hkw. exact Hk.
      + rewrite Hws. exact Hst.
    - apply Hstill, handle_still; try assumption. tauto. }
  destruct ((32 <=? key) && (key <=? 126)) eqn:H8.
  - apply orb_false_iff in H5 as [H5 _]. apply orb_false_iff in H5 as [H5 _].
    destruct (handle_printable key u H1 H5 H6 H7) as
      (u' & E & Hui & Hcp & Hkw & Hws & Htb & Hmd & Hix & Hsg); [lia | exact Hm |].
    exists true, u'. split; [exact E |]. apply Hfinish; try assumption.
    + rewrite Hui, Hcp, !len_append, slice_to_len, slice_from_len by lia.
      change (PyStr.len (String _ EmptyString)) with 1. lia.
    + rewrite Hkw. destruct (Ascii.eqb _ _); [lia |].
      destruct (PyText.is_alpha _); lia.
    + rewrite Hws. destruct (Ascii.eqb _ _); [| exact Hst].
      apply Forall_app. split; [exact Hst | apply new_stats_ok, Hk].
  - apply Hstill, handle_still; try assumption. tauto.
Qed.

(** A session keeps the state well formed, whatever the keys. *)
Lemma handle_inputs_ok (keys : list Z) (u : TerminalUI) :
  ui_ok u → suggestions_ok u →
  ∃ b u', handle_inputs KEY_RESIZE KEY_BACKSPACE KEY_LEFT KEY_RIGHT keys u = Ok (b, u')
          ∧ ui_ok u' ∧ suggestions_ok u'
          ∧ prediction_model u' = prediction_model u.
Proof.
  revert u. induction keys as [|key keys IH]; intros u Hu Hs.
  - exists true, u. split; [reflexivity |]. split; [exact Hu |].
    split; [exact Hs | reflexivity].
  - destruct (handle_input_ok key u Hu Hs) as (b & u1 & E & Hu1 & Hs1 & Hm1 & _).
    cbn [handle_inputs]. rewrite ui_bind_run, E. destruct b.
    + destruct (IH u1 Hu1 Hs1) as (b' & u' & E' & Hu' & Hs' & Hm').
      exists b', u'. rewrite E'. split; [reflexivity |]. split; [exact Hu' |].
      split; [exact Hs' | congruence].
    + exists false, u1. split; [reflexivity |]. split; [exact Hu1 |].
      split; [exact Hs1 | exact Hm1].
Qed.

End KeyRuns.

(** ** The word under the cursor, and its replacement *)

Lemma slice_middle (a b c : string) :
  PyStr.slice (a ++ b ++ c) (PyStr.len a) (PyStr.len a + PyStr.len b) = b.
Proof.
  rewrite slice_inside.
  - unfold PyStr.len. rewrite Nat2Z.id, drop_append.
    replace (Z.to_nat _) with (String.length b) by lia.
    apply take_append.
  - unfold PyStr.len. lia.
  - rewrite !len_append. unfold PyStr.len. lia.
Qed.

Lemma find_last_word_start_eq (text : string) (pos : Z) :
  0 ≤ pos ≤ PyStr.len text →
  find_last_word_start text pos
  = pos - PyStr.len (PyText.trailing_word (PyText.slice_to text pos)).
Proof.
  intros Hpos. unfold find_last_word_start.
  destruct (pos =? 0) eqn:E; [| reflexivity].
  apply Z.eqb_eq in E. subst pos.
  rewrite slice_to_take by exact Hpos. reflexivity.
Qed.

Lemma chop_newline_id (s : string) :
  PyText.ends_with "010" s = false → PyText.chop_newline s = s.
Proof.
  induction s as [|c s IH]; [reflexivity |].
  destruct s as [|x s].
  - cbn [PyText.ends_with PyText.chop_newline]. intros ->. reflexivity.
  - intros H.
    change (PyText.chop_newline (String c (String x s)))
      with (String c (PyText.chop_newline (String x s))).
    rewrite (IH H). reflexivity.
Qed.

Lemma ends_with_append (c : ascii) (a b : string) :
  b ≠ EmptyString → PyText.ends_with c (a ++ b) = PyText.ends_with c b.
Proof.
  intros Hb. induction a as [|x a IH]; [reflexivity |].
  rewrite append_cons. destruct (a ++ b) as [|y r] eqn:E.
  - destruct a; [rewrite append_nil in E; congruence | rewrite append_cons in E; discriminate].
  - exact IH.
Qed.

Lemma no_space_ends_with (w : string) :
  PyText.no_space w = true → PyText.ends_with "010" w = false.
Proof.
  induction w as [|c w IH]; [reflexivity |].
  cbn [PyText.no_space]. intros H. apply andb_prop in H as [Hc Hw].
  destruct w as [|x w].
  - cbn [PyText.ends_with]. destruct (Ascii.eqb c "010") eqn:E; [| reflexivity].
    apply Ascii.eqb_eq in E. subst c. discriminate.
  - exact (IH Hw).
Qed.

Lemma trailing_run_empty (pre : string) :
  PyText.trailing_run pre = EmptyString →
  pre = EmptyString
  ∨ ∃ pre' c, pre = pre' ++ String c EmptyString ∧ PyStr.is_space c = true.
Proof.
  induction pre as [|c pre IH]; [left; reflexivity |].
  cbn [PyText.trailing_run].
  destruct (PyText.no_space (String c pre)) eqn:E; [discriminate |].
  intros Hrun. right. destruct (IH Hrun) as [-> | (pre' & x & -> & Hx)].
  - exists EmptyString, c. split; [reflexivity |].
    cbn [PyText.no_space] in E. rewrite andb_true_r in E.
    destruct (PyStr.is_space c); [reflexivity | discriminate].
  - exists (String c pre'), x. split; [reflexivity | exact Hx].
Qed.

(** The text up to the cursor is some [pre] followed by the current
    word; the word has no white space, and [pre] has no trailing word. *)
Lemma current_word_split (u : TerminalUI) :
  0 ≤ cursor_pos u ≤ PyStr.len (user_input u) →
  PyText.ends_with "010" (PyText.slice_to (user_input u) (cursor_pos u)) = false →
  ∃ pre, user_input u
         = pre ++ current_word u ++ PyStr.slice_from (user_input u) (cursor_pos u)
         ∧ PyText.slice_to (user_input u) (cursor_pos u) = pre ++ current_word u
         ∧ cursor_pos u = PyStr.len pre + PyStr.len (current_word u)
         ∧ find_last_word_start (user_input u) (cursor_pos u) = PyStr.len pre
         ∧ PyText.no_space (current_word u) = true
         ∧ PyText.trailing_run pre = EmptyString.
Proof.
  intros Hpos Hnl.
  set (text := user_input u) in *. set (pos := cursor_pos u) in *.
  set (t := PyText.slice_to text pos) in *.
  destruct (trailing_run_split t) as (pre & Ht & Hns & Hpre).
  set (w := PyText.trailing_run t) in *.
  assert (Hlen : pos = PyStr.len pre + PyStr.len w).
  { rewrite <- len_append, <- Ht. unfold t. rewrite slice_to_len by exact Hpos. reflexivity. }
  assert (Hws : find_last_word_start text pos = PyStr.len pre).
  { rewrite find_last_word_start_eq by exact Hpos. fold t.
    unfold PyText.trailing_word. rewrite chop_newline_id by exact Hnl. fold w. lia. }
  assert (Htext : text = pre ++ w ++ PyStr.slice_from text pos).
  { rewrite <- append_assoc, <- Ht. unfold t. symmetry. apply slice_to_from, Hpos. }
  assert (Hcw : current_word u = w).
  { unfold current_word. fold text pos. rewrite Hws.
    rewrite Htext at 1. rewrite Hlen. apply slice_middle. }
  exists pre. rewrite Hcw. repeat split; assumption.
Qed.

(** X18: with the cursor inside the text and no line feed just before
    it, [get_current_word] returns the longest run without white space
    that ends at the cursor: the text up to the cursor is [pre + w] where
    [w], the word returned, holds no white space and [pre] is empty or
    ends with a white space character.  Nothing is written. *)
Theorem current_word_is_last_run (u : TerminalUI) :
  0 ≤ cursor_pos u ≤ PyStr.len (user_input u) →
  PyText.ends_with "010" (PyText.slice_to (user_input u) (cursor_pos u)) = false →
  ∃ pre w, get_current_word u = Ok (w, u)
           ∧ PyText.slice_to (user_input u) (cursor_pos u) = pre ++ w
           ∧ PyText.no_space w = true
           ∧ (pre = EmptyString
              ∨ ∃ pre' c, pre = pre' ++ String c EmptyString ∧ PyStr.is_space c = true).
Proof.
  intros Hpos Hnl.
  destruct (current_word_split u Hpos Hnl) as (pre & _ & Ht & _ & _ & Hns & Hpre).
  exists pre, (current_word u). split; [apply get_current_word_run |].
  split; [exact Ht |]. split; [exact Hns |]. apply trailing_run_empty, Hpre.
Qed.

Lemma current_word_is_last_run_witness :
  0 ≤ cursor_pos example_ui ≤ PyStr.len (user_input example_ui)
  ∧ PyText.ends_with "010" (PyText.slice_to (user_input example_ui) (cursor_pos example_ui)) = false
  ∧ ∃ pre w, get_current_word example_ui = Ok (w, example_ui)
           ∧ PyText.slice_to (user_input example_ui) (cursor_pos example_ui) = pre ++ w
           ∧ PyText.no_space w = true
           ∧ (pre = EmptyString
              ∨ ∃ pre' c, pre = pre' ++ String c EmptyString ∧ PyStr.is_space c = true).
Proof.
  split; [vm_compute; split; discriminate |]. split; [reflexivity |].
  apply (current_word_is_last_run example_ui);
    [vm_compute; split; discriminate | reflexivity].
Defined.

(** The state after [replace_current_word]. *)
Lemma replace_current_word_split (new_word : string) (u : TerminalUI) :
  0 ≤ cursor_pos u ≤ PyStr.len (user_input u) →
  PyText.ends_with "010" (PyText.slice_to (user_input u) (cursor_pos u)) = false →
  PyText.no_space new_word = true → new_word ≠ EmptyString →
  ∃ pre post u',
    user_input u = pre ++ current_word u ++ post
    ∧ cursor_pos u = PyStr.len pre + PyStr.len (current_word u)
    ∧ replace_current_word new_word u = Ok (tt, u')
    ∧ user_input u' = pre ++ new_word ++ post
    ∧ cursor_pos u' = PyStr.len pre + PyStr.len new_word
    ∧ current_word u' = new_word.
Proof.
  intros Hpos Hnl Hns Hne.
  destruct (current_word_split u Hpos Hnl) as (pre & Htext & Ht & Hlen & Hws & _ & Hpre).
  exists pre, (PyStr.slice_from (user_input u) (cursor_pos u)).
  eexists. split; [exact Htext |]. split; [exact Hlen |].
  split; [apply replace_current_word_run |].
  rewrite Hws. cbn [user_input cursor_pos set_cursor_pos set_user_input].
  assert (Hpre' : PyText.slice_to (user_input u) (PyStr.len pre) = pre).
  { rewrite Htext at 1. apply slice_to_append. }
  rewrite Hpre'. split; [reflexivity |]. split; [reflexivity |].
  unfold current_word. cbn [user_input cursor_pos set_cursor_pos set_user_input].
  set (post := PyStr.slice_from (user_input u) (cursor_pos u)).
  assert (Hbefore : PyText.slice_to (pre ++ new_word ++ post)
                      (PyStr.len pre + PyStr.len new_word) = pre ++ new_word).
  { rewrite <- append_assoc, <- len_append. apply slice_to_append. }
  assert (Hstart : find_last_word_start (pre ++ new_word ++ post)
                     (PyStr.len pre + PyStr.len new_word) = PyStr.len pre).
  { rewrite find_last_word_start_eq
      by (rewrite !len_append; unfold PyStr.len; lia).
    rewrite Hbefore. unfold PyText.trailing_word.
    rewrite chop_newline_id
      by (rewrite ends_with_append by exact Hne; apply no_space_ends_with, Hns).
    rewrite trailing_run_append by assumption. lia. }
  rewrite Hstart. apply slice_middle.
Qed.

(** X19: replacing the current word and reading it back.  With the
    cursor inside the text, no line feed just before it, and a new word
    that is not empty and holds no white space: the text is
    [pre + old + post] with [old] the current word and the cursor after
    it; after [replace_current_word(new)] the text is [pre + new + post],
    the cursor is after [new], and [get_current_word] returns [new]. *)
Theorem replace_then_get_current_word (new_word : string) (u : TerminalUI) :
  0 ≤ cursor_pos u ≤ PyStr.len (user_input u) →
  PyText.ends_with "010" (PyText.slice_to (user_input u) (cursor_pos u)) = false →
  PyText.no_space new_word = true → new_word ≠ EmptyString →
  ∃ pre old post u',
    user_input u = pre ++ old ++ post
    ∧ cursor_pos u = PyStr.len pre + PyStr.len old
    ∧ get_current_word u = Ok (old, u)
    ∧ replace_current_word new_word u = Ok (tt, u')
    ∧ user_input u' = pre ++ new_word ++ post
    ∧ cursor_pos u' = PyStr.len pre + PyStr.len new_word
    ∧ get_current_word u' = Ok (new_word, u').
Proof.
  intros Hpos Hnl Hns Hne.
  destruct (replace_current_word_split new_word u Hpos Hnl Hns Hne)
    as (pre & post & u' & H1 & H2 & H3 & H4 & H5 & H6).
  exists pre, (current_word u), post, u'.
  split; [exact H1 |]. split; [exact H2 |]. split; [apply get_current_word_run |].
  split; [exact H3 |]. split; [exact H4 |]. split; [exact H5 |].
  rewrite get_current_word_run, H6. reflexivity.
Qed.

Lemma replace_then_get_current_word_witness :
  0 ≤ cursor_pos example_ui ≤ PyStr.len (user_input example_ui)
  ∧ PyText.ends_with "010" (PyText.slice_to (user_input example_ui) (cursor_pos example_ui)) = false
  ∧ PyText.no_space "quick" = true ∧ "quick" ≠ EmptyString
  ∧ ∃ pre old post u',
    user_input example_ui = pre ++ old ++ post
    ∧ cursor_pos example_ui = PyStr.len pre + PyStr.len old
    ∧ get_current_word example_ui = Ok (old, example_ui)
    ∧ replace_current_word "quick" example_ui = Ok (tt, u')
    ∧ user_input u' = pre ++ "quick" ++ post
    ∧ cursor_pos u' = PyStr.len pre + PyStr.len "quick"
    ∧ get_current_word u' = Ok ("quick", u').
Proof.
  split; [vm_compute; split; discriminate |]. split; [reflexivity |].
  split; [reflexivity |]. split; [discriminate |].
  apply (replace_then_get_current_word "quick" example_ui);
    [vm_compute; split; discriminate | reflexivity | reflexivity | discriminate].
Defined.

(** ** Sessions *)

Lemma new_ui_ok (m : Model) :
  tables_ok m → ui_ok (new_ui m) ∧ suggestions_ok (new_ui m).
Proof.
  intros Hm. split; [| left; reflexivity].
  apply ui_ok_intro; cbn; try lia; try congruence; try exact Hm.
  - unfold PyStr.len. simpl. lia.
  - constructor.
Qed.

(** What holds at every point of a session that starts from a model
    with well-formed tables. *)
Lemma session_ok (KEY_RESIZE KEY_BACKSPACE KEY_LEFT KEY_RIGHT : Z)
    (m : Model) (keys : list Z) :
  tables_ok m →
  ∃ b u', handle_inputs KEY_RESIZE KEY_BACKSPACE KEY_LEFT KEY_RIGHT keys (new_ui m)
          = Ok (b, u')
          ∧ ui_ok u' ∧ suggestions_ok u' ∧ prediction_model u' = m.
Proof.
  intros Hm. destruct (new_ui_ok m Hm) as [Hu Hs].
  apply (handle_inputs_ok KEY_RESIZE KEY_BACKSPACE KEY_LEFT KEY_RIGHT keys _ Hu Hs).
Qed.

Lemma session_state_ok (KEY_RESIZE KEY_BACKSPACE KEY_LEFT KEY_RIGHT : Z)
    (m : Model) (keys : list Z) (b : bool) (u : TerminalUI) :
  tables_ok m →
  handle_inputs KEY_RESIZE KEY_BACKSPACE KEY_LEFT KEY_RIGHT keys (new_ui m) = Ok (b, u) →
  ui_ok u ∧ suggestions_ok u ∧ prediction_model u = m.
Proof.
  intros Hm E.
  destruct (session_ok KEY_RESIZE KEY_BACKSPACE KEY_LEFT KEY_RIGHT m keys Hm)
    as (b' & u' & E' & H).
  rewrite E in E'. injection E' as <- <-. exact H.
Qed.

(** X20: a session never raises and keeps its state well formed.  On
    every constructed model, for every sequence of keys and whatever the
    key codes of the curses library are, the keys are handled without an
    exception; afterwards the cursor lies inside the text, the selected
    index lies inside a non-empty list of suggestions, the letter counter
    is not negative, every recorded pair [(k, l)] has [k ≥ 0] and
    [l ≥ 1], and the model is the one the session started with. *)
Theorem session_keeps_state_well_formed
    (st wt : string → list string) (corpus : string) (n0 : Z)
    (KEY_RESIZE KEY_BACKSPACE KEY_LEFT KEY_RIGHT : Z) (keys : list Z) :
  ∃ m, __init__ st wt corpus n0 = Ok m
       ∧ ∃ b u', handle_inputs KEY_RESIZE KEY_BACKSPACE KEY_LEFT KEY_RIGHT keys (new_ui m)
                 = Ok (b, u')
                 ∧ 0 ≤ cursor_pos u' ≤ PyStr.len (user_input u')
                 ∧ (suggestions u' ≠ []
                    → 0 ≤ current_suggestion_idx u' < Z.of_nat (length (suggestions u')))
                 ∧ 0 ≤ current_word_keystrokes u'
                 ∧ Forall (λ kl : Z * Z, 0 ≤ fst kl ∧ 1 ≤ snd kl) (word_stats u')
                 ∧ prediction_model u' = m.
Proof.
  destruct (init_ok st wt corpus n0) as (m & E & Hm & _).
  exists m. split; [exact E |].
  destruct (session_ok KEY_RESIZE KEY_BACKSPACE KEY_LEFT KEY_RIGHT m keys Hm)
    as (b & u' & E' & (Hpos & Hidx & Hsel & Hk & _ & Hst & _) & _ & Hmd).
  exists b, u'. split; [exact E' |]. split; [exact Hpos |].
  split; [intros Hne; split; [exact Hidx | exact (Hsel Hne)] |].
  split; [exact Hk |]. split; [exact Hst | exact Hmd].
Qed.

(** X21: the suggestions shown always fit the word under the cursor.  On
    every constructed model, after every sequence of keys, there are at
    most ten suggestions, and each is a word of the vocabulary that
    starts with the lower-cased word [get_current_word] returns. *)
Theorem session_suggestions_match_current_word
    (st wt : string → list string) (corpus : string) (n0 : Z)
    (KEY_RESIZE KEY_BACKSPACE KEY_LEFT KEY_RIGHT : Z) (keys : list Z) :
  ∃ m, __init__ st wt corpus n0 = Ok m
       ∧ ∃ b u' cw,
           handle_inputs KEY_RESIZE KEY_BACKSPACE KEY_LEFT KEY_RIGHT keys (new_ui m)
           = Ok (b, u')
           ∧ get_current_word u' = Ok (cw, u')
           ∧ Z.of_nat (length (suggestions u')) ≤ 10
           ∧ ∀ w, w ∈ suggestions u' →
                  w ∈ words m ∧ PyStr.startswith w (PyStr.lower cw) = true.
Proof.
  destruct (init_ok st wt corpus n0) as (m & E & Hm & _).
  exists m. split; [exact E |].
  destruct (session_ok KEY_RESIZE KEY_BACKSPACE KEY_LEFT KEY_RIGHT m keys Hm)
    as (b & u' & E' & _ & Hs & Hmd).
  exists b, u', (current_word u'). split; [exact E' |].
  split; [apply get_current_word_run |].
  destruct Hs as [Hs | Hs]; rewrite Hs.
  - split; [simpl; lia |]. intros w Hw. apply elem_of_nil in Hw. destruct Hw.
  - rewrite Hmd. split; [apply suggest_length |]. intros w Hw. apply suggest_In, Hw.
Qed.

(** How a session ends and what it counts, when the key code for a
    resize is neither Tab nor ESC. *)
Lemma handle_inputs_result (KEY_RESIZE KEY_BACKSPACE KEY_LEFT KEY_RIGHT : Z)
    (keys : list Z) (u : TerminalUI) :
  KEY_RESIZE ≠ 9 → KEY_RESIZE ≠ 27 →
  ui_ok u → suggestions_ok u →
  ∃ u', handle_inputs KEY_RESIZE KEY_BACKSPACE KEY_LEFT KEY_RIGHT keys u
        = Ok (negb (bool_decide (27 ∈ keys)), u')
        ∧ tabKeyCount u' = tabKeyCount u + tabs_pressed keys.
Proof.
  intros H9 H27. revert u. induction keys as [|key keys IH]; intros u Hu Hs.
  - exists u. split; [reflexivity | simpl; lia].
  - destruct (handle_input_ok KEY_RESIZE KEY_BACKSPACE KEY_LEFT KEY_RIGHT key u Hu Hs)
      as (b & u1 & E & Hu1 & Hs1 & _ & Hb & Ht).
    cbn [handle_inputs tabs_pressed]. rewrite ui_bind_run, E.
    destruct (key =? 27) eqn:E27.
    + apply Z.eqb_eq in E27. subst key.
      replace (27 =? KEY_RESIZE) with false in Hb, Ht by lia.
      simpl in Hb, Ht. subst b. exists u1.
      rewrite bool_decide_true by (left). split; [reflexivity | lia].
    + apply Z.eqb_neq in E27.
      assert (b = true) as -> by (rewrite Hb; apply orb_true_r).
      destruct (IH u1 Hu1 Hs1) as (u' & E' & Ht').
      exists u'. rewrite E'. split.
      * do 2 f_equal. f_equal. apply bool_decide_ext.
        rewrite elem_of_cons. intuition congruence.
      * rewrite Ht', Ht. destruct (key =? 9) eqn:E9.
        -- apply Z.eqb_eq in E9. subst key.
           replace (9 =? KEY_RESIZE) with false by lia. simpl. lia.
        -- rewrite andb_false_r. lia.
Qed.

(** X22: how a session ends and what it counts.  When the key code of a
    resize is neither 9 nor 27, a session on a constructed model goes on
    exactly as long as no ESC (27) is read, and the final [tabKeyCount] is
    the number of Tab keys (9) read before the first ESC. *)
Theorem session_ends_on_esc_and_counts_tabs
    (st wt : string → list string) (corpus : string) (n0 : Z)
    (KEY_RESIZE KEY_BACKSPACE KEY_LEFT KEY_RIGHT : Z) (keys : list Z) :
  KEY_RESIZE ≠ 9 → KEY_RESIZE ≠ 27 →
  ∃ m, __init__ st wt corpus n0 = Ok m
       ∧ ∃ u', handle_inputs KEY_RESIZE KEY_BACKSPACE KEY_LEFT KEY_RIGHT keys (new_ui m)
               = Ok (negb (bool_decide (27 ∈ keys)), u')
               ∧ tabKeyCount u' = tabs_pressed keys.
Proof.
  intros H9 H27. destruct (init_ok st wt corpus n0) as (m & E & Hm & _).
  exists m. split; [exact E |].
  destruct (new_ui_ok m Hm) as [Hu Hs].
  destruct (handle_inputs_result KEY_RESIZE KEY_BACKSPACE KEY_LEFT KEY_RIGHT keys
              (new_ui m) H9 H27 Hu Hs) as (u' & E' & Ht).
  exists u'. split; [exact E' |]. rewrite Ht. reflexivity.
Qed.

Lemma session_ends_on_esc_and_counts_tabs_witness :
  410 ≠ 9 ∧ 410 ≠ 27
  ∧ ∃ m, build "the cat sat on the mat the cat ran" 3 = Ok m
       ∧ ∃ u', handle_inputs 410 263 260 261 [116; 9; 104; 9; 27; 9] (new_ui m)
               = Ok (false, u')
               ∧ tabKeyCount u' = 2.
Proof.
  split; [lia |]. split; [lia |].
  apply (session_ends_on_esc_and_counts_tabs
           simple_sent_tokenize simple_word_tokenize
           "the cat sat on the mat the cat ran" 3
           410 263 260 261 [116; 9; 104; 9; 27; 9]); lia.
Defined.

(** ** Tab, Enter, and typing followed by backspace *)

Lemma handle_tabs (KEY_RESIZE KEY_BACKSPACE KEY_LEFT KEY_RIGHT : Z)
    (j : nat) (u : TerminalUI) :
  KEY_RESIZE ≠ 9 →
  0 ≤ current_suggestion_idx u < Z.of_nat (length (suggestions u)) →
  ∃ u', handle_inputs KEY_RESIZE KEY_BACKSPACE KEY_LEFT KEY_RIGHT (replicate j 9) u
        = Ok (true, u')
        ∧ current_suggestion_idx u'
          = (current_suggestion_idx u + Z.of_nat j) `mod` Z.of_nat (length (suggestions u))
        ∧ tabKeyCount u' = tabKeyCount u + Z.of_nat j
        ∧ suggestions u' = suggestions u
        ∧ user_input u' = user_input u
        ∧ cursor_pos u' = cursor_pos u
        ∧ current_word_keystrokes u' = current_word_keystrokes u
        ∧ word_stats u' = word_stats u
        ∧ prediction_model u' = prediction_model u.
Proof.
  intros H9. revert u. induction j as [|j IH]; intros u Hidx.
  - exists u. split; [reflexivity |].
    rewrite Z.add_0_r, Z.mod_small by exact Hidx.
    repeat split; lia.
  - assert (E9 : (9 =? KEY_RESIZE) = false) by lia.
    destruct (handle_tab KEY_RESIZE KEY_BACKSPACE KEY_LEFT KEY_RIGHT u E9)
      as (u1 & E & Hui & Hcp & Hkw & Hws & Htb & Hmd & Hsg & Hix).
    assert (Hix1 : current_suggestion_idx u1
                   = (current_suggestion_idx u + 1)
                     `mod` Z.of_nat (length (suggestions u))).
    { rewrite Hix. destruct (suggestions u); [simpl in Hidx; lia | reflexivity]. }
    destruct (IH u1) as (u' & E' & Hix' & Htb' & Hsg' & Hui' & Hcp' & Hkw' & Hws' & Hmd').
    { rewrite Hsg, Hix1. apply Z.mod_pos_bound. lia. }
    exists u'. cbn [replicate handle_inputs]. rewrite ui_bind_run, E, E'.
    split; [reflexivity |]. split.
    { rewrite Hix', Hsg, Hix1, Zplus_mod_idemp_l. f_equal. lia. }
    repeat split; try congruence. lia.
Qed.

(** X23: Tab walks cyclically through the suggestions.  With a selected
    index inside the list of suggestions and a resize key code other than
    9, pressing Tab [j] times selects index [(i + j) mod len], adds [j]
    to [tabKeyCount] and leaves the text, the cursor and the suggestions
    as they are; after as many presses as there are suggestions the
    selection is where it started. *)
Theorem tab_cycles_through_suggestions
    (KEY_RESIZE KEY_BACKSPACE KEY_LEFT KEY_RIGHT : Z) (j : nat) (u : TerminalUI) :
  KEY_RESIZE ≠ 9 →
  0 ≤ current_suggestion_idx u < Z.of_nat (length (suggestions u)) →
  ∃ u', handle_inputs KEY_RESIZE KEY_BACKSPACE KEY_LEFT KEY_RIGHT (replicate j 9) u
        = Ok (true, u')
        ∧ current_suggestion_idx u'
          = (current_suggestion_idx u + Z.of_nat j) `mod` Z.of_nat (length (suggestions u))
        ∧ (j = length (suggestions u) →
           current_suggestion_idx u' = current_suggestion_idx u)
        ∧ tabKeyCount u' = tabKeyCount u + Z.of_nat j
        ∧ suggestions u' = suggestions u
        ∧ user_input u' = user_input u
        ∧ cursor_pos u' = cursor_pos u.
Proof.
  intros H9 Hidx.
  destruct (handle_tabs KEY_RESIZE KEY_BACKSPACE KEY_LEFT KEY_RIGHT j u H9 Hidx)
    as (u' & E & Hix & Htb & Hsg & Hui & Hcp & _).
  exists u'. split; [exact E |]. split; [exact Hix |].
  split; [| repeat split; assumption].
  intros ->. rewrite Hix.
  rewrite <- (Z.mul_1_l (Z.of_nat (length (suggestions u)))) at 1.
  rewrite Z_mod_plus_full. apply Z.mod_small, Hidx.
Qed.

Lemma tab_cycles_through_suggestions_witness :
  410 ≠ 9
  ∧ 0 ≤ current_suggestion_idx example_ui < Z.of_nat (length (suggestions example_ui))
  ∧ ∃ u', handle_inputs 410 263 260 261 (replicate 2 9) example_ui = Ok (true, u')
          ∧ current_suggestion_idx u'
            = (current_suggestion_idx example_ui + Z.of_nat 2)
              `mod` Z.of_nat (length (suggestions example_ui))
          ∧ (2%nat = length (suggestions example_ui) →
             current_suggestion_idx u' = current_suggestion_idx example_ui)
          ∧ tabKeyCount u' = tabKeyCount example_ui + Z.of_nat 2
          ∧ suggestions u' = suggestions example_ui
          ∧ user_input u' = user_input example_ui
          ∧ cursor_pos u' = cursor_pos example_ui.
Proof.
  split; [lia |]. split; [simpl; lia |].
  apply (tab_cycles_through_suggestions 410 263 260 261 2 example_ui);
    [lia | simpl; lia].
Defined.

Lemma current_word_length (u : TerminalUI) :
  0 ≤ cursor_pos u ≤ PyStr.len (user_input u) →
  find_last_word_start (user_input u) (cursor_pos u)
  = cursor_pos u - PyStr.len (current_word u).
Proof.
  intros Hpos.
  pose proof (find_last_word_start_bounds _ _ Hpos) as Hws.
  unfold current_word. rewrite slice_inside by lia.
  unfold PyStr.len in *. rewrite take_length, drop_length. lia.
Qed.

(** X24: Enter accepts the selected suggestion.  At every point of a
    session on a constructed model where suggestions are shown (and the
    resize key code is not 10), Enter raises nothing; the selected
    suggestion [w] is a word of the vocabulary that starts with the
    lower-cased current word; the characters of the current word before
    the cursor are replaced by [w], the cursor is placed after it, the
    suggestions are cleared and the letter counter is reset. *)
Theorem enter_accepts_selected_suggestion
    (st wt : string → list string) (corpus : string) (n0 : Z)
    (KEY_RESIZE KEY_BACKSPACE KEY_LEFT KEY_RIGHT : Z) :
  KEY_RESIZE ≠ 10 →
  ∃ m, __init__ st wt corpus n0 = Ok m
       ∧ ∀ keys u,
           handle_inputs KEY_RESIZE KEY_BACKSPACE KEY_LEFT KEY_RIGHT keys (new_ui m)
           = Ok (true, u) →
           suggestions u ≠ [] →
           ∃ cw w u',
             get_current_word u = Ok (cw, u)
             ∧ list_index (suggestions u) (current_suggestion_idx u) = Some w
             ∧ w ∈ words m ∧ PyStr.startswith w (PyStr.lower cw) = true
             ∧ handle_input KEY_RESIZE KEY_BACKSPACE KEY_LEFT KEY_RIGHT 10 u = Ok (true, u')
             ∧ user_input u'
               = PyText.slice_to (user_input u) (cursor_pos u - PyStr.len cw) ++ w
                 ++ PyStr.slice_from (user_input u) (cursor_pos u)
             ∧ cursor_pos u' = cursor_pos u - PyStr.len cw + PyStr.len w
             ∧ suggestions u' = []
             ∧ current_suggestion_idx u' = 0
             ∧ current_word_keystrokes u' = 0
             ∧ tabKeyCount u' = tabKeyCount u.
Proof.
  intros H10. destruct (init_ok st wt corpus n0) as (m & E & Hm & _).
  exists m. split; [exact E |]. intros keys u Hrun Hne.
  destruct (session_state_ok _ _ _ _ m keys true u Hm Hrun)
    as ((Hpos & Hidx & Hsel & _) & Hs & Hmd).
  destruct Hs as [Hs | Hs]; [congruence |].
  assert (E10 : (10 =? KEY_RESIZE) = false) by lia.
  destruct (handle_enter KEY_RESIZE KEY_BACKSPACE KEY_LEFT KEY_RIGHT u E10 Hidx)
    as (u' & E' & Hed & Hkw & _ & Htb & _ & Hsg & Hix).
  rewrite list_index_nonneg in * by exact Hidx.
  destruct (lookup_lt_is_Some_2 (suggestions u) (Z.to_nat (current_suggestion_idx u)))
    as [w Hw]; [specialize (Hsel Hne); lia |].
  rewrite Hw in Hed. destruct Hed as [Hui Hcp].
  exists (current_word u), w, u'. split; [apply get_current_word_run |].
  split; [exact Hw |].
  assert (Hin : w ∈ suggest m (current_word u)).
  { rewrite <- Hmd, <- Hs. apply list_elem_of_lookup_2 in Hw. exact Hw. }
  apply suggest_In in Hin as [Hin Hpre].
  split; [exact Hin |]. split; [exact Hpre |]. split; [exact E' |].
  rewrite <- (current_word_length u Hpos).
  repeat split; assumption.
Qed.

Lemma enter_accepts_selected_suggestion_witness :
  410 ≠ 10
  ∧ ∃ m, build "the cat sat on the mat the cat ran" 3 = Ok m
       ∧ ∀ keys u,
           handle_inputs 410 263 260 261 keys (new_ui m) = Ok (true, u) →
           suggestions u ≠ [] →
           ∃ cw w u',
             get_current_word u = Ok (cw, u)
             ∧ list_index (suggestions u) (current_suggestion_idx u) = Some w
             ∧ w ∈ words m ∧ PyStr.startswith w (PyStr.lower cw) = true
             ∧ handle_input 410 263 260 261 10 u = Ok (true, u')
             ∧ user_input u'
               = PyText.slice_to (user_input u) (cursor_pos u - PyStr.len cw) ++ w
                 ++ PyStr.slice_from (user_input u) (cursor_pos u)
             ∧ cursor_pos u' = cursor_pos u - PyStr.len cw + PyStr.len w
             ∧ suggestions u' = []
             ∧ current_suggestion_idx u' = 0
             ∧ current_word_keystrokes u' = 0
             ∧ tabKeyCount u' = tabKeyCount u.
Proof.
  split; [lia |].
  apply (enter_accepts_selected_suggestion
           simple_sent_tokenize simple_word_tokenize
           "the cat sat on the mat the cat ran" 3 410 263 260 261). lia.
Defined.

Lemma printable_not_space (key : Z) :
  32 < key ≤ 126 → Ascii.eqb (ascii_of_N (Z.to_N key)) " " = false.
Proof.
  intros Hkey. apply Ascii.eqb_neq. intros Heq.
  apply (f_equal N_of_ascii) in Heq.
  rewrite N_ascii_embedding in Heq by lia. simpl in Heq. lia.
Qed.

(** Typing a character other than a space and deleting it again. *)
Lemma type_then_backspace (KEY_RESIZE KEY_BACKSPACE KEY_LEFT KEY_RIGHT : Z)
    (key : Z) (u : TerminalUI) :
  32 < key ≤ 126 →
  255 < KEY_RESIZE → 255 < KEY_BACKSPACE → 255 < KEY_LEFT → 255 < KEY_RIGHT →
  ui_ok u →
  ∃ u', handle_inputs KEY_RESIZE KEY_BACKSPACE KEY_LEFT KEY_RIGHT [key; 127] u
        = Ok (true, u')
        ∧ user_input u' = user_input u
        ∧ cursor_pos u' = cursor_pos u
        ∧ current_word_keystrokes u' = current_word_keystrokes u
        ∧ word_stats u' = word_stats u
        ∧ tabKeyCount u' = tabKeyCount u
        ∧ prediction_model u' = prediction_model u.
Proof.
  intros Hkey HR HB HL HRt (Hpos & _ & _ & Hk & _ & _ & Hm).
  set (c := ascii_of_N (Z.to_N key)).
  destruct (handle_printable KEY_RESIZE KEY_BACKSPACE KEY_LEFT KEY_RIGHT key u)
    as (u1 & E1 & Hui1 & Hcp1 & Hkw1 & Hws1 & Htb1 & Hmd1 & _); try lia; try exact Hm.
  fold c in Hui1, Hkw1, Hws1.
  assert (Hsp : Ascii.eqb c " " = false) by (apply printable_not_space; lia).
  rewrite Hsp in Hkw1, Hws1.
  set (pre := PyText.slice_to (user_input u) (cursor_pos u)) in *.
  set (post := PyStr.slice_from (user_input u) (cursor_pos u)) in *.
  assert (Hpre : PyStr.len pre = cursor_pos u) by (apply slice_to_len, Hpos).
  assert (Hlen1 : PyStr.len (user_input u1) = PyStr.len (user_input u) + 1).
  { rewrite Hui1, !len_append. unfold post. rewrite slice_from_len by exact Hpos.
    change (PyStr.len (String c EmptyString)) with 1. lia. }
  destruct (handle_backspace KEY_RESIZE KEY_BACKSPACE KEY_LEFT KEY_RIGHT 127 u1)
    as (c' & u2 & Hc' & E2 & Hui2 & Hcp2 & Hkw2 & Hws2 & Htb2 & Hmd2 & _);
    try lia; try (rewrite Hmd1; exact Hm).
  assert (c' = c) as ->.
  { rewrite Hcp1, Hui1 in Hc'. replace (cursor_pos u + 1 - 1) with (PyStr.len pre) in Hc' by lia.
    change (String c EmptyString ++ post) with (String c post) in Hc'.
    rewrite index_append in Hc'. congruence. }
  exists u2. cbn [handle_inputs]. rewrite ui_bind_run, E1, ui_bind_run, E2.
  split; [reflexivity |]. split; [| split; [| split; [| split; [| split]]]].
  - rewrite Hui2, Hcp1, Hui1.
    replace (cursor_pos u + 1 - 1) with (PyStr.len pre) by lia.
    rewrite slice_to_append.
    replace (cursor_pos u + 1) with (PyStr.len (pre ++ String c EmptyString))
      by (rewrite len_append, Hpre; reflexivity).
    rewrite <- append_assoc, slice_from_append.
    unfold pre, post. apply slice_to_from, Hpos.
  - lia.
  - rewrite Hkw2, Hkw1. destruct (PyText.is_alpha c); [| reflexivity].
    replace (current_word_keystrokes u + 1 >? 0) with true by lia. simpl. lia.
  - congruence.
  - congruence.
  - congruence.
Qed.

(** X25: typing a character and deleting it restores the text.  When
    the key codes of the curses library lie above 255, at every point of
    a session on a constructed model a printable key other than the space
    followed by backspace (127) leaves the text, the cursor, the letter
    counter, the recorded pairs, the tab counter and the model as they
    were. *)
Theorem typing_then_backspace_restores
    (st wt : string → list string) (corpus : string) (n0 : Z)
    (KEY_RESIZE KEY_BACKSPACE KEY_LEFT KEY_RIGHT : Z) (key : Z) :
  32 < key ≤ 126 →
  255 < KEY_RESIZE → 255 < KEY_BACKSPACE → 255 < KEY_LEFT → 255 < KEY_RIGHT →
  ∃ m, __init__ st wt corpus n0 = Ok m
       ∧ ∀ keys u,
           handle_inputs KEY_RESIZE KEY_BACKSPACE KEY_LEFT KEY_RIGHT keys (new_ui m)
           = Ok (true, u) →
           ∃ u', handle_inputs KEY_RESIZE KEY_BACKSPACE KEY_LEFT KEY_RIGHT [key; 127] u
                 = Ok (true, u')
                 ∧ user_input u' = user_input u
                 ∧ cursor_pos u' = cursor_pos u
                 ∧ current_word_keystrokes u' = current_word_keystrokes u
                 ∧ word_stats u' = word_stats u
                 ∧ tabKeyCount u' = tabKeyCount u
                 ∧ prediction_model u' = prediction_model u.
Proof.
  intros Hkey HR HB HL HRt. destruct (init_ok st wt corpus n0) as (m & E & Hm & _).
  exists m. split; [exact E |]. intros keys u Hrun.
  destruct (session_state_ok _ _ _ _ m keys true u Hm Hrun) as (Hu & _).
  apply type_then_backspace; assumption.
Qed.

Lemma typing_then_backspace_restores_witness :
  32 < 116 ≤ 126 ∧ 255 < 410 ∧ 255 < 263 ∧ 255 < 260 ∧ 255 < 261
  ∧ ∃ m, build "the cat sat on the mat the cat ran" 3 = Ok m
       ∧ ∀ keys u,
           handle_inputs 410 263 260 261 keys (new_ui m) = Ok (true, u) →
           ∃ u', handle_inputs 410 263 260 261 [116; 127] u = Ok (true, u')
                 ∧ user_input u' = user_input u
                 ∧ cursor_pos u' = cursor_pos u
                 ∧ current_word_keystrokes u' = current_word_keystrokes u
                 ∧ word_stats u' = word_stats u
                 ∧ tabKeyCount u' = tabKeyCount u
                 ∧ prediction_model u' = prediction_model u.
Proof.
  repeat (split; [lia |]).
  apply (typing_then_backspace_restores
           simple_sent_tokenize simple_word_tokenize
           "the cat sat on the mat the cat ran" 3 410 263 260 261 116); lia.
Defined.

(** ** The scores *)




